(** * Storefront application: cart store, checkout, address, category
      and product forms, login view, product and administration pages,
      and the tables, policies and order numbers of the schema.

    The development has three parts.  Part I embeds the program: each
    definition follows one function (or one table declaration) of the
    repository.  Part II defines the words the properties are stated
    with, and sample inputs.  Part III states and proves the properties. *)

From Stdlib Require Import List String Ascii ZArith NArith Bool Lia Permutation.
Import ListNotations.
#[local] Set Warnings "-register-all".
Local Open Scope string_scope.
Local Open Scope list_scope.

(* ===================================================================== *)
(** * Part I.  The program                                                *)
(* ===================================================================== *)

(** ** JavaScript values used by the views *)

Module JS.

(** [a || b] on a possibly missing string: [undefined] and the empty
    string are both falsy. *)
Definition or_else (a : option string) (b : string) : string :=
  match a with
  | Some s => if String.eqb s "" then b else s
  | None => b
  end.

(** [hay.includes(needle)]. *)
Fixpoint includes (needle hay : string) : bool :=
  String.prefix needle hay ||
  match hay with
  | EmptyString => false
  | String _ rest => includes needle rest
  end.

(** [msg?.includes(needle)] used as a condition: [undefined] is falsy. *)
Definition opt_includes (needle : string) (msg : option string) : bool :=
  match msg with
  | Some m => includes needle m
  | None => false
  end.

(** A string as the regular expressions of the code see it: its sequence
    of UTF-16 code units. *)
Definition ustring := list N.

Definition of_string (s : string) : ustring :=
  map N_of_ascii (list_ascii_of_string s).

End JS.

(** ** components/admin/CategoryForm.tsx: [generateSlug] *)

Module Slug.

Definition hyphen : N := 45.

Definition is_hyphen (c : N) : bool := N.eqb c hyphen.

(** The character class [[a-z0-9]]. *)
Definition is_lower_alnum (c : N) : bool :=
  ((97 <=? c) && (c <=? 122) || (48 <=? c) && (c <=? 57))%N.

(** [.replace(/[^a-z0-9]+/g, '-')]: every maximal run of characters
    outside [[a-z0-9]] becomes one hyphen.  [in_run] tells that the
    previous character belonged to the run being replaced. *)
Fixpoint replace_non_alnum_runs (in_run : bool) (s : JS.ustring) : JS.ustring :=
  match s with
  | [] => []
  | c :: rest =>
      if is_lower_alnum c then c :: replace_non_alnum_runs false rest
      else if in_run then replace_non_alnum_runs true rest
      else hyphen :: replace_non_alnum_runs true rest
  end.

(** [.replace(/(^-|-$)/g, '')]: scanning left to right, a hyphen is
    dropped when it stands at the start of the input ([^-]) or at its
    end ([-$]). *)
Fixpoint replace_edge_hyphens (at_start : bool) (s : JS.ustring) : JS.ustring :=
  match s with
  | [] => []
  | c :: rest =>
      if is_hyphen c && (at_start || match rest with [] => true | _ => false end)
      then replace_edge_hyphens false rest
      else c :: replace_edge_hyphens false rest
  end.

Section GenerateSlug.

(** [String.prototype.toLowerCase] of the host; the slug code does not
    depend on what it does to any particular character. *)
Variable toLowerCase : JS.ustring -> JS.ustring.

Definition generateSlug (name : JS.ustring) : JS.ustring :=
  replace_edge_hyphens true
    (replace_non_alnum_runs false
       (toLowerCase name)).

End GenerateSlug.

End Slug.

(** ** Results and errors of the external collaborators *)

Module Supabase.

(** What a [catch (error: any)] block of the views reads from the value
    it receives: [error.message] and [error.code], either of which may be
    missing. *)
Record JsError := {
  message : option string;
  code : option string
}.

(** The typed client's answer to a request: [{ data, error: null }] or
    [{ data: null, error }]. *)
Inductive Response (A : Type) : Type :=
| Success (data : A)
| Failure (error : JsError).

Arguments Success {A} data.
Arguments Failure {A} error.

End Supabase.

(** ** Event handlers: state passing with exceptions *)

Module Eff.
Import Supabase.

Inductive outcome (A : Type) : Type :=
| Returned (a : A)
| Thrown (e : JsError).

Arguments Returned {A} a.
Arguments Thrown {A} e.

(** A handler running over a world [W]: the state it reads and writes. *)
Definition M (W A : Type) : Type := W -> outcome A * W.

Definition ret {W A} (a : A) : M W A := fun w => (Returned a, w).

Definition bind {W A B} (c : M W A) (k : A -> M W B) : M W B :=
  fun w =>
    match c w with
    | (Returned a, w') => k a w'
    | (Thrown e, w') => (Thrown e, w')
    end.

Definition throw {W A} (e : JsError) : M W A := fun w => (Thrown e, w).

Definition get {W} : M W W := fun w => (Returned w, w).

Definition modify {W} (f : W -> W) : M W unit := fun w => (Returned tt, f w).

(** [try { body } catch (e) { handler e }]. *)
Definition try_catch {W A} (body : M W A) (handler : JsError -> M W A) : M W A :=
  fun w =>
    match body w with
    | (Returned a, w') => (Returned a, w')
    | (Thrown e, w') => handler e w'
    end.

(** [try { body } finally { fin }]: [fin] runs on both exits, and an
    exception of [body] goes on after it. *)
Definition try_finally {W A} (body : M W A) (fin : M W unit) : M W A :=
  fun w =>
    match body w with
    | (r, w') =>
        match fin w' with
        | (Returned _, w'') => (r, w'')
        | (Thrown e, w'') => (Thrown e, w'')
        end
    end.

(** [if (error) throw error], on the answer of a request. *)
Definition throw_on_error {W A} (r : Response A) : M W A :=
  match r with
  | Success d => ret d
  | Failure e => throw e
  end.

End Eff.

Declare Scope eff_scope.
Delimit Scope eff_scope with eff.
Notation "x <- c ;; k" := (Eff.bind c (fun x => k))
  (at level 61, c at next level, right associativity) : eff_scope.
Notation "c ;; k" := (Eff.bind c (fun _ => k))
  (at level 61, right associativity) : eff_scope.

(** ** lib/supabase.ts (src/unnamed/part_000): rows of the data platform

    One module per interface, with the field names of the source.  A
    field declared with [?] is an [option].  A [number] holding a money
    amount is kept as an integer number of hundredths, the resolution of
    the [decimal(10,2)] columns; the other numbers are integers. *)

Module Category.
Record t := {
  id : string;
  name : string;
  description : option string;
  slug : string;
  image_url : option string;
  created_at : string;
  updated_at : string
}.
End Category.

Module Product.
Record t := {
  id : string;
  name : string;
  description : option string;
  price : Z;
  compare_at_price : option Z;
  category_id : option string;
  image_url : option string;
  images : option (list string);
  inventory_count : Z;
  sku : option string;
  is_active : bool;
  created_at : string;
  updated_at : string;
  categories : option Category.t
}.
End Product.

Module Address.
Record t := {
  id : string;
  user_id : string;
  full_name : string;
  address_line_1 : string;
  address_line_2 : option string;
  city : string;
  state : string;
  postal_code : string;
  country : string;
  phone : option string;
  is_default : bool;
  created_at : string;
  updated_at : string
}.
End Address.

(** ** components/admin/CategoryForm.tsx: [handleSubmit] *)

Module CategoryForm.
Import Supabase Eff.
Local Open Scope eff_scope.

Record FormData := {
  name : string;
  description : string;
  slug : string;
  image_url : string
}.

(** The object sent to the [categories] collection. *)
Record CategoryData := {
  data_name : string;
  data_description : option string;
  data_slug : string;
  data_image_url : option string;
  data_updated_at : string
}.

(** The two requests the form can issue, answered by the platform. *)
Record Backend := {
  update_category : CategoryData -> string -> Response unit;
  insert_category : CategoryData -> Response unit
}.

(** State of the component and of its surroundings: the two [useState]
    cells, the number of [onSave()] calls, and the clock. *)
Record World := {
  loading : bool;
  error : string;
  saved : nat;
  now : string
}.

Definition setLoading (b : bool) : M World unit :=
  modify (fun w => {| loading := b; error := error w; saved := saved w; now := now w |}).

Definition setError (m : string) : M World unit :=
  modify (fun w => {| loading := loading w; error := m; saved := saved w; now := now w |}).

Definition onSave : M World unit :=
  modify (fun w => {| loading := loading w; error := error w; saved := S (saved w); now := now w |}).

(** [s || null]. *)
Definition or_null (s : string) : option string :=
  if String.eqb s "" then None else Some s.

Definition duplicate_slug_message : string :=
  "A category with this slug already exists. Please choose a different name.".

Definition handleSubmit (backend : Backend) (category : option Category.t)
    (formData : FormData) : M World unit :=
  setLoading true ;;
  setError "" ;;
  try_finally
    (try_catch
       (w <- get ;;
        let categoryData :=
          {| data_name := name formData;
             data_description := or_null (description formData);
             data_slug := slug formData;
             data_image_url := or_null (image_url formData);
             data_updated_at := now w |} in
        match category with
        | Some c =>
            throw_on_error (update_category backend categoryData (Category.id c))
        | None =>
            throw_on_error (insert_category backend categoryData)
        end ;;
        onSave)
       (fun e =>
          if match code e with Some c => String.eqb c "23505" | None => false end
          then setError duplicate_slug_message
          else setError (JS.or_else (message e) "Failed to save category")))
    (setLoading false).

End CategoryForm.

(** ** pages/auth/LoginPage.tsx: [handleSubmit] *)

Module LoginPage.
Import Supabase Eff.
Local Open Scope eff_scope.

(** State of the view: the [useState] cells for the form and the message,
    the navigations made ([replace: true] each time), and the lines
    written to the console. *)
Record World := {
  email : string;
  password : string;
  loading : bool;
  error : string;
  navigated : list string;
  console : list (string * string)
}.

Definition setLoading (b : bool) : M World unit :=
  modify (fun w => {| email := email w; password := password w; loading := b;
                      error := error w; navigated := navigated w;
                      console := console w |}).

Definition setError (m : string) : M World unit :=
  modify (fun w => {| email := email w; password := password w; loading := loading w;
                      error := m; navigated := navigated w;
                      console := console w |}).

Definition navigate (path : string) : M World unit :=
  modify (fun w => {| email := email w; password := password w; loading := loading w;
                      error := error w; navigated := navigated w ++ [path];
                      console := console w |}).

Definition console_log (a b : string) : M World unit :=
  modify (fun w => {| email := email w; password := password w; loading := loading w;
                      error := error w; navigated := navigated w;
                      console := console w ++ [(a, b)] |}).

Definition credentials_message : string :=
  "Invalid email or password. Please check your credentials and try again.".

Definition confirmation_message : string :=
  "Please check your email and click the confirmation link before signing in.".

Section Login.

(** [signIn] of the session store: it resolves, or throws the error of
    the authentication service. *)
Variable signIn : string -> string -> outcome unit.

(** [location.state?.from?.pathname]. *)
Variable from_pathname : option string.

Definition from : string := JS.or_else from_pathname "/dashboard".

Definition await_signIn (e p : string) : M World unit :=
  fun w => (signIn e p, w).

Definition handleSubmit : M World unit :=
  setLoading true ;;
  setError "" ;;
  try_finally
    (try_catch
       (w <- get ;;
        console_log (email w) (password w) ;;
        await_signIn (email w) (password w) ;;
        navigate from)
       (fun e =>
          if JS.opt_includes "Invalid login credentials" (message e)
          then setError credentials_message
          else if JS.opt_includes "Email not confirmed" (message e)
          then setError confirmation_message
          else setError (JS.or_else (message e) "Failed to sign in")))
    (setLoading false).

End Login.

End LoginPage.

(** ** supabase/migrations/20250705104231_long_frost.sql: the [products] table *)

Module Schema.

Inductive SqlType : Type :=
| uuid
| text
| decimal (precision scale : nat)
| jsonb
| integer
| boolean
| timestamptz.

(** A stored value.  A [decimal(p, s)] value is kept as its unscaled
    integer: [DecimalV u] in a column of scale 2 is the amount [u / 100];
    [DecimalNaN] is the value ['NaN'] of the type, which is not a number. *)
Inductive SqlValue : Type :=
| Null
| UuidV (u : string)
| TextV (t : string)
| DecimalV (unscaled : Z)
| DecimalNaN
| JsonV (j : string)
| IntegerV (i : Z)
| BooleanV (b : bool)
| TimestampV (t : string).

(** One column of a [CREATE TABLE]: its type and its column constraints.
    [check] is the predicate of a [CHECK (...)] clause, when there is one. *)
Record Column := {
  column_name : string;
  column_type : SqlType;
  primary_key : bool;
  not_null : bool;
  unique : bool;
  check : option (SqlValue -> bool)
}.

Definition column (n : string) (t : SqlType) : Column :=
  {| column_name := n; column_type := t; primary_key := false;
     not_null := false; unique := false; check := None |}.

Definition PRIMARY_KEY (c : Column) : Column :=
  {| column_name := column_name c; column_type := column_type c; primary_key := true;
     not_null := not_null c; unique := unique c; check := check c |}.

Definition NOT_NULL (c : Column) : Column :=
  {| column_name := column_name c; column_type := column_type c;
     primary_key := primary_key c; not_null := true; unique := unique c;
     check := check c |}.

Definition UNIQUE (c : Column) : Column :=
  {| column_name := column_name c; column_type := column_type c;
     primary_key := primary_key c; not_null := not_null c; unique := true;
     check := check c |}.

(** [CREATE TABLE IF NOT EXISTS products (...)].  Defaults and foreign
    keys do not restrict the value of a stored row taken alone and are
    left out. *)
Definition products : list Column :=
  [ PRIMARY_KEY (column "id" uuid);
    NOT_NULL (column "name" text);
    column "description" text;
    NOT_NULL (column "price" (decimal 10 2));
    column "compare_at_price" (decimal 10 2);
    column "category_id" uuid;
    column "image_url" text;
    column "images" jsonb;
    column "inventory_count" integer;
    UNIQUE (column "sku" text);
    column "is_active" boolean;
    column "created_at" timestamptz;
    column "updated_at" timestamptz ].

(** A row: one value per column, in the order of the declaration. *)
Definition Row := list SqlValue.

(** The values a column of the type stores.  A [decimal(p, s)] column
    stores the numbers of at most [p] digits, [s] of them after the
    point, and ['NaN'], which passes every precision and scale. *)
Definition has_type (t : SqlType) (v : SqlValue) : bool :=
  match t, v with
  | uuid, UuidV _ => true
  | text, TextV _ => true
  | decimal p _, DecimalV u => (Z.abs u <? 10 ^ Z.of_nat p)%Z
  | decimal _ _, DecimalNaN => true
  | jsonb, JsonV _ => true
  | integer, IntegerV i => ((- 2 ^ 31 <=? i) && (i <? 2 ^ 31))%Z
  | boolean, BooleanV _ => true
  | timestamptz, TimestampV _ => true
  | _, _ => false
  end.

(** What the column constraints ask of the value stored in a column. *)
Definition value_accepted (c : Column) (v : SqlValue) : bool :=
  match v with
  | Null => negb (not_null c || primary_key c)
  | _ =>
      has_type (column_type c) v &&
      match check c with
      | Some p => p v
      | None => true
      end
  end.

Fixpoint row_accepted (cols : list Column) (r : Row) : bool :=
  match cols, r with
  | [], [] => true
  | c :: cols', v :: r' => value_accepted c v && row_accepted cols' r'
  | _, _ => false
  end.

(** The value a row holds in the column called [n]. *)
Fixpoint value_of (cols : list Column) (n : string) (r : Row) : option SqlValue :=
  match cols, r with
  | c :: cols', v :: r' =>
      if String.eqb (column_name c) n then Some v else value_of cols' n r'
  | _, _ => None
  end.

Definition sql_value_eqb (a b : SqlValue) : bool :=
  match a, b with
  | Null, Null => true
  | UuidV x, UuidV y => String.eqb x y
  | TextV x, TextV y => String.eqb x y
  | DecimalV x, DecimalV y => Z.eqb x y
  | DecimalNaN, DecimalNaN => true
  | JsonV x, JsonV y => String.eqb x y
  | IntegerV x, IntegerV y => Z.eqb x y
  | BooleanV x, BooleanV y => Bool.eqb x y
  | TimestampV x, TimestampV y => String.eqb x y
  | _, _ => false
  end.

(** [r] does not repeat, in a unique or key column, a value of [rows];
    nulls never clash. *)
Definition no_clash (cols : list Column) (rows : list Row) (r : Row) : bool :=
  forallb
    (fun c =>
       negb (unique c || primary_key c) ||
       match value_of cols (column_name c) r with
       | Some Null | None => true
       | Some v =>
           forallb
             (fun r' =>
                match value_of cols (column_name c) r' with
                | Some v' => negb (sql_value_eqb v v')
                | None => true
                end)
             rows
       end)
    cols.

(** The contents a table can hold: every row passes the column
    constraints and the unique columns hold no value twice. *)
Fixpoint table_accepted (cols : list Column) (rows : list Row) : bool :=
  match rows with
  | [] => true
  | r :: rest =>
      row_accepted cols r && no_clash cols rest r && table_accepted cols rest
  end.

End Schema.

(** ** The host's JSON library

    [JSON.stringify] and [JSON.parse] on the values a cart snapshot is
    made of: [null], booleans, integers, strings of 8-bit characters,
    arrays and objects.  [stringify] writes no white space; [parse]
    accepts it between tokens.  Numbers with a fraction or an exponent
    are not among these values: [parse] has no value to give for a text
    that holds one. *)

Module JSON.

Definition quote : ascii := ascii_of_N 34.

Definition backslash : ascii := ascii_of_N 92.

Inductive json : Type :=
| JNull
| JBool (b : bool)
| JNum (n : Z)
| JStr (s : string)
| JArr (elements : list json)
| JObj (members : list (string * json)).

(** *** Writing *)

Definition digit_char (d : N) : ascii := ascii_of_N (48 + d).

(** The decimal digits of [n], most significant first, in front of
    [rest]; [fuel] bounds the number of digits. *)
Fixpoint emit_digits (fuel : nat) (n : N) (rest : string) : string :=
  match fuel with
  | O => rest
  | S fuel' =>
      let rest' := String (digit_char (n mod 10)) rest in
      if (n <? 10)%N then rest' else emit_digits fuel' (n / 10)%N rest'
  end.

Definition emit_N (n : N) (rest : string) : string :=
  emit_digits (S (N.to_nat (N.size n))) n rest.

Definition emit_Z (z : Z) (rest : string) : string :=
  match z with
  | Zneg p => String "-" (emit_N (Npos p) rest)
  | _ => emit_N (Z.to_N z) rest
  end.

Definition hex_char (d : N) : ascii :=
  if (d <? 10)%N then ascii_of_N (48 + d) else ascii_of_N (87 + d).

(** One character of a string literal. *)
Definition emit_char (c : ascii) (rest : string) : string :=
  let n := N_of_ascii c in
  if (n =? 34)%N then String backslash (String quote rest)
  else if (n =? 92)%N then String backslash (String backslash rest)
  else if (n =? 8)%N then String backslash (String "b" rest)
  else if (n =? 12)%N then String backslash (String "f" rest)
  else if (n =? 10)%N then String backslash (String "n" rest)
  else if (n =? 13)%N then String backslash (String "r" rest)
  else if (n =? 9)%N then String backslash (String "t" rest)
  else if (n <? 32)%N then
    String backslash (String "u" (String "0" (String "0"
      (String (hex_char (n / 16)) (String (hex_char (n mod 16)) rest)))))
  else String c rest.

Fixpoint emit_chars (s : string) (rest : string) : string :=
  match s with
  | EmptyString => rest
  | String c s' => emit_char c (emit_chars s' rest)
  end.

Definition emit_string (s : string) (rest : string) : string :=
  String quote (emit_chars s (String quote rest)).

(** The elements after the first one, each behind a comma, and the
    closing bracket. *)
Definition emit_more {A : Type} (emit_one : A -> string -> string) (close : ascii) :=
  fix go (xs : list A) (rest : string) : string :=
    match xs with
    | [] => String close rest
    | x :: xs' => String "," (emit_one x (go xs' rest))
    end.

Definition emit_seq {A : Type} (emit_one : A -> string -> string) (close : ascii)
    (xs : list A) (rest : string) : string :=
  match xs with
  | [] => String close rest
  | x :: xs' => emit_one x (emit_more emit_one close xs' rest)
  end.

Fixpoint emit (j : json) (rest : string) : string :=
  match j with
  | JNull => String "n" (String "u" (String "l" (String "l" rest)))
  | JBool true => String "t" (String "r" (String "u" (String "e" rest)))
  | JBool false => String "f" (String "a" (String "l" (String "s" (String "e" rest))))
  | JNum n => emit_Z n rest
  | JStr s => emit_string s rest
  | JArr l => String "[" (emit_seq emit "]" l rest)
  | JObj m =>
      String "{"
        (emit_seq (fun kv r => emit_string (fst kv) (String ":" (emit (snd kv) r)))
           "}" m rest)
  end.

(** [JSON.stringify]. *)
Definition stringify (j : json) : string := emit j "".

(** *** Reading *)

Definition is_ws (c : ascii) : bool :=
  let n := N_of_ascii c in
  ((n =? 32) || (n =? 9) || (n =? 10) || (n =? 13))%N.

Fixpoint skip_ws (s : string) : string :=
  match s with
  | String c r => if is_ws c then skip_ws r else s
  | EmptyString => EmptyString
  end.

Definition digit_value (c : ascii) : option N :=
  let n := N_of_ascii c in
  if ((48 <=? n) && (n <=? 57))%N then Some (n - 48)%N else None.

Definition hex_value (c : ascii) : option N :=
  let n := N_of_ascii c in
  if ((48 <=? n) && (n <=? 57))%N then Some (n - 48)%N
  else if ((97 <=? n) && (n <=? 102))%N then Some (n - 87)%N
  else if ((65 <=? n) && (n <=? 70))%N then Some (n - 55)%N
  else None.

Fixpoint parse_digits (acc : N) (s : string) : N * string :=
  match s with
  | String c r =>
      match digit_value c with
      | Some d => parse_digits (10 * acc + d)%N r
      | None => (acc, s)
      end
  | EmptyString => (acc, s)
  end.

(** An integer: the digit 0 alone, or a digit other than 0 and the
    digits that follow it.  A 0 in front of another digit is not a
    number of the grammar. *)
Definition parse_N (s : string) : option (N * string) :=
  match s with
  | String c r =>
      match digit_value c with
      | Some 0%N =>
          match r with
          | String c' _ =>
              match digit_value c' with
              | Some _ => None
              | None => Some (0%N, r)
              end
          | EmptyString => Some (0%N, r)
          end
      | Some _ => Some (parse_digits 0 s)
      | None => None
      end
  | EmptyString => None
  end.

(** The characters of a string literal up to its closing quote. *)
Fixpoint parse_chars (s : string) : option (string * string) :=
  match s with
  | EmptyString => None
  | String c r =>
      let n := N_of_ascii c in
      if (n =? 34)%N then Some (EmptyString, r)
      else if (n =? 92)%N then
        match r with
        | String e r1 =>
            let after (d : ascii) (k : option (string * string)) :=
              match k with
              | Some (str, r') => Some (String d str, r')
              | None => None
              end in
            let m := N_of_ascii e in
            if (m =? 34)%N then after quote (parse_chars r1)
            else if (m =? 92)%N then after backslash (parse_chars r1)
            else if (m =? 47)%N then after "/"%char (parse_chars r1)
            else if (m =? 98)%N then after (ascii_of_N 8) (parse_chars r1)
            else if (m =? 102)%N then after (ascii_of_N 12) (parse_chars r1)
            else if (m =? 110)%N then after (ascii_of_N 10) (parse_chars r1)
            else if (m =? 114)%N then after (ascii_of_N 13) (parse_chars r1)
            else if (m =? 116)%N then after (ascii_of_N 9) (parse_chars r1)
            else if (m =? 117)%N then
              match r1 with
              | String h1 (String h2 (String h3 (String h4 r5))) =>
                  match hex_value h1, hex_value h2, hex_value h3, hex_value h4 with
                  | Some a, Some b, Some c', Some d =>
                      let v := (((a * 16 + b) * 16 + c') * 16 + d)%N in
                      if (v <? 256)%N then after (ascii_of_N v) (parse_chars r5)
                      else None
                  | _, _, _, _ => None
                  end
              | _ => None
              end
            else None
        | EmptyString => None
        end
      else if (n <? 32)%N then None
      else
        match parse_chars r with
        | Some (str, r') => Some (String c str, r')
        | None => None
        end
  end.

(** [s] without its prefix [p], when [s] starts with [p]. *)
Fixpoint strip_prefix (p s : string) : option string :=
  match p with
  | EmptyString => Some s
  | String a p' =>
      match s with
      | String b s' => if Ascii.eqb a b then strip_prefix p' s' else None
      | EmptyString => None
      end
  end.

Fixpoint parse_value (fuel : nat) (s : string) : option (json * string) :=
  match fuel with
  | O => None
  | S fuel' =>
      match skip_ws s with
      | EmptyString => None
      | String c r as s' =>
          let n := N_of_ascii c in
          if (n =? 34)%N then
            match parse_chars r with
            | Some (str, r') => Some (JStr str, r')
            | None => None
            end
          else if (n =? 91)%N then
            match skip_ws r with
            | String c' r' =>
                if (N_of_ascii c' =? 93)%N then Some (JArr [], r')
                else
                  match parse_elements fuel' r with
                  | Some (l, r'') => Some (JArr l, r'')
                  | None => None
                  end
            | EmptyString => None
            end
          else if (n =? 123)%N then
            match skip_ws r with
            | String c' r' =>
                if (N_of_ascii c' =? 125)%N then Some (JObj [], r')
                else
                  match parse_members fuel' r with
                  | Some (m, r'') => Some (JObj m, r'')
                  | None => None
                  end
            | EmptyString => None
            end
          else if (n =? 45)%N then
            match parse_N r with
            | Some (v, r') => Some (JNum (- Z.of_N v), r')
            | None => None
            end
          else
            match parse_N s' with
            | Some (v, r') => Some (JNum (Z.of_N v), r')
            | None =>
                match strip_prefix "null" s' with
                | Some r' => Some (JNull, r')
                | None =>
                    match strip_prefix "true" s' with
                    | Some r' => Some (JBool true, r')
                    | None =>
                        match strip_prefix "false" s' with
                        | Some r' => Some (JBool false, r')
                        | None => None
                        end
                    end
                end
            end
      end
  end

with parse_elements (fuel : nat) (s : string) : option (list json * string) :=
  match fuel with
  | O => None
  | S fuel' =>
      match parse_value fuel' s with
      | Some (v, r) =>
          match skip_ws r with
          | String c r' =>
              if (N_of_ascii c =? 44)%N then
                match parse_elements fuel' r' with
                | Some (vs, r'') => Some (v :: vs, r'')
                | None => None
                end
              else if (N_of_ascii c =? 93)%N then Some ([v], r')
              else None
          | EmptyString => None
          end
      | None => None
      end
  end

with parse_members (fuel : nat) (s : string) : option (list (string * json) * string) :=
  match fuel with
  | O => None
  | S fuel' =>
      match skip_ws s with
      | String q r =>
          if (N_of_ascii q =? 34)%N then
            match parse_chars r with
            | Some (k, r1) =>
                match skip_ws r1 with
                | String colon r2 =>
                    if (N_of_ascii colon =? 58)%N then
                      match parse_value fuel' r2 with
                      | Some (v, r3) =>
                          match skip_ws r3 with
                          | String c r4 =>
                              if (N_of_ascii c =? 44)%N then
                                match parse_members fuel' r4 with
                                | Some (kvs, r5) => Some ((k, v) :: kvs, r5)
                                | None => None
                                end
                              else if (N_of_ascii c =? 125)%N then Some ([(k, v)], r4)
                              else None
                          | EmptyString => None
                          end
                      | None => None
                      end
                    else None
                | EmptyString => None
                end
            | None => None
            end
          else None
      | EmptyString => None
      end
  end.

(** [JSON.parse]: [None] stands for the [SyntaxError] it throws. *)
Definition parse (s : string) : option json :=
  match parse_value (S (String.length s)) s with
  | Some (j, r) =>
      match skip_ws r with
      | EmptyString => Some j
      | String _ _ => None
      end
  | None => None
  end.

End JSON.



(** ** contexts/CartContext: the cart store (not among the sources) *)

Module CartStore.
Import Supabase Eff JSON.
Local Open Scope eff_scope.

(** Modelled from the spec: contexts/CartContext is not among the
    sources.  A line item is a product snapshot with its quantity. *)
Record CartItem := {
  product : Product.t;
  quantity : Z
}.

(** Modelled from the spec: in contexts/CartContext (not among the
    sources) line items are keyed by the identifier of their product;
    [item] is the line item of [productId]. *)
Definition has_id (productId : string) (item : CartItem) : bool :=
  String.eqb (Product.id (product item)) productId.

(** The browser's [localStorage]: at most one string under each key. *)
Definition Storage : Type := string -> option string.

Definition getItem (key : string) (st : Storage) : option string := st key.

Definition setItem (key value : string) (st : Storage) : Storage :=
  fun k => if String.eqb k key then Some value else st k.

(** Modelled from the spec: the fixed key under which
    contexts/CartContext (not among the sources) keeps the snapshot; the
    spec does not give its text. *)
Definition CART_KEY : string := "cart".

(** Modelled from the spec: the state of the store of
    contexts/CartContext (not among the sources), an ordered sequence of
    line items mirrored to local storage. *)
Record Store := {
  items : list CartItem;
  localStorage : Storage
}.

(** *** The snapshot: a serialized array of [{product, quantity}] *)

(** Modelled from the spec: the snapshot written by contexts/CartContext
    (not among the sources); a field without a value is written [null]. *)
Definition opt_to_json {A} (f : A -> json) (o : option A) : json :=
  match o with
  | Some a => f a
  | None => JNull
  end.

(** Modelled from the spec: the snapshot written by contexts/CartContext
    (not among the sources); the joined category of a product, as the
    object of the fields of the [Category] interface. *)
Definition category_to_json (c : Category.t) : json :=
  JObj [ ("id", JStr (Category.id c));
         ("name", JStr (Category.name c));
         ("description", opt_to_json JStr (Category.description c));
         ("slug", JStr (Category.slug c));
         ("image_url", opt_to_json JStr (Category.image_url c));
         ("created_at", JStr (Category.created_at c));
         ("updated_at", JStr (Category.updated_at c)) ].

(** Modelled from the spec: the snapshot written by contexts/CartContext
    (not among the sources); a product snapshot, as the object of the
    fields of the [Product] interface. *)
Definition product_to_json (p : Product.t) : json :=
  JObj [ ("id", JStr (Product.id p));
         ("name", JStr (Product.name p));
         ("description", opt_to_json JStr (Product.description p));
         ("price", JNum (Product.price p));
         ("compare_at_price", opt_to_json JNum (Product.compare_at_price p));
         ("category_id", opt_to_json JStr (Product.category_id p));
         ("image_url", opt_to_json JStr (Product.image_url p));
         ("images", opt_to_json (fun l => JArr (map JStr l)) (Product.images p));
         ("inventory_count", JNum (Product.inventory_count p));
         ("sku", opt_to_json JStr (Product.sku p));
         ("is_active", JBool (Product.is_active p));
         ("created_at", JStr (Product.created_at p));
         ("updated_at", JStr (Product.updated_at p));
         ("categories", opt_to_json category_to_json (Product.categories p)) ].

(** Modelled from the spec: the snapshot written by contexts/CartContext
    (not among the sources); a line item, as a [{product, quantity}]
    object. *)
Definition item_to_json (i : CartItem) : json :=
  JObj [ ("product", product_to_json (product i));
         ("quantity", JNum (quantity i)) ].

(** Modelled from the spec: the persisted snapshot contexts/CartContext
    (not among the sources) writes for a line-item sequence. *)
Definition serialize (l : list CartItem) : string :=
  stringify (JArr (map item_to_json l)).

(** Modelled from the spec: the snapshot read by contexts/CartContext
    (not among the sources), field by field; [obj.k] is the first member
    of that name. *)
Fixpoint lookup (k : string) (m : list (string * json)) : option json :=
  match m with
  | [] => None
  | (k', v) :: m' => if String.eqb k' k then Some v else lookup k m'
  end.

(** Modelled from the spec: the snapshot read by contexts/CartContext
    (not among the sources); a value read as a string, a number, a
    boolean, or an array of values read one by one. *)
Definition as_string (j : json) : option string :=
  match j with JStr s => Some s | _ => None end.

Definition as_number (j : json) : option Z :=
  match j with JNum n => Some n | _ => None end.

Definition as_bool (j : json) : option bool :=
  match j with JBool b => Some b | _ => None end.

Fixpoint as_all {A} (as_one : json -> option A) (l : list json) : option (list A) :=
  match l with
  | [] => Some []
  | x :: xs =>
      match as_one x, as_all as_one xs with
      | Some a, Some r => Some (a :: r)
      | _, _ => None
      end
  end.

Definition as_array {A} (as_one : json -> option A) (j : json) : option (list A) :=
  match j with JArr l => as_all as_one l | _ => None end.

(** Modelled from the spec: the snapshot read by contexts/CartContext
    (not among the sources); a field that has to be there. *)
Definition required {A} (as_one : json -> option A) (k : string)
    (m : list (string * json)) : option A :=
  match lookup k m with
  | Some j => as_one j
  | None => None
  end.

(** Modelled from the spec: the snapshot read by contexts/CartContext
    (not among the sources); a field that may be missing or [null]. *)
Definition optional {A} (as_one : json -> option A) (k : string)
    (m : list (string * json)) : option (option A) :=
  match lookup k m with
  | None | Some JNull => Some None
  | Some j =>
      match as_one j with
      | Some a => Some (Some a)
      | None => None
      end
  end.

Notation "x <-? c ;; k" :=
  (match c with Some x => k | None => None end)
  (at level 61, c at next level, right associativity, only parsing).

(** Modelled from the spec: the snapshot read by contexts/CartContext
    (not among the sources); the three objects of a snapshot read back. *)
Definition category_of_json (j : json) : option Category.t :=
  match j with
  | JObj m =>
      id <-? required as_string "id" m ;;
      name <-? required as_string "name" m ;;
      description <-? optional as_string "description" m ;;
      slug <-? required as_string "slug" m ;;
      image_url <-? optional as_string "image_url" m ;;
      created_at <-? required as_string "created_at" m ;;
      updated_at <-? required as_string "updated_at" m ;;
      Some {| Category.id := id; Category.name := name;
              Category.description := description; Category.slug := slug;
              Category.image_url := image_url;
              Category.created_at := created_at;
              Category.updated_at := updated_at |}
  | _ => None
  end.

Definition product_of_json (j : json) : option Product.t :=
  match j with
  | JObj m =>
      id <-? required as_string "id" m ;;
      name <-? required as_string "name" m ;;
      description <-? optional as_string "description" m ;;
      price <-? required as_number "price" m ;;
      compare_at_price <-? optional as_number "compare_at_price" m ;;
      category_id <-? optional as_string "category_id" m ;;
      image_url <-? optional as_string "image_url" m ;;
      images <-? optional (as_array as_string) "images" m ;;
      inventory_count <-? required as_number "inventory_count" m ;;
      sku <-? optional as_string "sku" m ;;
      is_active <-? required as_bool "is_active" m ;;
      created_at <-? required as_string "created_at" m ;;
      updated_at <-? required as_string "updated_at" m ;;
      categories <-? optional category_of_json "categories" m ;;
      Some {| Product.id := id; Product.name := name;
              Product.description := description; Product.price := price;
              Product.compare_at_price := compare_at_price;
              Product.category_id := category_id;
              Product.image_url := image_url; Product.images := images;
              Product.inventory_count := inventory_count; Product.sku := sku;
              Product.is_active := is_active;
              Product.created_at := created_at;
              Product.updated_at := updated_at;
              Product.categories := categories |}
  | _ => None
  end.

Definition item_of_json (j : json) : option CartItem :=
  match j with
  | JObj m =>
      product <-? required product_of_json "product" m ;;
      quantity <-? required as_number "quantity" m ;;
      Some {| product := product; quantity := quantity |}
  | _ => None
  end.

(** Modelled from the spec: the errors contexts/CartContext (not among
    the sources) meets on a snapshot that cannot be read. *)
Definition SyntaxError : JsError :=
  {| message := Some "Unexpected token in JSON"; code := None |}.

Definition TypeError : JsError :=
  {| message := Some "Invalid cart snapshot"; code := None |}.

(** Modelled from the spec: contexts/CartContext (not among the sources)
    reading a snapshot back; a payload that is not the text of a
    line-item array makes it throw. *)
Definition deserialize {W} (payload : string) : M W (list CartItem) :=
  match parse payload with
  | None => throw SyntaxError
  | Some j =>
      match as_array item_of_json j with
      | Some l => ret l
      | None => throw TypeError
      end
  end.

(** Modelled from the spec: initialization of the store of
    contexts/CartContext (not among the sources) from local storage; a
    missing or corrupt payload yields the empty cart. *)
Definition loadCart : M Storage (list CartItem) :=
  try_catch
    (st <- get ;;
     match getItem CART_KEY st with
     | Some payload => deserialize payload
     | None => ret []
     end)
    (fun _ => ret []).

(** Modelled from the spec: the store of contexts/CartContext (not among
    the sources) as it is created on first load. *)
Definition initStore (st : Storage) : outcome Store :=
  match loadCart st with
  | (Returned l, st') => Returned {| items := l; localStorage := st' |}
  | (Thrown e, _) => Thrown e
  end.

(** Modelled from the spec: in contexts/CartContext (not among the
    sources) every mutating operation writes the full line-item sequence
    to local storage under the fixed key. *)
Definition persist (s : Store) : Store :=
  {| items := items s;
     localStorage := setItem CART_KEY (serialize (items s)) (localStorage s) |}.

(** Modelled from the spec: a mutation of contexts/CartContext (not
    among the sources) sets the line items and writes the snapshot
    before it returns. *)
Definition set_items (l : list CartItem) (s : Store) : Store :=
  persist {| items := l; localStorage := localStorage s |}.

(** Modelled from the spec: [addItem(product, quantity = 1)] of
    contexts/CartContext (not among the sources) increments the quantity
    of the line item of [product.id] when there is one, and otherwise
    appends a new line item.  The default quantity is the caller's
    [q = 1]. *)
Definition addItem (p : Product.t) (q : Z) (s : Store) : Store :=
  set_items
    (if existsb (has_id (Product.id p)) (items s)
     then map (fun i =>
                 if has_id (Product.id p) i
                 then {| product := product i; quantity := quantity i + q |}
                 else i)
              (items s)
     else items s ++ [{| product := p; quantity := q |}])
    s.

(** Modelled from the spec: [removeItem(productId)] of
    contexts/CartContext (not among the sources) deletes the line item
    if present. *)
Definition removeItem (productId : string) (s : Store) : Store :=
  set_items (filter (fun i => negb (has_id productId i)) (items s)) s.

(** Modelled from the spec: [updateQuantity(productId, quantity)] of
    contexts/CartContext (not among the sources) sets the quantity of
    the line item, and removes it when [quantity <= 0]. *)
Definition updateQuantity (productId : string) (q : Z) (s : Store) : Store :=
  if (q <=? 0)%Z then removeItem productId s
  else
    set_items
      (map (fun i =>
              if has_id productId i
              then {| product := product i; quantity := q |}
              else i)
           (items s))
      s.

(** Modelled from the spec: [clear()] of contexts/CartContext (not among
    the sources), called [clearCart] by the checkout page, empties the
    cart. *)
Definition clearCart (s : Store) : Store := set_items [] s.

(** Modelled from the spec: [getTotalItems()] of contexts/CartContext
    (not among the sources), the sum of the quantities of all line
    items. *)
Definition getTotalItems (s : Store) : Z :=
  fold_left (fun total i => (total + quantity i)%Z) (items s) 0%Z.

(** Modelled from the spec: [getTotalPrice()] of contexts/CartContext
    (not among the sources), the sum of [product.price * quantity] over
    all line items. *)
Definition getTotalPrice (s : Store) : Z :=
  fold_left (fun total i => (total + Product.price (product i) * quantity i)%Z)
    (items s) 0%Z.

End CartStore.

(** ** The signed-in user and the order rows *)

Module User.
(** What the views read of [useAuth().user]. *)
Record t := {
  id : string
}.
End User.

Module Order.
(** The row [insert(...).select().single()] gives back. *)
Record t := {
  id : string;
  user_id : string;
  order_number : string;
  status : string;
  total_amount : Z;
  notes : option string;
  created_at : string;
  updated_at : string
}.
End Order.

(** ** pages/checkout/CheckoutPage: [handleSubmit]
    (second part of src/components/products/ProductCard.tsx) *)

Module CheckoutPage.
Import Supabase Eff CartStore.
Local Open Scope eff_scope.

Record FormData := {
  fullName : string;
  email : string;
  phone : string;
  addressLine1 : string;
  addressLine2 : string;
  city : string;
  state : string;
  postalCode : string;
  country : string;
  notes : string
}.

Record ShippingAddress := {
  full_name : string;
  shipping_email : string;
  shipping_phone : string;
  address_line_1 : string;
  address_line_2 : string;
  shipping_city : string;
  shipping_state : string;
  postal_code : string;
  shipping_country : string
}.

(** The object inserted in [orders]. *)
Record OrderInsert := {
  user_id : string;
  total_amount : Z;
  status : string;
  shipping_address : ShippingAddress;
  order_notes : string
}.

(** One object inserted in [order_items]. *)
Record OrderItemInsert := {
  order_id : string;
  product_id : string;
  item_quantity : Z;
  item_price : Z
}.

(** The two requests of a submission, answered by the platform. *)
Record Backend := {
  insert_order : OrderInsert -> Response Order.t;
  insert_order_items : list OrderItemInsert -> Response unit
}.

(** What the handler does to its surroundings, in order. *)
Inductive Event : Type :=
| OrdersInsert (row : OrderInsert)
| OrderItemsInsert (rows : list OrderItemInsert)
| ClearCart
| Navigate (path : string) (orderNumber : string).

(** The cart store, the two [useState] cells of the page, and the trace
    of the requests, cart clearings and navigations made so far. *)
Record World := {
  cart : Store;
  loading : bool;
  error : string;
  trace : list Event
}.

Definition setLoading (b : bool) : M World unit :=
  modify (fun w => {| cart := cart w; loading := b; error := error w; trace := trace w |}).

Definition setError (m : string) : M World unit :=
  modify (fun w => {| cart := cart w; loading := loading w; error := m; trace := trace w |}).

Definition record (e : Event) : M World unit :=
  modify (fun w => {| cart := cart w; loading := loading w; error := error w;
                      trace := trace w ++ [e] |}).

(** [clearCart()] of the cart store. *)
Definition clearCart : M World unit :=
  record ClearCart ;;
  modify (fun w => {| cart := CartStore.clearCart (cart w); loading := loading w;
                      error := error w; trace := trace w |}).

Definition navigate (path orderNumber : string) : M World unit :=
  record (Navigate path orderNumber).

Definition order_row (u : User.t) (formData : FormData) (total : Z) : OrderInsert :=
  {| user_id := User.id u;
     total_amount := total;
     status := "pending";
     shipping_address :=
       {| full_name := fullName formData;
          shipping_email := email formData;
          shipping_phone := phone formData;
          address_line_1 := addressLine1 formData;
          address_line_2 := addressLine2 formData;
          shipping_city := city formData;
          shipping_state := state formData;
          postal_code := postalCode formData;
          shipping_country := country formData |};
     order_notes := notes formData |}.

(** [items.map(item => ({ order_id: order.id, ... }))]. *)
Definition orderItems (order : Order.t) (l : list CartItem) : list OrderItemInsert :=
  map (fun item =>
         {| order_id := Order.id order;
            product_id := Product.id (product item);
            item_quantity := quantity item;
            item_price := Product.price (product item) |})
      l.

Definition handleSubmit (backend : Backend) (user : option User.t)
    (formData : FormData) : M World unit :=
  match user with
  | None => ret tt
  | Some u =>
      setLoading true ;;
      setError "" ;;
      try_finally
        (try_catch
           (w <- get ;;
            let row := order_row u formData (getTotalPrice (cart w)) in
            record (OrdersInsert row) ;;
            order <- throw_on_error (insert_order backend row) ;;
            let rows := orderItems order (items (cart w)) in
            record (OrderItemsInsert rows) ;;
            throw_on_error (insert_order_items backend rows) ;;
            clearCart ;;
            navigate "/order-success" (Order.order_number order))
           (fun e => setError (JS.or_else (message e) "Failed to place order")))
        (setLoading false)
  end.

End CheckoutPage.

(** ** The address form: [AddressForm.handleSubmit]
    (second part of src/App.tsx) *)

Module AddressForm.
Import Supabase Eff.
Local Open Scope eff_scope.

Record FormData := {
  full_name : string;
  address_line_1 : string;
  address_line_2 : string;
  city : string;
  state : string;
  postal_code : string;
  country : string;
  phone : string;
  is_default : bool
}.

(** The object written to [addresses]. *)
Record AddressData := {
  data_user_id : string;
  data_full_name : string;
  data_address_line_1 : string;
  data_address_line_2 : option string;
  data_city : string;
  data_state : string;
  data_postal_code : string;
  data_country : string;
  data_phone : option string;
  data_is_default : bool;
  data_updated_at : string
}.

(** The filters the form chains on a request. *)
Inductive Filter : Type :=
| eq_id (v : string)
| eq_user_id (v : string)
| neq_id (v : string).

(** The requests the form sends to [addresses]. *)
Inductive Request : Type :=
| insert (data : AddressData)
| update (data : AddressData) (filters : list Filter)
| update_is_default (value : bool) (filters : list Filter).

(** *** The [addresses] collection of the platform *)

Definition matches (f : Filter) (row : Address.t) : bool :=
  match f with
  | eq_id v => String.eqb (Address.id row) v
  | eq_user_id v => String.eqb (Address.user_id row) v
  | neq_id v => negb (String.eqb (Address.id row) v)
  end.

Definition selected (filters : list Filter) (row : Address.t) : bool :=
  forallb (fun f => matches f row) filters.

(** A filter that compares the [uuid] column [id] with the empty text,
    which is not the text of a [uuid]. *)
Definition compares_id_with_empty (f : Filter) : bool :=
  match f with
  | eq_id v | neq_id v => String.eqb v ""
  | eq_user_id _ => false
  end.

Definition with_data (data : AddressData) (row : Address.t) : Address.t :=
  {| Address.id := Address.id row;
     Address.user_id := data_user_id data;
     Address.full_name := data_full_name data;
     Address.address_line_1 := data_address_line_1 data;
     Address.address_line_2 := data_address_line_2 data;
     Address.city := data_city data;
     Address.state := data_state data;
     Address.postal_code := data_postal_code data;
     Address.country := data_country data;
     Address.phone := data_phone data;
     Address.is_default := data_is_default data;
     Address.created_at := Address.created_at row;
     Address.updated_at := data_updated_at data |}.

Definition with_is_default (value : bool) (row : Address.t) : Address.t :=
  {| Address.id := Address.id row;
     Address.user_id := Address.user_id row;
     Address.full_name := Address.full_name row;
     Address.address_line_1 := Address.address_line_1 row;
     Address.address_line_2 := Address.address_line_2 row;
     Address.city := Address.city row;
     Address.state := Address.state row;
     Address.postal_code := Address.postal_code row;
     Address.country := Address.country row;
     Address.phone := Address.phone row;
     Address.is_default := value;
     Address.created_at := Address.created_at row;
     Address.updated_at := Address.updated_at row |}.

(** What is not decided by the repository: which requests the platform
    refuses of its own accord ([refuses], for constraints and the
    network), the id and the creation time it gives to an inserted row,
    and whether a comparison of [id] with the empty text is refused as
    malformed or carried out on the texts. *)
Record Backend := {
  refuses : Request -> option JsError;
  gen_random_uuid : string;
  created_now : string;
  rejects_empty_uuid : bool
}.

Definition invalid_uuid : JsError :=
  {| message := Some "invalid input syntax for type uuid";
     code := Some "22P02" |}.

Definition filters_of (r : Request) : list Filter :=
  match r with
  | insert _ => []
  | update _ fs | update_is_default _ fs => fs
  end.

(** The row an insert creates: [id] and [created_at] take their column
    defaults. *)
Definition inserted_row (backend : Backend) (data : AddressData) : Address.t :=
  {| Address.id := gen_random_uuid backend;
     Address.user_id := data_user_id data;
     Address.full_name := data_full_name data;
     Address.address_line_1 := data_address_line_1 data;
     Address.address_line_2 := data_address_line_2 data;
     Address.city := data_city data;
     Address.state := data_state data;
     Address.postal_code := data_postal_code data;
     Address.country := data_country data;
     Address.phone := data_phone data;
     Address.is_default := data_is_default data;
     Address.created_at := created_now backend;
     Address.updated_at := data_updated_at data |}.

(** The policy of the collection (20250705104231_long_frost.sql),
    [FOR ALL TO authenticated USING (auth.uid() = user_id) WITH CHECK
    (auth.uid() = user_id)], for a request sent in the session of the
    user [uid]: the rows it may work on, and the rows it may leave. *)
Definition own (uid : string) (row : Address.t) : bool :=
  String.eqb uid (Address.user_id row).

(** The rows an update works on: those its filters select among the
    rows of the user.  The rows of another user are passed over without
    an error. *)
Definition target (uid : string) (fs : list Filter) (row : Address.t) : bool :=
  selected fs row && own uid row.

(** The request would leave a row that is not the user's own. *)
Definition violates_check (uid : string) (r : Request) (table : list Address.t)
    : bool :=
  match r with
  | insert data => negb (String.eqb uid (data_user_id data))
  | update data fs =>
      negb (String.eqb uid (data_user_id data)) && existsb (target uid fs) table
  | update_is_default _ _ => false
  end.

Definition row_security_violation : JsError :=
  {| message :=
       Some (String.append
               "new row violates row-level security policy for table "
               (String JSON.quote
                  (String.append "addresses" (String JSON.quote EmptyString))));
     code := Some "42501" |}.

(** The contents of the collection after a request that went through. *)
Definition apply (backend : Backend) (uid : string) (r : Request)
    (table : list Address.t) : list Address.t :=
  match r with
  | insert data => table ++ [inserted_row backend data]
  | update data fs =>
      map (fun row => if target uid fs row then with_data data row else row) table
  | update_is_default value fs =>
      map (fun row => if target uid fs row then with_is_default value row else row)
        table
  end.

(** The answer to a request sent in the session of [uid], and the
    contents of the collection after it: a refused request changes
    nothing. *)
Definition answer (backend : Backend) (uid : string) (r : Request)
    (table : list Address.t) : Response unit * list Address.t :=
  match refuses backend r with
  | Some e => (Failure e, table)
  | None =>
      if rejects_empty_uuid backend && existsb compares_id_with_empty (filters_of r)
      then (Failure invalid_uuid, table)
      else if violates_check uid r table
      then (Failure row_security_violation, table)
      else (Success tt, apply backend uid r table)
  end.

(** *** The form *)

(** The collection, the two [useState] cells of the form, the number of
    [onSave()] calls, the clock, and the requests sent so far, each with
    the contents of the collection after it. *)
Record World := {
  addresses : list Address.t;
  loading : bool;
  error : string;
  saved : nat;
  now : string;
  history : list (Request * list Address.t)
}.

Definition setLoading (b : bool) : M World unit :=
  modify (fun w => {| addresses := addresses w; loading := b; error := error w;
                      saved := saved w; now := now w; history := history w |}).

Definition setError (m : string) : M World unit :=
  modify (fun w => {| addresses := addresses w; loading := loading w; error := m;
                      saved := saved w; now := now w; history := history w |}).

Definition onSave : M World unit :=
  modify (fun w => {| addresses := addresses w; loading := loading w; error := error w;
                      saved := S (saved w); now := now w; history := history w |}).

(** [await supabase.from('addresses')...]; the client sends the request
    in the session of the user [u] of [useAuth]. *)
Definition await (backend : Backend) (u : User.t) (r : Request)
    : M World (Response unit) :=
  fun w =>
    let (resp, table) := answer backend (User.id u) r (addresses w) in
    (Returned resp,
     {| addresses := table; loading := loading w; error := error w;
        saved := saved w; now := now w;
        history := history w ++ [(r, table)] |}).

Definition or_null (s : string) : option string :=
  if String.eqb s "" then None else Some s.

Definition addressData (u : User.t) (formData : FormData) (now : string)
    : AddressData :=
  {| data_user_id := User.id u;
     data_full_name := full_name formData;
     data_address_line_1 := address_line_1 formData;
     data_address_line_2 := or_null (address_line_2 formData);
     data_city := city formData;
     data_state := state formData;
     data_postal_code := postal_code formData;
     data_country := country formData;
     data_phone := or_null (phone formData);
     data_is_default := is_default formData;
     data_updated_at := now |}.

Definition handleSubmit (backend : Backend) (user : option User.t)
    (address : option Address.t) (formData : FormData) : M World unit :=
  match user with
  | None => ret tt
  | Some u =>
      setLoading true ;;
      setError "" ;;
      try_finally
        (try_catch
           (w <- get ;;
            let data := addressData u formData (now w) in
            match address with
            | Some a =>
                r <- await backend u (update data [eq_id (Address.id a)]) ;;
                throw_on_error r
            | None =>
                r <- await backend u (insert data) ;;
                throw_on_error r
            end ;;
            (if is_default formData
             then
               _ <- await backend u
                      (update_is_default false
                         [eq_user_id (User.id u);
                          neq_id (JS.or_else (option_map Address.id address) "")]) ;;
               ret tt
             else ret tt) ;;
            onSave)
           (fun e => setError (JS.or_else (message e) "Failed to save address")))
        (setLoading false)
  end.

End AddressForm.

(** ** supabase/migrations/20250705104231_long_frost.sql:
    [generate_order_number], [order_number_seq], [set_order_number] *)

Module OrderNumber.

(** [repeat(c, n)]. *)
Fixpoint repeat_char (c : ascii) (n : nat) : string :=
  match n with
  | O => EmptyString
  | S n' => String c (repeat_char c n')
  end.

(** [lpad(s, len, fill)] for a fill of one character: [s] cut to its
    first [len] characters when it has that many, and otherwise extended
    on the left with the fill character up to the length [len]. *)
Definition lpad (s : string) (len : nat) (fill : ascii) : string :=
  if Nat.leb len (String.length s)
  then String.substring 0 len s
  else String.append (repeat_char fill (len - String.length s)) s.

(** [v::text] for a value of the sequence, which is positive. *)
Definition bigint_text (v : N) : string := JSON.emit_N v "".

(** [order_number_seq], created with [START 1]: the state is the value
    the next call of [nextval] returns; past the largest [bigint] the
    call fails. *)
Definition order_number_seq_start : N := 1.

Definition bigint_max : N := 9223372036854775807.

Definition nextval (seq : N) : option (N * N) :=
  if (seq <=? bigint_max)%N then Some (seq, (seq + 1)%N) else None.

(** [generate_order_number()]; [today] is [to_char(now(), 'YYYYMMDD')]. *)
Definition generate_order_number (today : string) (seq : N) : option (string * N) :=
  match nextval seq with
  | Some (v, seq') =>
      Some (String.append "ORD-"
              (String.append today
                 (String.append "-" (lpad (bigint_text v) 6 "0"))),
            seq')
  | None => None
  end.

(** [set_order_number()], the trigger that runs before each insert on
    [orders]: [order_number] is [NEW.order_number]. *)
Definition set_order_number (today : string) (order_number : option string)
    (seq : N) : option (option string * N) :=
  match order_number with
  | None =>
      match generate_order_number today seq with
      | Some (number, seq') => Some (Some number, seq')
      | None => None
      end
  | Some _ => Some (order_number, seq)
  end.

End OrderNumber.

(** ** components/products/ProductCard.tsx: [getProductImage] *)

Module ProductCard.

Definition placeholder : string :=
  "https://images.pexels.com/photos/163064/play-stone-network-networked-interactive-163064.jpeg".

(** A string used as a condition: the empty string is falsy. *)
Definition truthy (s : string) : bool := negb (String.eqb s "").

Section Images.

(** [String.prototype.trim] of the host. *)
Variable trim : string -> string.

(** [typeof img === 'string' && img.trim() !== '']. *)
Definition non_blank (img : string) : bool := negb (String.eqb (trim img) "").

Definition getProductImage (product : Product.t) (imageError : bool) : string :=
  let from_images :=
    match Product.images product with
    | Some (firstImage :: _) =>
        if non_blank firstImage then firstImage else placeholder
    | _ => placeholder
    end in
  match Product.image_url product with
  | Some image_url =>
      if truthy image_url && negb imageError then image_url else from_images
  | None => from_images
  end.

End Images.

End ProductCard.

(** ** The product page (src/unnamed/part_002): [getProductImages],
    [nextImage], [prevImage], the quantity buttons, [handleBuyNow] *)

Module ProductDetailPage.
Import Eff.
Local Open Scope eff_scope.

Definition placeholder : string :=
  "https://images.pexels.com/photos/163064/play-stone-network-networked-interactive-163064.jpeg".

Section Images.

Variable trim : string -> string.

(** [product] is [null] until it is fetched. *)
Definition getProductImages (product : option Product.t) : list string :=
  let images :=
    match product with
    | Some p =>
        match Product.images p with
        | Some l => filter (ProductCard.non_blank trim) l
        | None => []
        end
    | None => []
    end in
  let images :=
    match product with
    | Some p =>
        match Product.image_url p with
        | Some image_url =>
            if ProductCard.truthy image_url
               && negb (existsb (String.eqb image_url) images)
            then image_url :: images
            else images
        | None => images
        end
    | None => images
    end in
  match images with
  | [] => [placeholder]
  | _ => images
  end.

End Images.

(** [(prev + 1) % images.length]; [%] is the remainder that takes the
    sign of the dividend. *)
Definition nextImage (length : Z) (prev : Z) : Z := Z.rem (prev + 1) length.

(** [(prev - 1 + images.length) % images.length]. *)
Definition prevImage (length : Z) (prev : Z) : Z := Z.rem (prev - 1 + length) length.

(** The two [useState] cells the carousel works on. *)
Record Carousel := {
  selectedImage : Z;
  imageError : bool
}.

(** What can happen to the carousel: a click on one of the two arrows or
    on the thumbnail of an index, and the [onError] and [onLoad] events
    of the image shown. *)
Inductive CarouselEvent : Type :=
| ClickNext
| ClickPrev
| ClickThumbnail (index : nat)
| ImageError
| ImageLoad.

(** The arrows are rendered when [images.length > 1 && !imageError], and
    one thumbnail for each index of [images] when [images.length > 1]; an
    element that is not rendered receives no click. *)
Definition carousel_event (images : list string) (e : CarouselEvent) (c : Carousel)
    : Carousel :=
  let n := Z.of_nat (List.length images) in
  match e with
  | ClickNext =>
      if (1 <? n)%Z && negb (imageError c)
      then {| selectedImage := nextImage n (selectedImage c); imageError := false |}
      else c
  | ClickPrev =>
      if (1 <? n)%Z && negb (imageError c)
      then {| selectedImage := prevImage n (selectedImage c); imageError := false |}
      else c
  | ClickThumbnail index =>
      if (1 <? n)%Z && Nat.ltb index (List.length images)
      then {| selectedImage := Z.of_nat index; imageError := false |}
      else c
  | ImageError => {| selectedImage := selectedImage c; imageError := true |}
  | ImageLoad => {| selectedImage := selectedImage c; imageError := false |}
  end.

(** [useState(0)] and [useState(false)]. *)
Definition carousel_initial : Carousel :=
  {| selectedImage := 0; imageError := false |}.

(** The [-] button: [setQuantity(Math.max(1, quantity - 1))], disabled
    when [quantity <= 1]. *)
Definition minus (quantity : Z) : Z := Z.max 1 (quantity - 1).

Definition minus_disabled (quantity : Z) : bool := (quantity <=? 1)%Z.

(** The [+] button: [setQuantity(Math.min(product.inventory_count,
    quantity + 1))], disabled when [quantity >= product.inventory_count]. *)
Definition plus (inventory_count quantity : Z) : Z :=
  Z.min inventory_count (quantity + 1).

Definition plus_disabled (inventory_count quantity : Z) : bool :=
  (inventory_count <=? quantity)%Z.

Inductive QuantityClick : Type :=
| Minus
| Plus.

(** A disabled button receives no click. *)
Definition quantity_click (inventory_count : Z) (c : QuantityClick) (quantity : Z) : Z :=
  match c with
  | Minus => if minus_disabled quantity then quantity else minus quantity
  | Plus =>
      if plus_disabled inventory_count quantity then quantity
      else plus inventory_count quantity
  end.

(** What [handleBuyNow] does to its surroundings: calls of [addItem] of
    the cart store, and navigations with the [state.from.pathname] they
    carry. *)
Inductive Event : Type :=
| AddItem (product : Product.t) (quantity : Z)
| Navigate (path : string) (from_pathname : option string).

Definition World := list Event.

Definition addItem (product : Product.t) (quantity : Z) : M World unit :=
  modify (fun w => w ++ [AddItem product quantity]).

Definition navigate (path : string) (from_pathname : option string) : M World unit :=
  modify (fun w => w ++ [Navigate path from_pathname]).

(** [`/products/${id}`]; [id] is the parameter of the route. *)
Definition product_path (id : option string) : string :=
  String.append "/products/"
    match id with
    | Some s => s
    | None => "undefined"
    end.

Definition handleBuyNow (product : option Product.t) (user : option User.t)
    (id : option string) (quantity : Z) : M World unit :=
  match product with
  | None => ret tt
  | Some p =>
      match user with
      | None => navigate "/login" (Some (product_path id))
      | Some _ =>
          addItem p quantity ;;
          navigate "/checkout" None
      end
  end.

End ProductDetailPage.

(** ** supabase/migrations: the row-level policies *)

Module Profile.
(** A row of [profiles]. *)
Record t := {
  id : string;
  email : string;
  full_name : option string;
  avatar_url : option string;
  role : option string;
  created_at : string;
  updated_at : string
}.
End Profile.

Module Policies.

Inductive Command : Type :=
| SELECT
| INSERT
| UPDATE
| DELETE.

Definition command_eqb (a b : Command) : bool :=
  match a, b with
  | SELECT, SELECT | INSERT, INSERT | UPDATE, UPDATE | DELETE, DELETE => true
  | _, _ => false
  end.

(** [FOR ALL], or [FOR] one command. *)
Inductive For : Type :=
| ALL
| ONLY (c : Command).

(** [TO public] or [TO authenticated]. *)
Inductive To : Type :=
| public
| authenticated.

(** [auth.uid()]: the id of the user of the request, [None] for a
    request without a session. *)
Definition Session := option string.

(** The tables the policy expressions read in a subquery. *)
Record Database := {
  profiles : list Profile.t;
  orders : list Order.t
}.

(** A policy on a table of rows [Row]; an expression that is [NULL]
    counts as false. *)
Record Policy (Row : Type) := {
  policy_name : string;
  policy_for : For;
  policy_to : To;
  USING : option (Session -> Database -> Row -> bool);
  WITH_CHECK : option (Session -> Database -> Row -> bool)
}.

Arguments policy_name {Row} p.
Arguments policy_for {Row} p.
Arguments policy_to {Row} p.
Arguments USING {Row} p.
Arguments WITH_CHECK {Row} p.

(** What a table carries: whether row-level security is enabled, and
    its policies. *)
Record Security (Row : Type) := {
  row_level_security : bool;
  policies : list (Policy Row)
}.

Arguments row_level_security {Row} s.
Arguments policies {Row} s.

(** *** The statements of the migrations *)

Inductive Statement (Row : Type) : Type :=
| CREATE_POLICY (p : Policy Row)
| DROP_POLICY_IF_EXISTS (name : string)
| ENABLE_ROW_LEVEL_SECURITY
| DISABLE_ROW_LEVEL_SECURITY.

Arguments CREATE_POLICY {Row} p.
Arguments DROP_POLICY_IF_EXISTS {Row} name.
Arguments ENABLE_ROW_LEVEL_SECURITY {Row}.
Arguments DISABLE_ROW_LEVEL_SECURITY {Row}.

Definition has_name {Row} (name : string) (p : Policy Row) : bool :=
  String.eqb (policy_name p) name.

(** One statement; creating a policy under a name the table has already
    is an error. *)
Definition exec {Row} (st : Statement Row) (s : Security Row)
    : option (Security Row) :=
  match st with
  | CREATE_POLICY p =>
      if existsb (has_name (policy_name p)) (policies s) then None
      else Some {| row_level_security := row_level_security s;
                   policies := policies s ++ [p] |}
  | DROP_POLICY_IF_EXISTS name =>
      Some {| row_level_security := row_level_security s;
              policies := filter (fun p => negb (has_name name p)) (policies s) |}
  | ENABLE_ROW_LEVEL_SECURITY =>
      Some {| row_level_security := true; policies := policies s |}
  | DISABLE_ROW_LEVEL_SECURITY =>
      Some {| row_level_security := false; policies := policies s |}
  end.

Fixpoint run {Row} (sts : list (Statement Row)) (s : Security Row)
    : option (Security Row) :=
  match sts with
  | [] => Some s
  | st :: rest =>
      match exec st s with
      | Some s' => run rest s'
      | None => None
      end
  end.

(** A table as [CREATE TABLE] leaves it. *)
Definition created {Row} : Security Row :=
  {| row_level_security := false; policies := [] |}.

(** The table after the statements, when they all go through. *)
Definition migrated {Row} (sts : list (Statement Row)) : Security Row :=
  match run sts created with
  | Some s => s
  | None => created
  end.

(** *** What the policies let through

    The requests are those of the application, sent with or without a
    session; the policies of a table are combined as the database does
    for permissive policies, any one of them being enough. *)

Definition signed_in (s : Session) : bool :=
  match s with
  | Some _ => true
  | None => false
  end.

(** The policy is one for the command and for the role of the request. *)
Definition applies {Row} (s : Session) (c : Command) (p : Policy Row) : bool :=
  match policy_for p with
  | ALL => true
  | ONLY c' => command_eqb c c'
  end &&
  match policy_to p with
  | public => true
  | authenticated => signed_in s
  end.

Definition holds {Row} (e : option (Session -> Database -> Row -> bool))
    (s : Session) (db : Database) (row : Row) : bool :=
  match e with
  | Some f => f s db row
  | None => false
  end.

(** An existing row passes when one of the policies for the command has
    a [USING] expression that holds of it; without row-level security
    every row passes. *)
Definition passes_using {Row} (sec : Security Row) (s : Session) (db : Database)
    (c : Command) (row : Row) : bool :=
  negb (row_level_security sec) ||
  existsb (fun p => applies s c p && holds (USING p) s db row) (policies sec).

(** A new row passes when one of the policies for the command has a
    [WITH CHECK] expression, or without one a [USING] expression, that
    holds of it. *)
Definition passes_check {Row} (sec : Security Row) (s : Session) (db : Database)
    (c : Command) (row : Row) : bool :=
  negb (row_level_security sec) ||
  existsb
    (fun p =>
       applies s c p &&
       holds match WITH_CHECK p with
             | Some f => Some f
             | None => USING p
             end s db row)
    (policies sec).

(** The rows a [SELECT] returns. *)
Definition select_visible {Row} (sec : Security Row) (s : Session) (db : Database)
    (row : Row) : bool :=
  passes_using sec s db SELECT row.

(** A statement that reads the table as well, in a [WHERE] or a
    [RETURNING] clause, is held to the policies for [SELECT] too. *)
Definition insert_allowed {Row} (sec : Security Row) (s : Session) (db : Database)
    (reads : bool) (new : Row) : bool :=
  passes_check sec s db INSERT new &&
  (negb reads || passes_using sec s db SELECT new).

(** The rows an [UPDATE] works on; the others are left alone, without an
    error. *)
Definition update_target {Row} (sec : Security Row) (s : Session) (db : Database)
    (reads : bool) (old : Row) : bool :=
  passes_using sec s db UPDATE old &&
  (negb reads || passes_using sec s db SELECT old).

(** The updated row is accepted; when it is not the statement fails. *)
Definition update_check {Row} (sec : Security Row) (s : Session) (db : Database)
    (reads : bool) (new : Row) : bool :=
  passes_check sec s db UPDATE new &&
  (negb reads || passes_using sec s db SELECT new).

(** The rows a [DELETE] works on. *)
Definition delete_target {Row} (sec : Security Row) (s : Session) (db : Database)
    (reads : bool) (old : Row) : bool :=
  passes_using sec s db DELETE old &&
  (negb reads || passes_using sec s db SELECT old).

(** *** The policies of [profiles] *)

(** [auth.uid() = v]. *)
Definition uid_is (s : Session) (v : string) : bool :=
  match s with
  | Some uid => String.eqb uid v
  | None => false
  end.

(** [auth.uid() = id]. *)
Definition own_profile (s : Session) (_ : Database) (p : Profile.t) : bool :=
  uid_is s (Profile.id p).

(** 20250705104231_long_frost.sql *)
Definition long_frost_profiles : list (Statement Profile.t) :=
  [ ENABLE_ROW_LEVEL_SECURITY;
    CREATE_POLICY
      {| policy_name := "Users can read own profile";
         policy_for := ONLY SELECT; policy_to := authenticated;
         USING := Some own_profile; WITH_CHECK := None |};
    CREATE_POLICY
      {| policy_name := "Users can update own profile";
         policy_for := ONLY UPDATE; policy_to := authenticated;
         USING := Some own_profile; WITH_CHECK := None |};
    CREATE_POLICY
      {| policy_name := "Users can insert own profile";
         policy_for := ONLY INSERT; policy_to := authenticated;
         USING := None; WITH_CHECK := Some own_profile |} ].

(** 20250705131145_misty_recipe.sql *)
Definition misty_recipe : list (Statement Profile.t) :=
  [ DROP_POLICY_IF_EXISTS "Users can insert own profile";
    CREATE_POLICY
      {| policy_name := "Users can insert own profile";
         policy_for := ONLY INSERT; policy_to := authenticated;
         USING := None; WITH_CHECK := Some own_profile |} ].

(** 20250705131516_gentle_shore.sql *)
Definition gentle_shore : list (Statement Profile.t) :=
  [ DROP_POLICY_IF_EXISTS "Users can insert own profile";
    DROP_POLICY_IF_EXISTS "Users can read own profile";
    DROP_POLICY_IF_EXISTS "Users can update own profile";
    CREATE_POLICY
      {| policy_name := "Users can insert own profile";
         policy_for := ONLY INSERT; policy_to := authenticated;
         USING := None; WITH_CHECK := Some own_profile |};
    CREATE_POLICY
      {| policy_name := "Users can read own profile";
         policy_for := ONLY SELECT; policy_to := authenticated;
         USING := Some own_profile; WITH_CHECK := None |};
    CREATE_POLICY
      {| policy_name := "Users can update own profile";
         policy_for := ONLY UPDATE; policy_to := authenticated;
         USING := Some own_profile; WITH_CHECK := Some own_profile |};
    ENABLE_ROW_LEVEL_SECURITY ].

(** 20250705133234_royal_darkness.sql *)
Definition royal_darkness : list (Statement Profile.t) :=
  [ DROP_POLICY_IF_EXISTS "Users can insert own profile";
    DROP_POLICY_IF_EXISTS "Users can read own profile";
    DROP_POLICY_IF_EXISTS "Users can update own profile";
    DISABLE_ROW_LEVEL_SECURITY;
    ENABLE_ROW_LEVEL_SECURITY;
    CREATE_POLICY
      {| policy_name := "Enable insert for authenticated users during registration";
         policy_for := ONLY INSERT; policy_to := authenticated;
         USING := None; WITH_CHECK := Some (fun _ _ _ => true) |};
    CREATE_POLICY
      {| policy_name := "Users can view own profile";
         policy_for := ONLY SELECT; policy_to := authenticated;
         USING := Some own_profile; WITH_CHECK := None |};
    CREATE_POLICY
      {| policy_name := "Users can update own profile";
         policy_for := ONLY UPDATE; policy_to := authenticated;
         USING := Some own_profile; WITH_CHECK := Some own_profile |};
    CREATE_POLICY
      {| policy_name := "Users can delete own profile";
         policy_for := ONLY DELETE; policy_to := authenticated;
         USING := Some own_profile; WITH_CHECK := None |} ].

(** [profiles] after the first three migrations, and after all four. *)
Definition profiles_before_royal_darkness : Security Profile.t :=
  migrated (long_frost_profiles ++ misty_recipe ++ gentle_shore).

Definition profiles_security : Security Profile.t :=
  migrated (long_frost_profiles ++ misty_recipe ++ gentle_shore ++ royal_darkness).

(** *** The policies of the other tables (20250705104231_long_frost.sql) *)

(** [EXISTS (SELECT 1 FROM profiles WHERE profiles.id = auth.uid() AND
    profiles.role = 'admin')]; the subquery sees the rows of [profiles]
    the request may read. *)
Definition is_admin (s : Session) (db : Database) : bool :=
  existsb
    (fun p =>
       select_visible profiles_security s db p &&
       uid_is s (Profile.id p) &&
       match Profile.role p with
       | Some r => String.eqb r "admin"
       | None => false
       end)
    (profiles db).

Definition categories_security : Security Category.t :=
  migrated
    [ ENABLE_ROW_LEVEL_SECURITY;
      CREATE_POLICY
        {| policy_name := "Anyone can read categories";
           policy_for := ONLY SELECT; policy_to := public;
           USING := Some (fun _ _ _ => true); WITH_CHECK := None |};
      CREATE_POLICY
        {| policy_name := "Admins can manage categories";
           policy_for := ALL; policy_to := authenticated;
           USING := Some (fun s db _ => is_admin s db); WITH_CHECK := None |} ].

Definition products_security : Security Product.t :=
  migrated
    [ ENABLE_ROW_LEVEL_SECURITY;
      CREATE_POLICY
        {| policy_name := "Anyone can read active products";
           policy_for := ONLY SELECT; policy_to := public;
           USING := Some (fun _ _ p => Bool.eqb (Product.is_active p) true);
           WITH_CHECK := None |};
      CREATE_POLICY
        {| policy_name := "Admins can manage products";
           policy_for := ALL; policy_to := authenticated;
           USING := Some (fun s db _ => is_admin s db); WITH_CHECK := None |} ].

(** [auth.uid() = user_id]. *)
Definition own_address (s : Session) (_ : Database) (a : Address.t) : bool :=
  uid_is s (Address.user_id a).

Definition addresses_security : Security Address.t :=
  migrated
    [ ENABLE_ROW_LEVEL_SECURITY;
      CREATE_POLICY
        {| policy_name := "Users can manage own addresses";
           policy_for := ALL; policy_to := authenticated;
           USING := Some own_address; WITH_CHECK := Some own_address |} ].

Definition own_order (s : Session) (_ : Database) (o : Order.t) : bool :=
  uid_is s (Order.user_id o).

Definition orders_security : Security Order.t :=
  migrated
    [ ENABLE_ROW_LEVEL_SECURITY;
      CREATE_POLICY
        {| policy_name := "Users can read own orders";
           policy_for := ONLY SELECT; policy_to := authenticated;
           USING := Some own_order; WITH_CHECK := None |};
      CREATE_POLICY
        {| policy_name := "Users can create own orders";
           policy_for := ONLY INSERT; policy_to := authenticated;
           USING := None; WITH_CHECK := Some own_order |};
      CREATE_POLICY
        {| policy_name := "Admins can read all orders";
           policy_for := ONLY SELECT; policy_to := authenticated;
           USING := Some (fun s db _ => is_admin s db); WITH_CHECK := None |} ].

(** [EXISTS (SELECT 1 FROM orders WHERE orders.id = order_items.order_id
    AND orders.user_id = auth.uid())]; the subquery sees the rows of
    [orders] the request may read.  A row of [order_items] is taken by
    the columns the application writes. *)
Definition item_of_own_order (s : Session) (db : Database)
    (i : CheckoutPage.OrderItemInsert) : bool :=
  existsb
    (fun o =>
       select_visible orders_security s db o &&
       String.eqb (Order.id o) (CheckoutPage.order_id i) &&
       uid_is s (Order.user_id o))
    (orders db).

Definition order_items_security : Security CheckoutPage.OrderItemInsert :=
  migrated
    [ ENABLE_ROW_LEVEL_SECURITY;
      CREATE_POLICY
        {| policy_name := "Users can read own order items";
           policy_for := ONLY SELECT; policy_to := authenticated;
           USING := Some item_of_own_order; WITH_CHECK := None |};
      CREATE_POLICY
        {| policy_name := "Users can create order items for own orders";
           policy_for := ONLY INSERT; policy_to := authenticated;
           USING := None; WITH_CHECK := Some item_of_own_order |} ].

(** *** Deleting a product (src/unnamed/part_003, [handleDeleteProduct]) *)

(** [product_id uuid REFERENCES products(id) ON DELETE CASCADE]: the
    order items that stay when the products [deleted] go.  The rows the
    reference removes go whatever the policies of [order_items]. *)
Definition cascade_products (deleted : list Product.t)
    (items : list CheckoutPage.OrderItemInsert)
    : list CheckoutPage.OrderItemInsert :=
  filter
    (fun i =>
       negb (existsb
               (fun p => String.eqb (Product.id p) (CheckoutPage.product_id i))
               deleted))
    items.

(** [from('products').delete().eq('id', productId)] sent in the session
    [s]: the products and the order items after it. *)
Definition delete_product (s : Session) (db : Database) (productId : string)
    (products : list Product.t) (items : list CheckoutPage.OrderItemInsert)
    : list Product.t * list CheckoutPage.OrderItemInsert :=
  let target p :=
    String.eqb (Product.id p) productId
    && delete_target products_security s db true p in
  (filter (fun p => negb (target p)) products,
   cascade_products (filter target products) items).

End Policies.

(** ** supabase/migrations/20250705104231_long_frost.sql: the [CHECK]
    constraints of [profiles.role] and [orders.status] *)

Module Tables.
Import Schema.

Definition one_of (allowed : list string) (v : SqlValue) : bool :=
  match v with
  | TextV t => existsb (String.eqb t) allowed
  | _ => false
  end.

(** [role text DEFAULT 'customer' CHECK (role IN ('customer', 'admin'))]. *)
Definition profiles_role : Column :=
  {| column_name := "role";
     column_type := text;
     primary_key := false;
     not_null := false;
     unique := false;
     check := Some (one_of ["customer"; "admin"]) |}.

(** [status text DEFAULT 'pending' CHECK (status IN ('pending',
    'processing', 'shipped', 'delivered', 'cancelled'))]. *)
Definition orders_status : Column :=
  {| column_name := "status";
     column_type := text;
     primary_key := false;
     not_null := false;
     unique := false;
     check :=
       Some (one_of ["pending"; "processing"; "shipped"; "delivered";
                     "cancelled"]) |}.

End Tables.

(** ** pages/profile/AdminProfilePage.tsx: [fetchAdminStats],
    [getStatusColor] *)

Module AdminProfilePage.
Import Supabase.

(** The figures of the page; [number] is the type of the numbers of the
    host. *)
Record Stats (number : Type) := {
  totalProducts : nat;
  totalOrders : nat;
  totalCustomers : nat;
  totalRevenue : number;
  recentActivity : list Order.t
}.

Arguments totalProducts {number} s.
Arguments totalOrders {number} s.
Arguments totalCustomers {number} s.
Arguments totalRevenue {number} s.
Arguments recentActivity {number} s.

(** [response.data || []]: the data of a refused request is [null]. *)
Definition data_or_empty {A} (r : Response (list A)) : list A :=
  match r with
  | Success d => d
  | Failure _ => []
  end.

(** [Array.prototype.sort(compare)]: the stable sort, which puts [x]
    before [y] when [compare(x, y)] is negative and keeps their order
    when it is zero. *)
Fixpoint insert_by {A} (compare : A -> A -> Z) (x : A) (l : list A) : list A :=
  match l with
  | [] => [x]
  | y :: rest =>
      if (compare x y <=? 0)%Z then x :: l else y :: insert_by compare x rest
  end.

Definition sort {A} (compare : A -> A -> Z) (l : list A) : list A :=
  fold_right (insert_by compare) [] l.

Section FetchAdminStats.

(** [new Date(created_at).getTime()]. *)
Variable getTime : string -> Z.

(** The numbers of the host, with its [+] and its [0], and the number
    the answer carries for an amount of the column [total_amount], kept
    here as a count of hundredths.  The sum of the host is not the sum
    of the amounts: it rounds. *)
Context {number : Type}.
Variable plus : number -> number -> number.
Variable zero : number.
Variable to_number : Z -> number.

(** The three answers are those to [from('products').select('id')],
    to [from('orders').select(...)] and to
    [from('profiles').select('id').eq('role', 'customer')]; the result
    is the argument of [setStats]. *)
Definition fetchAdminStats (productsResponse : Response (list Product.t))
    (ordersResponse : Response (list Order.t))
    (customersResponse : Response (list Profile.t)) : Stats number :=
  let products := data_or_empty productsResponse in
  let orders := data_or_empty ordersResponse in
  let customers := data_or_empty customersResponse in
  let totalRevenue :=
    fold_left (fun sum order => plus sum (to_number (Order.total_amount order)))
      orders zero in
  let recentActivity :=
    firstn 5
      (sort (fun a b => (getTime (Order.created_at b)
                         - getTime (Order.created_at a))%Z)
         orders) in
  {| totalProducts := List.length products;
     totalOrders := List.length orders;
     totalCustomers := List.length customers;
     totalRevenue := totalRevenue;
     recentActivity := recentActivity |}.

End FetchAdminStats.

(** [status] is [order.status], which is [null] when the column holds
    no status; [null] is none of the cases of the [switch]. *)
Definition getStatusColor (status : option string) : string :=
  match status with
  | Some status =>
      if String.eqb status "pending" then "bg-yellow-100 text-yellow-800"
      else if String.eqb status "processing" then "bg-blue-100 text-blue-800"
      else if String.eqb status "shipped" then "bg-purple-100 text-purple-800"
      else if String.eqb status "delivered" then "bg-green-100 text-green-800"
      else if String.eqb status "cancelled" then "bg-red-100 text-red-800"
      else "bg-gray-100 text-gray-800"
  | None => "bg-gray-100 text-gray-800"
  end.

End AdminProfilePage.

(** ** The administration page (src/unnamed/part_003): [fetchData] *)

Module AdminPage.
Import Supabase Eff.
Local Open Scope eff_scope.

Record Stats := {
  totalProducts : nat;
  activeProducts : nat;
  totalCategories : nat;
  totalOrders : nat
}.

(** The [useState] cells [fetchData] writes, and the errors written to
    the console. *)
Record World := {
  products : list Product.t;
  categories : list Category.t;
  stats : Stats;
  loading : bool;
  console : list JsError
}.

Definition setLoading (b : bool) : M World unit :=
  modify (fun w => {| products := products w; categories := categories w;
                      stats := stats w; loading := b; console := console w |}).







(** [useState] of the page. *)
Definition initial : World :=
  {| products := []; categories := [];
     stats := {| totalProducts := 0; activeProducts := 0;
                 totalCategories := 0; totalOrders := 0 |};
     loading := true; console := [] |}.

End AdminPage.

(** ** App.tsx, [AddressForm]: the form state and its [useEffect] *)

Module AddressFormFields.
Import AddressForm.

(** [useState] of the form. *)
Definition initial : FormData :=
  {| full_name := ""; address_line_1 := ""; address_line_2 := "";
     city := ""; state := ""; postal_code := ""; country := "US";
     phone := ""; is_default := false |}.

(** [s || d] on a string. *)
Definition or_default (s d : string) : string :=
  if String.eqb s "" then d else s.

(** The [useEffect] on [address]: the form takes the values of the
    address it is given, and keeps its own without one. *)
Definition load (address : option Address.t) (formData : FormData) : FormData :=
  match address with
  | Some a =>
      {| full_name := or_default (Address.full_name a) "";
         address_line_1 := or_default (Address.address_line_1 a) "";
         address_line_2 := JS.or_else (Address.address_line_2 a) "";
         city := or_default (Address.city a) "";
         state := or_default (Address.state a) "";
         postal_code := or_default (Address.postal_code a) "";
         country := or_default (Address.country a) "US";
         phone := JS.or_else (Address.phone a) "";
         is_default := Address.is_default a || false |}
  | None => formData
  end.

End AddressFormFields.

(** ** components/admin/ProductForm.tsx: the images of the form *)

Module ProductForm.

(** The state of the form the images depend on: the main image of
    [formData], the additional images, and the address being typed. *)
Record Images := {
  image_url : string;
  additionalImages : list string;
  newImageUrl : string
}.

Section Images.

(** [String.prototype.trim] of the host. *)
Variable trim : string -> string.

(** [useState] of the form. *)
Definition initial : Images :=
  {| image_url := ""; additionalImages := []; newImageUrl := "" |}.

(** [img !== product.image_url]. *)
Definition is_not (image_url : option string) (img : string) : bool :=
  match image_url with
  | Some u => negb (String.eqb img u)
  | None => true
  end.

(** The [useEffect] on [product]: the main image is taken from the
    product, and the additional images are those of [product.images]
    that are not blank and not the main image; without [product.images]
    the additional images stay as they are. *)
Definition load (product : option Product.t) (st : Images) : Images :=
  match product with
  | Some p =>
      {| image_url := JS.or_else (Product.image_url p) "";
         additionalImages :=
           match Product.images p with
           | Some images =>
               filter (fun img => ProductCard.non_blank trim img
                                  && is_not (Product.image_url p) img)
                 images
           | None => additionalImages st
           end;
         newImageUrl := newImageUrl st |}
  | None => st
  end.

Definition addImage (st : Images) : Images :=
  if ProductCard.truthy (trim (newImageUrl st))
     && negb (existsb (String.eqb (trim (newImageUrl st))) (additionalImages st))
  then {| image_url := image_url st;
          additionalImages := additionalImages st ++ [trim (newImageUrl st)];
          newImageUrl := "" |}
  else st.

(** [prev.filter((_, i) => i !== index)]. *)
Fixpoint remove_at {A} (index : nat) (l : list A) : list A :=
  match l, index with
  | [], _ => []
  | _ :: rest, O => rest
  | x :: rest, S i => x :: remove_at i rest
  end.

Definition removeImage (index : nat) (st : Images) : Images :=
  {| image_url := image_url st;
     additionalImages := remove_at index (additionalImages st);
     newImageUrl := newImageUrl st |}.

(** [allImages] of [handleSubmit]: the main image first when there is
    one, then the additional images. *)
Definition allImages (st : Images) : list string :=
  (if ProductCard.truthy (image_url st) then [image_url st] else [])
  ++ additionalImages st.

(** The two image columns of [productData]. *)
Definition data_image_url (st : Images) : option string :=
  if String.eqb (image_url st) "" then None else Some (image_url st).

Definition data_images (st : Images) : option (list string) :=
  match allImages st with
  | [] => None
  | images => Some images
  end.

End Images.

End ProductForm.

(** ** components/admin/CategoryForm.tsx: [handleInputChange] *)

Module CategoryFormFields.
Import CategoryForm.

Section HandleInputChange.

(** [generateSlug] of the form, on the text of the field. *)
Variable generateSlug : string -> string.

(** [{ ...prev, [name]: value }]: a name that is not one of the fields
    adds a key no one reads. *)
Definition set_field (field value : string) (prev : FormData) : FormData :=
  if String.eqb field "name"
  then {| name := value; description := description prev; slug := slug prev;
          image_url := image_url prev |}
  else if String.eqb field "description"
  then {| name := name prev; description := value; slug := slug prev;
          image_url := image_url prev |}
  else if String.eqb field "slug"
  then {| name := name prev; description := description prev; slug := value;
          image_url := image_url prev |}
  else if String.eqb field "image_url"
  then {| name := name prev; description := description prev; slug := slug prev;
          image_url := value |}
  else prev.

(** [field] and [value] are [e.target.name] and [e.target.value]. *)
Definition handleInputChange (category : option Category.t)
    (field value : string) (prev : FormData) : FormData :=
  let updated := set_field field value prev in
  if String.eqb field "name"
     && match category with Some _ => false | None => true end
  then {| name := name updated; description := description updated;
          slug := generateSlug value; image_url := image_url updated |}
  else updated.

End HandleInputChange.

End CategoryFormFields.

(* ===================================================================== *)
(** * Part II.  Vocabulary of the properties, and sample inputs           *)
(* ===================================================================== *)

(** ** Slugs *)

Module SlugProps.
Import Slug.

(** The alphabet of slugs: lowercase ASCII letters, digits and hyphens. *)
Definition slug_char (c : N) : Prop :=
  (97 <= c <= 122)%N \/ (48 <= c <= 57)%N \/ c = hyphen.

(** The three conditions on the place of hyphens in a slug. *)
Definition no_adjacent_hyphens (s : JS.ustring) : Prop :=
  forall a b, s <> a ++ hyphen :: hyphen :: b.

Definition head_not_hyphen (s : JS.ustring) : Prop :=
  forall rest, s <> hyphen :: rest.

Definition last_not_hyphen (s : JS.ustring) : Prop :=
  forall front, s <> front ++ [hyphen].

(** Recursive form of [no_adjacent_hyphens], convenient for induction. *)
Fixpoint no_adj (s : JS.ustring) : Prop :=
  match s with
  | a :: (b :: _) as t => ~ (a = hyphen /\ b = hyphen) /\ no_adj t
  | _ => True
  end.

(** Lower-casing of the ASCII range, leaving every other code unit as it
    is: a [toLowerCase] to run [generateSlug] with. *)
Definition ascii_lower_unit (c : N) : N :=
  if ((65 <=? c) && (c <=? 90))%N then (c + 32)%N else c.

Definition ascii_lower (s : JS.ustring) : JS.ustring := map ascii_lower_unit s.

End SlugProps.

(** ** Substring occurrence *)

Module JSProps.
Import JS.

(** [needle] occurs in [hay]. *)
Definition occurs_in (needle hay : string) : Prop :=
  exists a b, hay = (a ++ needle ++ b)%string.

End JSProps.

(** ** The category form *)

Module CategoryFormProps.
Import Supabase Eff CategoryForm.

(** The answer of the platform to the save request of one submission. *)
Definition save_response (backend : Backend) (category : option Category.t)
    (formData : FormData) (w : World) : Response unit :=
  let categoryData :=
    {| data_name := name formData;
       data_description := or_null (description formData);
       data_slug := slug formData;
       data_image_url := or_null (image_url formData);
       data_updated_at := now w |} in
  match category with
  | Some c => update_category backend categoryData (Category.id c)
  | None => insert_category backend categoryData
  end.

(** A platform that rejects every insert as a uniqueness violation. *)
Definition rejecting_backend : Backend :=
  {| update_category := fun _ _ => Success tt;
     insert_category := fun _ =>
       Failure {| message := Some "duplicate key value violates unique constraint";
                  code := Some "23505" |} |}.

(** A platform that refuses every save with the error [e]. *)
Definition failing_backend (e : JsError) : Backend :=
  {| update_category := fun _ _ => Failure e;
     insert_category := fun _ => Failure e |}.

Definition books : FormData :=
  {| name := "Books"; description := ""; slug := "books"; image_url := "" |}.

Definition idle : World :=
  {| loading := false; error := ""; saved := 0; now := "2025-07-05T10:42:31.000Z" |}.

End CategoryFormProps.

(** ** The login view *)

Module LoginPageProps.
Import Supabase Eff LoginPage.

(** The message text of [e] contains [needle]. *)
Definition message_contains (e : JsError) (needle : string) : Prop :=
  exists m, message e = Some m /\ JSProps.occurs_in needle m.

(** An authentication service that refuses every sign-in with [e]. *)
Definition refusing_signIn (e : JsError) (_ _ : string) : outcome unit :=
  Thrown e.

Definition login_attempt : World :=
  {| email := "ada@example.org"; password := "secret"; loading := false;
     error := ""; navigated := []; console := [] |}.

End LoginPageProps.

(** ** The products table *)

Module SchemaProps.
Import Schema.
Local Open Scope Z_scope.

(** A product row with the price -5.00. *)
Definition negative_price_row : Row :=
  [ UuidV "3f2c9a4e-8d1b-4c57-9e60-1a2b3c4d5e6f";
    TextV "Store credit";
    Null;
    DecimalV (-500);
    Null;
    Null;
    Null;
    JsonV "[]";
    IntegerV 0;
    Null;
    BooleanV true;
    TimestampV "2025-07-05 10:42:31+00";
    TimestampV "2025-07-05 10:42:31+00" ].

(** A product row with the price [v]. *)
Definition row_with_price (v : SqlValue) : Row :=
  [ UuidV "9b7e5d3c-1a2f-4e68-8c0d-7f6e5d4c3b2a";
    TextV "Price on request";
    Null;
    v;
    Null;
    Null;
    Null;
    JsonV "[]";
    IntegerV 0;
    Null;
    BooleanV true;
    TimestampV "2025-07-05 10:42:31+00";
    TimestampV "2025-07-05 10:42:31+00" ].

(** The prices of the type [decimal(10,2)]. *)
Definition decimal_10_2 (v : SqlValue) : Prop :=
  v = DecimalNaN \/ exists u, v = DecimalV u /\ - 10 ^ 10 < u < 10 ^ 10.

End SchemaProps.

(** ** The JSON library *)

Module JSONProps.
Import JSON.

(** Nodes of a value; a bound on the fuel reading it takes. *)
Fixpoint size (j : json) : nat :=
  match j with
  | JArr l => S (list_sum (map (fun x => S (size x)) l))
  | JObj m => S (list_sum (map (fun kv => S (size (snd kv))) m))
  | _ => 1
  end.

Section JsonInduction.

Variable P : json -> Prop.
Hypothesis HNull : P JNull.
Hypothesis HBool : forall b, P (JBool b).
Hypothesis HNum : forall n, P (JNum n).
Hypothesis HStr : forall s, P (JStr s).
Hypothesis HArr : forall l, Forall P l -> P (JArr l).
Hypothesis HObj : forall m, Forall (fun kv => P (snd kv)) m -> P (JObj m).

Fixpoint json_induction (j : json) : P j :=
  match j with
  | JNull => HNull
  | JBool b => HBool b
  | JNum n => HNum n
  | JStr s => HStr s
  | JArr l =>
      HArr l ((fix all (l : list json) : Forall P l :=
                 match l with
                 | [] => Forall_nil _
                 | x :: xs => Forall_cons x (json_induction x) (all xs)
                 end) l)
  | JObj m =>
      HObj m ((fix all (m : list (string * json)) : Forall (fun kv => P (snd kv)) m :=
                 match m with
                 | [] => Forall_nil _
                 | kv :: kvs => Forall_cons kv (json_induction (snd kv)) (all kvs)
                 end) m)
  end.

End JsonInduction.

(** A character that can follow a number. *)
Definition not_digit_first (s : string) : Prop :=
  match s with
  | EmptyString => True
  | String c _ => digit_value c = None
  end.

(** What the text of a value starts with: no white space, and none of
    the two closing brackets. *)
Definition starts_value (s : string) : Prop :=
  exists c r, s = String c r /\ is_ws c = false /\
              N_of_ascii c <> 93%N /\ N_of_ascii c <> 125%N.

Definition members_size (m : list (string * json)) : nat :=
  list_sum (map (fun kv => S (size (snd kv))) m).

Definition elements_size (l : list json) : nat :=
  list_sum (map (fun x => S (size x)) l).

Definition emit_member (kv : string * json) (r : string) : string :=
  emit_string (fst kv) (String ":" (emit (snd kv) r)).

End JSONProps.

(** ** The cart store *)

Module CartStoreProps.
Import Supabase Eff JSON CartStore.
Local Open Scope Z_scope.

(** The line item a call [addItem(p, q)] appends. *)
Definition line (c : Product.t * Z) : CartItem :=
  {| product := fst c; quantity := snd c |}.

(** A sequence of [addItem] calls, in order. *)
Definition add_all (calls : list (Product.t * Z)) (s : Store) : Store :=
  fold_left (fun s c => addItem (fst c) (snd c) s) calls s.

Definition sum (l : list Z) : Z := fold_right Z.add 0 l.

(** The quantity held for a product id. *)
Definition quantity_of (pid : string) (l : list CartItem) : option Z :=
  option_map quantity (find (has_id pid) l).

Definition empty_store (st : Storage) : Store :=
  {| items := []; localStorage := st |}.

Definition snapshot (id name : string) (price : Z) : Product.t :=
  {| Product.id := id; Product.name := name; Product.description := None;
     Product.price := price; Product.compare_at_price := None;
     Product.category_id := None; Product.image_url := None;
     Product.images := None; Product.inventory_count := 10;
     Product.sku := None; Product.is_active := true;
     Product.created_at := "2025-07-05T10:42:31Z";
     Product.updated_at := "2025-07-05T10:42:31Z";
     Product.categories := None |}.

(** Product A at 10.00 and product B at 5.00. *)
Definition ProductA : Product.t := snapshot "a" "Product A" 1000.
Definition ProductB : Product.t := snapshot "b" "Product B" 500.

End CartStoreProps.

(** ** The checkout page *)

Module CheckoutPageProps.
Import Supabase Eff CartStore CheckoutPage.

Section Submission.

Variable backend : Backend.
Variable user : option User.t.
Variable formData : FormData.
Variable w : World.

(** The order row of this submission. *)
Definition order_request (u : User.t) : OrderInsert :=
  order_row u formData (getTotalPrice (cart w)).

(** Both inserts of this submission succeed. *)
Definition both_succeed : Prop :=
  exists u order,
    user = Some u /\
    insert_order backend (order_request u) = Success order /\
    insert_order_items backend (orderItems order (items (cart w))) = Success tt.

(** One of the two external calls of this submission fails with [e]. *)
Definition fails_with (e : JsError) : Prop :=
  exists u,
    user = Some u /\
    (insert_order backend (order_request u) = Failure e \/
     exists order,
       insert_order backend (order_request u) = Success order /\
       insert_order_items backend (orderItems order (items (cart w))) = Failure e).

End Submission.

(** A signed-in customer with product A once and product B three times
    in the cart. *)
Definition customer : User.t := {| User.id := "7b1d6c0a-52f4-4f0e-9a3c-5d8e2f1a4b6c" |}.

Definition checkout_form : FormData :=
  {| fullName := "Ada Lovelace"; email := "ada@example.org"; phone := "";
     addressLine1 := "12 St James Square"; addressLine2 := "";
     city := "London"; state := "LDN"; postalCode := "SW1Y 4JH";
     country := "GB"; notes := "" |}.

Definition checkout_world : World :=
  {| cart := CartStoreProps.add_all
               [(CartStoreProps.ProductA, 1%Z); (CartStoreProps.ProductB, 3%Z)]
               (CartStoreProps.empty_store (fun _ => None));
     loading := false;
     error := "";
     trace := [] |}.

Definition placed_order (row : OrderInsert) : Order.t :=
  {| Order.id := "0c9e8d7f-1a2b-4c3d-8e4f-5a6b7c8d9e0f";
     Order.user_id := user_id row;
     Order.order_number := "ORD-20250705-000001";
     Order.status := status row;
     Order.total_amount := total_amount row;
     Order.notes := Some (order_notes row);
     Order.created_at := "2025-07-05T10:42:31Z";
     Order.updated_at := "2025-07-05T10:42:31Z" |}.

Definition policy_violation : JsError :=
  {| message := Some "new row violates row-level security policy";
     code := Some "42501" |}.

(** The platform accepts the order and then refuses its items. *)
Definition items_refused : Backend :=
  {| insert_order := fun row => Success (placed_order row);
     insert_order_items := fun _ => Failure policy_violation |}.

(** The platform accepts both inserts. *)
Definition accepting : Backend :=
  {| insert_order := fun row => Success (placed_order row);
     insert_order_items := fun _ => Success tt |}.

End CheckoutPageProps.

(** ** The address form *)

Module AddressFormProps.
Import Supabase Eff AddressForm.

(** Ids and default flags of a table, in order. *)
Definition flags (table : list Address.t) : list (string * bool) :=
  map (fun row => (Address.id row, Address.is_default row)) table.

(** The two requests of a save of an existing address as the default. *)
Definition write_request (u : User.t) (a : Address.t) (formData : FormData)
    (w : World) : Request :=
  update (addressData u formData (now w)) [eq_id (Address.id a)].

Definition clear_request (u : User.t) (a : Address.t) : Request :=
  update_is_default false [eq_user_id (User.id u); neq_id (Address.id a)].

Definition alice : User.t := {| User.id := "7b1d6c0a-52f4-4f0e-9a3c-5d8e2f1a4b6c" |}.

Definition address_of_alice (id line : string) (default : bool) : Address.t :=
  {| Address.id := id;
     Address.user_id := User.id alice;
     Address.full_name := "Alice Martin";
     Address.address_line_1 := line;
     Address.address_line_2 := None;
     Address.city := "Lyon";
     Address.state := "ARA";
     Address.postal_code := "69001";
     Address.country := "FR";
     Address.phone := None;
     Address.is_default := default;
     Address.created_at := "2025-07-05T10:42:31Z";
     Address.updated_at := "2025-07-05T10:42:31Z" |}.

Definition home_id : string := "11111111-1111-4111-8111-111111111111".
Definition work_id : string := "22222222-2222-4222-8222-222222222222".
Definition new_id : string := "33333333-3333-4333-8333-333333333333".

Definition home : Address.t := address_of_alice home_id "3 rue de la Paix" true.
Definition work : Address.t := address_of_alice work_id "8 quai Perrache" false.

Definition form_for (line : string) (default : bool) : FormData :=
  {| full_name := "Alice Martin"; address_line_1 := line; address_line_2 := "";
     city := "Lyon"; state := "ARA"; postal_code := "69001"; country := "FR";
     phone := ""; is_default := default |}.

(** A platform that refuses nothing of its own accord. *)
Definition platform (rejects : bool) : Backend :=
  {| refuses := fun _ => None;
     gen_random_uuid := new_id;
     created_now := "2025-07-06T08:00:00Z";
     rejects_empty_uuid := rejects |}.

Definition world_with (table : list Address.t) : World :=
  {| addresses := table; loading := false; error := ""; saved := 0;
     now := "2025-07-06T08:00:00.000Z"; history := [] |}.

End AddressFormProps.

(** ** Order numbers *)

Module OrderNumberProps.
Import OrderNumber.

(** The order numbers the trigger gives to successive inserts that bring
    none, the i-th of them on the day [days_i], from the state [seq] of
    the sequence on. *)
Fixpoint assigned (days : list string) (seq : N) : list string :=
  match days with
  | [] => []
  | today :: rest =>
      match set_order_number today None seq with
      | Some (Some number, seq') => number :: assigned rest seq'
      | _ => []
      end
  end.

(** The decimal number an order number ends with. *)
Definition trailing_number (order_number : string) : N :=
  fst (JSON.parse_digits 0
         (String.substring (String.length order_number - 6) 6 order_number)).

End OrderNumberProps.

(** ** The images and the quantity of a product *)

Module ProductDetailPageProps.
Import ProductDetailPage.

(** The carousel after a sequence of events, from its initial state. *)
Definition carousel_after (images : list string) (events : list CarouselEvent)
    : Carousel :=
  fold_left (fun c e => carousel_event images e c) events carousel_initial.

(** The quantity after a sequence of clicks, from [useState(1)]. *)
Definition quantity_after (inventory_count : Z) (clicks : list QuantityClick) : Z :=
  fold_left (fun q c => quantity_click inventory_count c q) clicks 1%Z.

(** A [trim] to run the image functions with: it strips the blanks of
    the ASCII range from both ends. *)
Definition is_blank_char (c : ascii) : bool :=
  let n := N_of_ascii c in
  ((n =? 32) || ((9 <=? n) && (n <=? 13)))%N.

Fixpoint trim_start (s : list ascii) : list ascii :=
  match s with
  | c :: r => if is_blank_char c then trim_start r else s
  | [] => []
  end.

Definition ascii_trim (s : string) : string :=
  string_of_list_ascii
    (rev (trim_start (rev (trim_start (list_ascii_of_string s))))).

Definition product_with_images (image_url : option string)
    (images : option (list string)) : Product.t :=
  {| Product.id := "p1"; Product.name := "Lamp"; Product.description := None;
     Product.price := 1999%Z; Product.compare_at_price := None;
     Product.category_id := None; Product.image_url := image_url;
     Product.images := images; Product.inventory_count := 3%Z;
     Product.sku := None; Product.is_active := true;
     Product.created_at := "2025-07-05T10:42:31Z";
     Product.updated_at := "2025-07-05T10:42:31Z";
     Product.categories := None |}.

End ProductDetailPageProps.

(** ** Row-level policies *)

Module PoliciesProps.
Import Policies.

Definition with_role (r : string) (p : Profile.t) : Profile.t :=
  {| Profile.id := Profile.id p;
     Profile.email := Profile.email p;
     Profile.full_name := Profile.full_name p;
     Profile.avatar_url := Profile.avatar_url p;
     Profile.role := Some r;
     Profile.created_at := Profile.created_at p;
     Profile.updated_at := Profile.updated_at p |}.

(** [UPDATE profiles SET role = r WHERE id = v] sent in the session [s]:
    the table after it, when the updated rows are accepted. *)
Definition update_role (s : Session) (db : Database) (v r : string)
    : option Database :=
  let target p :=
    String.eqb (Profile.id p) v && update_target profiles_security s db true p in
  if forallb
       (fun p => negb (target p) ||
                 update_check profiles_security s db true (with_role r p))
       (profiles db)
  then Some {| profiles := map (fun p => if target p then with_role r p else p)
                             (profiles db);
               orders := orders db |}
  else None.

Definition customer_profile (id : string) : Profile.t :=
  {| Profile.id := id;
     Profile.email := "ada@example.org";
     Profile.full_name := Some "Ada";
     Profile.avatar_url := None;
     Profile.role := Some "customer";
     Profile.created_at := "2025-07-05T10:42:31Z";
     Profile.updated_at := "2025-07-05T10:42:31Z" |}.

Definition sample_category : Category.t :=
  {| Category.id := "c1";
     Category.name := "Garden";
     Category.description := None;
     Category.slug := "garden";
     Category.image_url := None;
     Category.created_at := "2025-07-05T10:42:31Z";
     Category.updated_at := "2025-07-05T10:42:31Z" |}.

Definition sample_order (id user_id : string) : Order.t :=
  {| Order.id := id;
     Order.user_id := user_id;
     Order.order_number := "ORD-20250705-000001";
     Order.status := "pending";
     Order.total_amount := 1999%Z;
     Order.notes := None;
     Order.created_at := "2025-07-05T10:42:31Z";
     Order.updated_at := "2025-07-05T10:42:31Z" |}.

End PoliciesProps.

(** ** The pages of the administrator *)

Module AdminProps.
Import Supabase Eff Policies.

(** The answer of the platform to a [select] on a table with the rows
    [rows]: the rows the policies let the session read. *)
Definition select_rows {Row} (sec : Security Row) (s : Session) (db : Database)
    (rows : list Row) : Response (list Row) :=
  Success (filter (select_visible sec s db) rows).

(** [.eq('role', 'customer')]. *)
Definition is_customer (p : Profile.t) : bool :=
  match Profile.role p with
  | Some r => String.eqb r "customer"
  | None => false
  end.

Definition select_customers (s : Session) (db : Database) : Response (list Profile.t) :=
  Success (filter is_customer
             (filter (select_visible profiles_security s db) (profiles db))).

(** [order.status] of a row whose column [status] holds [v]. *)
Definition status_of (v : Schema.SqlValue) : option string :=
  match v with
  | Schema.TextV t => Some t
  | _ => None
  end.

(** Newest first. *)
Fixpoint descending {A} (time : A -> Z) (l : list A) : Prop :=
  match l with
  | x :: ((y :: _) as rest) => (time y <= time x)%Z /\ descending time rest
  | _ => True
  end.

(** The comparison function of the recent activity. *)
Definition newest_first {A} (time : A -> Z) (a b : A) : Z := (time b - time a)%Z.


(** The statuses with a colour of their own. *)
Definition statuses : list string :=
  ["pending"; "processing"; "shipped"; "delivered"; "cancelled"].


Definition order_at (id created_at : string) (total : Z) : Order.t :=
  {| Order.id := id;
     Order.user_id := "u2";
     Order.order_number := id;
     Order.status := "pending";
     Order.total_amount := total;
     Order.notes := None;
     Order.created_at := created_at;
     Order.updated_at := created_at |}.

(** A clock for the sample orders: the day of the month. *)
Definition day_of (created_at : string) : Z :=
  Z.of_N (fst (JSON.parse_digits 0 (String.substring 8 2 created_at))).

End AdminProps.

(** ** Saving an address *)

Module AddressSaveProps.
Import Supabase Eff AddressForm.

(** The first request of a save. *)
Definition first_request (u : User.t) (address : option Address.t)
    (formData : FormData) (w : World) : Request :=
  match address with
  | Some a => update (addressData u formData (now w)) [eq_id (Address.id a)]
  | None => insert (addressData u formData (now w))
  end.

(** The second request of a save as the default. *)
Definition second_request (u : User.t) (address : option Address.t) : Request :=
  update_is_default false
    [eq_user_id (User.id u);
     neq_id (JS.or_else (option_map Address.id address) "")].

(** [a] with another time of update. *)
Definition touch (now : string) (a : Address.t) : Address.t :=
  {| Address.id := Address.id a;
     Address.user_id := Address.user_id a;
     Address.full_name := Address.full_name a;
     Address.address_line_1 := Address.address_line_1 a;
     Address.address_line_2 := Address.address_line_2 a;
     Address.city := Address.city a;
     Address.state := Address.state a;
     Address.postal_code := Address.postal_code a;
     Address.country := Address.country a;
     Address.phone := Address.phone a;
     Address.is_default := Address.is_default a;
     Address.created_at := Address.created_at a;
     Address.updated_at := now |}.

(** A platform that refuses the requests [refused] holds of. *)
Definition refusing (refused : Request -> bool) (e : JsError) : Backend :=
  {| refuses := fun r => if refused r then Some e else None;
     gen_random_uuid := AddressFormProps.new_id;
     created_now := "2025-07-06T08:00:00Z";
     rejects_empty_uuid := false |}.

Definition is_clearing (r : Request) : bool :=
  match r with
  | update_is_default _ _ => true
  | _ => false
  end.

Definition network_error : JsError :=
  {| message := Some "TypeError: Failed to fetch"; code := None |}.

Definition bob : User.t := {| User.id := "0c9f5e1d-7a43-4b52-8e6f-3d2a1b0c9e8f" |}.

End AddressSaveProps.

(** ** The forms of the administrator *)

Module AdminFormsProps.

(** What happens to the images of the product form. *)
Inductive ImagesEvent : Type :=
| TypeImageUrl (value : string)
| TypeNewImageUrl (value : string)
| AddImage
| RemoveImage (index : nat).

Definition images_event (trim : string -> string) (e : ImagesEvent)
    (st : ProductForm.Images) : ProductForm.Images :=
  match e with
  | TypeImageUrl value =>
      {| ProductForm.image_url := value;
         ProductForm.additionalImages := ProductForm.additionalImages st;
         ProductForm.newImageUrl := ProductForm.newImageUrl st |}
  | TypeNewImageUrl value =>
      {| ProductForm.image_url := ProductForm.image_url st;
         ProductForm.additionalImages := ProductForm.additionalImages st;
         ProductForm.newImageUrl := value |}
  | AddImage => ProductForm.addImage trim st
  | RemoveImage index => ProductForm.removeImage index st
  end.

Definition images_after (trim : string -> string) (events : list ImagesEvent)
    (st : ProductForm.Images) : ProductForm.Images :=
  fold_left (fun st e => images_event trim e st) events st.

(** No image twice, and none without an address. *)
Definition tidy (l : list string) : Prop :=
  NoDup l /\ Forall (fun img => img <> "") l.

(** The category form after a sequence of changes of its fields, each a
    field name with the value typed. *)
Definition fields_after (generateSlug : string -> string)
    (category : option Category.t) (changes : list (string * string))
    (formData : CategoryForm.FormData) : CategoryForm.FormData :=
  fold_left
    (fun prev change =>
       CategoryFormFields.handleInputChange generateSlug category
         (fst change) (snd change) prev)
    changes formData.

(** A slug function on the texts of the samples: lower case letters
    and digits are kept, capital letters are lowered, and every other
    character is dropped. *)
Fixpoint sample_slug (s : string) : string :=
  match s with
  | EmptyString => EmptyString
  | String c rest =>
      let n := N_of_ascii c in
      if ((97 <=? n) && (n <=? 122) || (48 <=? n) && (n <=? 57))%N
      then String c (sample_slug rest)
      else if ((65 <=? n) && (n <=? 90))%N
      then String (ascii_of_N (n + 32)) (sample_slug rest)
      else sample_slug rest
  end.

End AdminFormsProps.

(* ===================================================================== *)
(** * Part III.  Properties                                              *)
(* ===================================================================== *)

Module SlugFacts.
Import Slug.
Import SlugProps.

Lemma is_hyphen_true c : is_hyphen c = true <-> c = hyphen.
Proof. unfold is_hyphen. apply N.eqb_eq. Qed.

Lemma is_hyphen_false c : is_hyphen c = false <-> c <> hyphen.
Proof. unfold is_hyphen. apply N.eqb_neq. Qed.

Lemma lower_alnum_slug_char c : is_lower_alnum c = true -> slug_char c.
Proof.
  unfold is_lower_alnum, slug_char. intros H.
  apply orb_true_iff in H. destruct H as [H | H];
    apply andb_true_iff in H; destruct H as [H1 H2];
    apply N.leb_le in H1; apply N.leb_le in H2; [left | right; left]; lia.
Qed.

Lemma lower_alnum_not_hyphen c : is_lower_alnum c = true -> c <> hyphen.
Proof. intros H ->. discriminate H. Qed.

Lemma slug_char_cases c :
  slug_char c -> is_lower_alnum c = true \/ (is_lower_alnum c = false /\ c = hyphen).
Proof.
  unfold slug_char, is_lower_alnum. intros [H | [H | H]].
  - left. apply orb_true_iff. left. apply andb_true_iff. split; apply N.leb_le; lia.
  - left. apply orb_true_iff. right. apply andb_true_iff. split; apply N.leb_le; lia.
  - right. subst c. split; reflexivity.
Qed.

Lemma no_adj_tail c s : no_adj (c :: s) -> no_adj s.
Proof. destruct s; simpl; tauto. Qed.

Lemma no_adj_adjacent s : no_adj s -> no_adjacent_hyphens s.
Proof.
  unfold no_adjacent_hyphens. intros H a. revert s H.
  induction a as [| x a IH]; intros s H b E; subst s.
  - simpl in H. tauto.
  - apply (IH (a ++ hyphen :: hyphen :: b)) with (b := b); [| reflexivity].
    exact (no_adj_tail _ _ H).
Qed.

(** *** The first replacement *)

Lemma replace_runs_shape b s :
  let r := replace_non_alnum_runs b s in
  Forall slug_char r /\ no_adj r /\ (b = true -> head_not_hyphen r).
Proof.
  revert b. induction s as [| c rest IH]; intros b; simpl.
  - repeat split; auto. intros _ t E. discriminate E.
  - destruct (is_lower_alnum c) eqn:Ec.
    + destruct (IH false) as (F & A & _).
      repeat split.
      * constructor; [apply lower_alnum_slug_char; exact Ec | exact F].
      * destruct (replace_non_alnum_runs false rest) eqn:Er; simpl; auto.
        split; [| exact A]. intros [Hc _].
        exact (lower_alnum_not_hyphen _ Ec Hc).
      * intros _ t E. injection E as E _.
        exact (lower_alnum_not_hyphen _ Ec E).
    + destruct b.
      * exact (IH true).
      * destruct (IH true) as (F & A & Hd). specialize (Hd eq_refl).
        repeat split.
        -- constructor; [right; right; reflexivity | exact F].
        -- destruct (replace_non_alnum_runs true rest) eqn:Er; simpl; auto.
           split; [| exact A]. intros [_ Hn]. subst n.
           exact (Hd _ eq_refl).
        -- intros H. discriminate H.
Qed.

(** *** The second replacement *)

Lemma replace_edge_keep c rest :
  c <> hyphen ->
  replace_edge_hyphens false (c :: rest) = c :: replace_edge_hyphens false rest.
Proof.
  intros Hc. simpl. apply is_hyphen_false in Hc. rewrite Hc. reflexivity.
Qed.

Lemma replace_edge_nil s :
  replace_edge_hyphens false s = [] -> s = [] \/ s = [hyphen].
Proof.
  destruct s as [| c rest]; [auto |]. simpl.
  destruct (is_hyphen c) eqn:Ec; simpl.
  - destruct rest; [| discriminate].
    intros _. right. apply is_hyphen_true in Ec. subst c. reflexivity.
  - discriminate.
Qed.

Lemma replace_edge_shape b s :
  Forall slug_char s -> no_adj s ->
  let r := replace_edge_hyphens b s in
  Forall slug_char r /\ no_adj r /\ last_not_hyphen r /\
  (b = true -> head_not_hyphen r).
Proof.
  revert b. induction s as [| c rest IH]; intros b F A.
  - simpl. repeat split; auto.
    + intros front E. destruct front; discriminate E.
    + intros _ t E. discriminate E.
  - assert (Fr : Forall slug_char rest) by (inversion F; assumption).
    assert (Ar : no_adj rest) by exact (no_adj_tail _ _ A).
    destruct (IH false Fr Ar) as (F' & A' & L' & _).
    cbn [replace_edge_hyphens].
    destruct (is_hyphen c && (b || match rest with [] => true | _ => false end)) eqn:Ed.
    + repeat split; auto.
      intros Hb t E.
      (* the dropped hyphen was the first character; the next one is kept *)
      apply andb_true_iff in Ed. destruct Ed as [Ec _].
      apply is_hyphen_true in Ec. subst c.
      destruct rest as [| d rest']; [discriminate E |].
      assert (Hd : d <> hyphen) by (simpl in A; intros ->; tauto).
      rewrite (replace_edge_keep _ _ Hd) in E. injection E as E _. exact (Hd E).
    + repeat split.
      * constructor; [inversion F; assumption | exact F'].
      * destruct (replace_edge_hyphens false rest) as [| d r'] eqn:Er; simpl; auto.
        split; [| exact A']. intros [Hc Hd]. subst c d.
        destruct rest as [| e rest']; [discriminate Er |].
        assert (He : e <> hyphen) by (simpl in A; intros ->; tauto).
        rewrite (replace_edge_keep _ _ He) in Er. injection Er as Er _.
        exact (He Er).
      * intros front E. destruct front as [| x front].
        -- simpl in E. injection E as Ec Er. subst c.
           apply replace_edge_nil in Er. destruct Er as [-> | ->].
           ++ simpl in Ed. rewrite orb_true_r in Ed. discriminate Ed.
           ++ simpl in A. tauto.
        -- simpl in E. injection E as _ Er. exact (L' _ Er).
      * intros Hb t E. injection E as Ec _. subst c b. discriminate Ed.
Qed.

(** *** Slugs are fixed by both replacements *)

Lemma replace_runs_fix b s :
  Forall slug_char s -> no_adj s -> (b = true -> head_not_hyphen s) ->
  replace_non_alnum_runs b s = s.
Proof.
  revert b. induction s as [| c rest IH]; intros b F A Hd; [reflexivity |].
  assert (Fr : Forall slug_char rest) by (inversion F; assumption).
  assert (Ar : no_adj rest) by exact (no_adj_tail _ _ A).
  assert (Hc : slug_char c) by (inversion F; assumption).
  simpl. destruct (slug_char_cases c Hc) as [Ec | [Ec ->]]; rewrite Ec.
  - f_equal. apply IH; auto. intros H; discriminate H.
  - destruct b.
    + exfalso. exact (Hd eq_refl _ eq_refl).
    + f_equal. apply IH; auto.
      intros _ t E. subst rest. simpl in A. tauto.
Qed.

Lemma replace_edge_fix b s :
  last_not_hyphen s -> (b = true -> head_not_hyphen s) ->
  replace_edge_hyphens b s = s.
Proof.
  revert b. induction s as [| c rest IH]; intros b L Hd; [reflexivity |].
  cbn [replace_edge_hyphens].
  destruct (is_hyphen c && (b || match rest with [] => true | _ => false end)) eqn:Ed.
  - exfalso. apply andb_true_iff in Ed. destruct Ed as [Ec Ed].
    apply is_hyphen_true in Ec. subst c.
    apply orb_true_iff in Ed. destruct Ed as [-> | Ed].
    + exact (Hd eq_refl _ eq_refl).
    + destruct rest; [| discriminate Ed]. exact (L [] eq_refl).
  - f_equal. apply IH.
    + intros front E. apply (L (c :: front)). simpl. f_equal. exact E.
    + intros H; discriminate H.
Qed.

Lemma ascii_lower_fixes_slugs t : Forall slug_char t -> ascii_lower t = t.
Proof.
  induction 1 as [| c t Hc _ IH]; [reflexivity |].
  unfold ascii_lower in *. simpl. rewrite IH. f_equal.
  unfold ascii_lower_unit.
  destruct ((65 <=? c) && (c <=? 90))%N eqn:E; [| reflexivity].
  apply andb_true_iff in E. destruct E as [E1 E2].
  apply N.leb_le in E1. apply N.leb_le in E2.
  unfold slug_char, hyphen in Hc. lia.
Qed.

(** C10.  Whatever the host's [toLowerCase] does, [generateSlug] returns
    a string made only of lowercase ASCII letters, digits and hyphens
    (the empty string included), which neither starts nor ends with a
    hyphen and has no two hyphens in a row.  When [toLowerCase] leaves
    strings over that alphabet as they are, [generateSlug] is
    idempotent. *)
Theorem generateSlug_shape_idempotent :
  forall (toLowerCase : JS.ustring -> JS.ustring) (s : JS.ustring),
    let slug := generateSlug toLowerCase s in
    Forall slug_char slug /\
    head_not_hyphen slug /\
    last_not_hyphen slug /\
    no_adjacent_hyphens slug /\
    ((forall t, Forall slug_char t -> toLowerCase t = t) ->
     generateSlug toLowerCase slug = slug).
Proof.
  intros toLowerCase s slug.
  destruct (replace_runs_shape false (toLowerCase s)) as (F1 & A1 & _).
  destruct (replace_edge_shape true _ F1 A1) as (F & A & L & Hd).
  specialize (Hd eq_refl). fold (generateSlug toLowerCase s) in F, A, L, Hd.
  fold slug in F, A, L, Hd.
  repeat split; auto.
  - intros a b. exact (no_adj_adjacent slug A a b).
  - intros Hfix. unfold generateSlug at 1.
    rewrite (Hfix slug F).
    rewrite (replace_runs_fix false slug F A) by (intros H; discriminate H).
    apply replace_edge_fix; auto.
Qed.

Lemma generateSlug_shape_idempotent_witness :
  generateSlug ascii_lower (JS.of_string "  Home & Garden -- SALE! ")
    = JS.of_string "home-garden-sale" /\
  generateSlug ascii_lower (JS.of_string "home-garden-sale")
    = JS.of_string "home-garden-sale".
Proof.
  split; [reflexivity |].
  pose proof (generateSlug_shape_idempotent ascii_lower
                (JS.of_string "  Home & Garden -- SALE! ")) as H.
  cbv zeta in H. destruct H as (_ & _ & _ & _ & H).
  exact (H ascii_lower_fixes_slugs).
Defined.

End SlugFacts.

(** ** Substring search *)

Module JSFacts.
Import JS.
Import JSProps.

Lemma prefix_spec needle hay :
  String.prefix needle hay = true <-> exists b, hay = (needle ++ b)%string.
Proof.
  revert hay. induction needle as [| c needle IH]; intros hay.
  - split; [intros _; exists hay; reflexivity | intros _; destruct hay; reflexivity].
  - destruct hay as [| d hay]; simpl.
    + split; [discriminate | intros [b E]; discriminate E].
    + destruct (Ascii.ascii_dec c d) as [-> | N].
      * rewrite IH. split; intros [b E]; exists b.
        -- rewrite E. reflexivity.
        -- injection E as E. exact E.
      * split; [discriminate | intros [b E]; injection E as E1 _; congruence].
Qed.

Lemma includes_spec needle hay :
  includes needle hay = true <-> occurs_in needle hay.
Proof.
  unfold occurs_in. induction hay as [| d hay IH].
  - cbn [includes]. rewrite orb_false_r, prefix_spec. split.
    + intros [b E]. exists "", b. exact E.
    + intros [a [b E]]. destruct a; [exists b; exact E | discriminate E].
  - cbn [includes]. rewrite orb_true_iff, prefix_spec, IH. split.
    + intros [[b E] | [a [b E]]].
      * exists "", b. exact E.
      * exists (String d a), b. simpl. rewrite E. reflexivity.
    + intros [a [b E]]. destruct a as [| x a].
      * left. exists b. exact E.
      * right. simpl in E. injection E as _ E. exists a, b. exact E.
Qed.

Lemma or_else_nonempty a b : b <> "" -> or_else a b <> "".
Proof.
  intros Hb. unfold or_else. destruct a as [s |]; [| exact Hb].
  destruct (String.eqb s "") eqn:E; [exact Hb |].
  apply String.eqb_neq in E. exact E.
Qed.

(** [a || b] is [a] when [a] is a text that is not empty, and [b] when
    [a] is missing or empty. *)
Lemma or_else_cases a b :
  (forall m, a = Some m -> m <> "" -> JS.or_else a b = m) /\
  (a = None \/ a = Some "" -> JS.or_else a b = b).
Proof.
  split.
  - intros m -> Hm. unfold JS.or_else.
    apply String.eqb_neq in Hm. rewrite Hm. reflexivity.
  - intros [-> | ->]; reflexivity.
Qed.

End JSFacts.

(** ** The category form *)

Module CategoryFormFacts.
Import Supabase Eff CategoryForm.
Import CategoryFormProps.

Lemma code_eqb_spec (e : JsError) :
  match code e with Some c => String.eqb c "23505" | None => false end = true
  <-> code e = Some "23505".
Proof.
  destruct (code e) as [c |].
  - rewrite String.eqb_eq. split; [intros ->; reflexivity | intros H; injection H as ->; reflexivity].
  - split; discriminate.
Qed.

(** C8.  When the save request of the category form fails with error
    [e], the handler returns normally without calling [onSave], and the
    text it displays is chosen by the error code.  When the code is
    '23505' it is 'A category with this slug already exists. Please
    choose a different name.'.  For every other error it is the error's
    own message when it has one that is not empty, and 'Failed to save
    category' when it has none.  So, for an error whose own message is
    not the duplicate-slug text itself, the duplicate-slug text is
    displayed if and only if the code is '23505'. *)
Theorem category_save_error_message :
  forall backend category formData w e,
    save_response backend category formData w = Failure e ->
    let r := handleSubmit backend category formData w in
    let duplicate :=
      "A category with this slug already exists. Please choose a different name." in
    fst r = Returned tt /\
    saved (snd r) = saved w /\
    loading (snd r) = false /\
    (code e = Some "23505" -> error (snd r) = duplicate) /\
    (code e <> Some "23505" ->
     (forall m, message e = Some m -> m <> "" -> error (snd r) = m) /\
     (message e = None \/ message e = Some "" ->
      error (snd r) = "Failed to save category")) /\
    (message e <> Some duplicate ->
     (error (snd r) = duplicate <-> code e = Some "23505")).
Proof.
  intros backend category formData w e Hresp r duplicate.
  assert (Hr : r = (Returned tt,
                    {| loading := false;
                       error := if match code e with
                                   | Some c => String.eqb c "23505"
                                   | None => false
                                   end
                                then duplicate_slug_message
                                else JS.or_else (message e) "Failed to save category";
                       saved := saved w;
                       now := now w |})).
  { subst r. unfold save_response in Hresp.
    unfold handleSubmit, try_finally, try_catch, bind, setLoading, setError,
      onSave, modify, get, throw_on_error, ret, throw.
    cbn. destruct category as [c |]; cbn in Hresp |- *; rewrite Hresp;
      destruct (match code e with Some c0 => String.eqb c0 "23505" | None => false end);
      reflexivity. }
  rewrite Hr. cbn [fst snd saved loading error].
  destruct (JSFacts.or_else_cases (message e) "Failed to save category") as [Hown Hnone].
  destruct (match code e with Some c => String.eqb c "23505" | None => false end) eqn:E.
  - apply code_eqb_spec in E.
    split; [reflexivity |]. split; [reflexivity |]. split; [reflexivity |].
    split; [intros _; reflexivity |].
    split; [intros Hc; contradiction |].
    intros _. split; [intros _; exact E | intros _; reflexivity].
  - assert (Hc : code e <> Some "23505").
    { intros Hc. apply code_eqb_spec in Hc. congruence. }
    split; [reflexivity |]. split; [reflexivity |]. split; [reflexivity |].
    split; [intros Hc'; contradiction |].
    split.
    + intros _. split.
      * intros m Hm Hne. apply Hown; assumption.
      * intros H. apply Hnone. exact H.
    + intros Hmsg. split; [| intros Hc'; contradiction].
      intros Hshown. exfalso.
      destruct (message e) as [m |] eqn:Em.
      * destruct (String.eqb m "") eqn:E0.
        -- apply String.eqb_eq in E0. subst m.
           rewrite (Hnone (or_intror eq_refl)) in Hshown. discriminate Hshown.
        -- apply String.eqb_neq in E0.
           rewrite (Hown m eq_refl E0) in Hshown. subst m.
           apply Hmsg. reflexivity.
      * rewrite (Hnone (or_introl eq_refl)) in Hshown. discriminate Hshown.
Qed.

Lemma category_save_error_message_witness :
  error (snd (handleSubmit rejecting_backend None books idle))
  = "A category with this slug already exists. Please choose a different name." /\
  error (snd (handleSubmit
                (failing_backend
                   {| message := Some "TypeError: Failed to fetch"; code := None |})
                None books idle))
  = "TypeError: Failed to fetch" /\
  error (snd (handleSubmit
                (failing_backend {| message := None; code := Some "42501" |})
                None books idle))
  = "Failed to save category".
Proof.
  split; [| split].
  - refine (proj1 (proj2 (proj2 (proj2
      (category_save_error_message rejecting_backend None books idle
         {| message := Some "duplicate key value violates unique constraint";
            code := Some "23505" |}
         eq_refl)))) eq_refl).
  - refine (proj1 (proj1 (proj2 (proj2 (proj2 (proj2
      (category_save_error_message
         (failing_backend
            {| message := Some "TypeError: Failed to fetch"; code := None |})
         None books idle
         {| message := Some "TypeError: Failed to fetch"; code := None |}
         eq_refl))))) _) _ eq_refl _); discriminate.
  - refine (proj2 (proj1 (proj2 (proj2 (proj2 (proj2
      (category_save_error_message
         (failing_backend {| message := None; code := Some "42501" |})
         None books idle
         {| message := None; code := Some "42501" |}
         eq_refl))))) _) (or_introl eq_refl)); discriminate.
Defined.

End CategoryFormFacts.

(** ** The login view *)

Module LoginPageFacts.
Import Supabase Eff LoginPage.
Import LoginPageProps.

Lemma opt_includes_spec needle e :
  JS.opt_includes needle (message e) = true <-> message_contains e needle.
Proof.
  unfold message_contains, JS.opt_includes. destruct (message e) as [m |].
  - rewrite JSFacts.includes_spec. split.
    + intros H. exists m. split; [reflexivity | exact H].
    + intros [m' [E H]]. injection E as ->. exact H.
  - split; [discriminate | intros [m [E _]]; discriminate E].
Qed.

(** C9.  When [signIn] throws [e], the login view returns normally,
    does not navigate, and chooses the displayed text by substring
    search in the message text of [e].  When it contains 'Invalid login
    credentials' the text is 'Invalid email or password. Please check
    your credentials and try again.'.  Otherwise, when it contains
    'Email not confirmed', the text is 'Please check your email and
    click the confirmation link before signing in.'.  Otherwise the
    text is the message of [e] itself when it has one that is not
    empty, and 'Failed to sign in' when it has none. *)
Theorem login_error_message :
  forall signIn from_pathname w e,
    signIn (email w) (password w) = Thrown e ->
    let r := handleSubmit signIn from_pathname w in
    fst r = Returned tt /\
    navigated (snd r) = navigated w /\
    loading (snd r) = false /\
    (message_contains e "Invalid login credentials" ->
     error (snd r)
     = "Invalid email or password. Please check your credentials and try again.") /\
    (~ message_contains e "Invalid login credentials" ->
     message_contains e "Email not confirmed" ->
     error (snd r)
     = "Please check your email and click the confirmation link before signing in.") /\
    (~ message_contains e "Invalid login credentials" ->
     ~ message_contains e "Email not confirmed" ->
     (forall m, message e = Some m -> m <> "" -> error (snd r) = m) /\
     (message e = None \/ message e = Some "" ->
      error (snd r) = "Failed to sign in")).
Proof.
  intros signIn from_pathname w e Hsign r.
  assert (Hr : r = (Returned tt,
                    {| email := email w; password := password w; loading := false;
                       error := if JS.opt_includes "Invalid login credentials" (message e)
                                then credentials_message
                                else if JS.opt_includes "Email not confirmed" (message e)
                                then confirmation_message
                                else JS.or_else (message e) "Failed to sign in";
                       navigated := navigated w;
                       console := console w ++ [(email w, password w)] |})).
  { subst r.
    unfold handleSubmit, try_finally, try_catch, bind, setLoading, setError,
      navigate, console_log, await_signIn, modify, get, ret, throw.
    cbn. rewrite Hsign.
    destruct (JS.opt_includes "Invalid login credentials" (message e));
      [reflexivity |].
    destruct (JS.opt_includes "Email not confirmed" (message e)); reflexivity. }
  rewrite Hr. cbn [fst snd email password loading error navigated console].
  destruct (JSFacts.or_else_cases (message e) "Failed to sign in") as [Hown Hnone].
  split; [reflexivity |]. split; [reflexivity |]. split; [reflexivity |].
  split; [| split].
  - intros H. apply opt_includes_spec in H. rewrite H. reflexivity.
  - intros H1 H2. apply opt_includes_spec in H2. rewrite H2.
    destruct (JS.opt_includes "Invalid login credentials" (message e)) eqn:E;
      [apply opt_includes_spec in E; contradiction | reflexivity].
  - intros H1 H2.
    destruct (JS.opt_includes "Invalid login credentials" (message e)) eqn:E1;
      [apply opt_includes_spec in E1; contradiction |].
    destruct (JS.opt_includes "Email not confirmed" (message e)) eqn:E2;
      [apply opt_includes_spec in E2; contradiction |].
    split; [exact Hown | exact Hnone].
Qed.

Lemma does_not_contain e needle :
  JS.opt_includes needle (message e) = false -> ~ message_contains e needle.
Proof.
  intros H Hc. apply opt_includes_spec in Hc. congruence.
Qed.

Lemma login_error_message_witness :
  let shown e :=
    error (snd (handleSubmit (refusing_signIn e) None login_attempt)) in
  shown {| message := Some "AuthApiError: Invalid login credentials"; code := None |}
  = "Invalid email or password. Please check your credentials and try again." /\
  shown {| message := Some "AuthApiError: Email not confirmed"; code := None |}
  = "Please check your email and click the confirmation link before signing in." /\
  shown {| message := Some "TypeError: Failed to fetch"; code := None |}
  = "TypeError: Failed to fetch" /\
  shown {| message := None; code := None |} = "Failed to sign in".
Proof.
  cbv zeta. split; [| split; [| split]].
  - refine (proj1 (proj2 (proj2 (proj2
      (login_error_message
         (refusing_signIn
            {| message := Some "AuthApiError: Invalid login credentials";
               code := None |})
         None login_attempt _ eq_refl)))) _).
    apply opt_includes_spec. reflexivity.
  - refine (proj1 (proj2 (proj2 (proj2 (proj2
      (login_error_message
         (refusing_signIn
            {| message := Some "AuthApiError: Email not confirmed"; code := None |})
         None login_attempt _ eq_refl))))) _ _).
    + apply does_not_contain. reflexivity.
    + apply opt_includes_spec. reflexivity.
  - refine (proj1 (proj2 (proj2 (proj2 (proj2 (proj2
      (login_error_message
         (refusing_signIn
            {| message := Some "TypeError: Failed to fetch"; code := None |})
         None login_attempt _ eq_refl))))) _ _) _ eq_refl _).
    + apply does_not_contain. reflexivity.
    + apply does_not_contain. reflexivity.
    + discriminate.
  - refine (proj2 (proj2 (proj2 (proj2 (proj2 (proj2
      (login_error_message
         (refusing_signIn {| message := None; code := None |})
         None login_attempt _ eq_refl))))) _ _) (or_introl eq_refl)).
    + apply does_not_contain. reflexivity.
    + apply does_not_contain. reflexivity.
Defined.

End LoginPageFacts.

(** ** The products table *)

Module SchemaFacts.
Import Schema.
Local Open Scope Z_scope.
Import SchemaProps.

(** C4, as stated, fails: the table accepts a row whose price is
    negative, so not every stored product has a price of at least 0. *)
Lemma products_price_nonnegative_fails :
  ~ (forall rows r u,
        table_accepted products rows = true ->
        In r rows ->
        value_of products "price" r = Some (DecimalV u) ->
        0 <= u).
Proof.
  intros H.
  specialize (H [negative_price_row] negative_price_row (-500)
                eq_refl (or_introl eq_refl) eq_refl).
  lia.
Qed.

Lemma row_accepted_price r :
  row_accepted products r = true ->
  value_of products "price" r = Some DecimalNaN \/
  exists u, value_of products "price" r = Some (DecimalV u) /\ Z.abs u < 10 ^ 10.
Proof.
  intros H.
  destruct r as [| v0 [| v1 [| v2 [| v3 r]]]];
    try (cbn in H; rewrite ?andb_false_r in H; discriminate H).
  cbn [products row_accepted] in H.
  apply andb_true_iff in H. destruct H as [_ H].
  apply andb_true_iff in H. destruct H as [_ H].
  apply andb_true_iff in H. destruct H as [_ H].
  apply andb_true_iff in H. destruct H as [Hp _].
  destruct v3 as [| | | u | | | | |]; try discriminate Hp.
  - right. exists u. split; [reflexivity |].
    cbn in Hp. rewrite andb_true_r in Hp. apply Z.ltb_lt. exact Hp.
  - left. reflexivity.
Qed.

Lemma table_accepted_rows cols rows r :
  table_accepted cols rows = true -> In r rows -> row_accepted cols r = true.
Proof.
  induction rows as [| r' rows IH]; intros H Hin; [destruct Hin |].
  simpl in H. apply andb_true_iff in H. destruct H as [H Ht].
  apply andb_true_iff in H. destruct H as [Hr _].
  destruct Hin as [-> | Hin]; [exact Hr | exact (IH Ht Hin)].
Qed.

(** C4, amended.  What the schema enforces on the price of every stored
    product is its presence and its type, and nothing more: the price of
    a stored product is not null and is a [decimal(10,2)] value, that is
    either ['NaN'] or a number of hundredths of absolute value below
    10^10; and every such value, negative ones and ['NaN'] included, is
    the price of a row the table accepts. *)
Theorem products_price_enforced :
  forall rows r,
    table_accepted products rows = true ->
    In r rows ->
    (exists v, value_of products "price" r = Some v /\ decimal_10_2 v) /\
    (forall v,
       decimal_10_2 v ->
       table_accepted products [row_with_price v] = true /\
       value_of products "price" (row_with_price v) = Some v).
Proof.
  intros rows r Ht Hin. split.
  - destruct (row_accepted_price r (table_accepted_rows _ _ _ Ht Hin))
      as [Hnan | [u [Hv Hu]]].
    + exists DecimalNaN. split; [exact Hnan | left; reflexivity].
    + exists (DecimalV u). split; [exact Hv |].
      right. exists u. split; [reflexivity | lia].
  - intros v [-> | [u [-> Hu]]]; split; try reflexivity.
    cbn. replace (Z.abs u <? 10000000000) with true; [reflexivity |].
    symmetry. apply Z.ltb_lt. lia.
Qed.

Lemma products_price_enforced_witness :
  (exists v,
     value_of products "price" negative_price_row = Some v /\ decimal_10_2 v) /\
  (forall v,
     decimal_10_2 v ->
     table_accepted products [row_with_price v] = true /\
     value_of products "price" (row_with_price v) = Some v).
Proof.
  exact (products_price_enforced [negative_price_row] negative_price_row
           eq_refl (or_introl eq_refl)).
Defined.

End SchemaFacts.

(** ** The JSON library: reading what was written *)

Module JSONFacts.
Import JSON.
Import JSONProps.

(** *** Numbers *)

Lemma digit_value_char d : (d < 10)%N -> digit_value (digit_char d) = Some d.
Proof.
  intros H. unfold digit_value, digit_char.
  rewrite N_ascii_embedding by lia.
  replace ((48 <=? 48 + d) && (48 + d <=? 57))%N with true.
  - f_equal. lia.
  - symmetry. apply andb_true_iff. split; apply N.leb_le; lia.
Qed.

Lemma digit_char_code d : (d < 10)%N -> N_of_ascii (digit_char d) = (48 + d)%N.
Proof. intros H. unfold digit_char. apply N_ascii_embedding. lia. Qed.

Lemma emit_digits_step f n rest :
  emit_digits (S f) n rest =
  if (n <? 10)%N then String (digit_char (n mod 10)) rest
  else emit_digits f (n / 10)%N (String (digit_char (n mod 10)) rest).
Proof. reflexivity. Qed.

Lemma parse_emit_digits f :
  forall n rest, (n < 2 ^ N.of_nat f)%N ->
    parse_digits 0 (emit_digits (S f) n rest) = parse_digits n rest.
Proof.
  induction f as [| f IH]; intros n rest Hn.
  - assert (n = 0%N) by (simpl in Hn; lia). subst n. reflexivity.
  - rewrite emit_digits_step. destruct (n <? 10)%N eqn:E.
    + apply N.ltb_lt in E. rewrite N.mod_small by exact E.
      cbn [parse_digits]. rewrite digit_value_char by exact E.
      f_equal.
    + apply N.ltb_ge in E. rewrite IH.
      * cbn [parse_digits].
        rewrite digit_value_char by (apply N.mod_lt; discriminate).
        f_equal. rewrite (N.div_mod n 10) at 3 by lia. reflexivity.
      * rewrite Nat2N.inj_succ, N.pow_succ_r' in Hn.
        apply N.Div0.div_lt_upper_bound.
        lia.
Qed.

Lemma parse_digits_stop n rest :
  not_digit_first rest -> parse_digits n rest = (n, rest).
Proof.
  destruct rest as [| c r]; simpl; [reflexivity |]. intros ->. reflexivity.
Qed.

Lemma digit_char_range n :
  (48 <= N_of_ascii (digit_char (n mod 10)) <= 57)%N.
Proof.
  assert (H : (n mod 10 < 10)%N) by (apply N.mod_lt; discriminate).
  rewrite digit_char_code by exact H.
  revert H. generalize (n mod 10)%N. intros d H. lia.
Qed.

Lemma emit_digits_head f n rest :
  exists c r, emit_digits (S f) n rest = String c r /\
              (48 <= N_of_ascii c <= 57)%N.
Proof.
  revert n rest. induction f as [| f IH]; intros n rest;
    rewrite emit_digits_step; destruct (n <? 10)%N eqn:E.
  - eexists _, _. split; [reflexivity | apply digit_char_range].
  - eexists _, _. split; [reflexivity | apply digit_char_range].
  - eexists _, _. split; [reflexivity | apply digit_char_range].
  - apply IH.
Qed.

Lemma emit_N_head n rest :
  exists c r, emit_N n rest = String c r /\ (48 <= N_of_ascii c <= 57)%N.
Proof. apply emit_digits_head. Qed.

Lemma digit_value_in_range c :
  (48 <= N_of_ascii c <= 57)%N -> exists d, digit_value c = Some d.
Proof.
  intros H. unfold digit_value.
  replace ((48 <=? N_of_ascii c) && (N_of_ascii c <=? 57))%N with true.
  - eexists. reflexivity.
  - symmetry. apply andb_true_iff. split; apply N.leb_le; lia.
Qed.

(** The text of a number other than 0 does not start with the digit 0. *)
Lemma emit_digits_head_nonzero f :
  forall n rest,
    n <> 0%N -> (n < 2 ^ N.of_nat f)%N ->
    exists c r d,
      emit_digits (S f) n rest = String c r /\
      digit_value c = Some d /\ d <> 0%N.
Proof.
  induction f as [| f IH]; intros n rest Hn Hlt.
  - simpl in Hlt. lia.
  - rewrite emit_digits_step. destruct (n <? 10)%N eqn:E.
    + apply N.ltb_lt in E. rewrite N.mod_small by exact E.
      exists (digit_char n), rest, n.
      split; [reflexivity |]. split; [apply digit_value_char; exact E | exact Hn].
    + apply N.ltb_ge in E. apply IH.
      * intros H0. apply N.div_small_iff in H0; lia.
      * rewrite Nat2N.inj_succ, N.pow_succ_r' in Hlt.
        apply N.Div0.div_lt_upper_bound. lia.
Qed.

Lemma parse_emit_N n rest :
  not_digit_first rest -> parse_N (emit_N n rest) = Some (n, rest).
Proof.
  intros Hrest. destruct (N.eq_dec n 0) as [-> | Hn].
  - change (emit_N 0 rest) with (String (digit_char 0) rest).
    unfold parse_N. rewrite (digit_value_char 0) by lia.
    destruct rest as [| c' r']; [reflexivity |].
    simpl in Hrest. rewrite Hrest. reflexivity.
  - destruct (emit_digits_head_nonzero (N.to_nat (N.size n)) n rest Hn)
      as (c & r & d & E & Hc & Hd).
    { rewrite N2Nat.id. apply N.size_gt. }
    unfold parse_N, emit_N. rewrite E, Hc.
    destruct d as [| p]; [contradiction Hd; reflexivity |].
    rewrite <- E. rewrite parse_emit_digits.
    + rewrite parse_digits_stop by exact Hrest. reflexivity.
    + rewrite N2Nat.id. apply N.size_gt.
Qed.

(** *** String literals *)

Lemma parse_emit_char c tail :
  parse_chars (emit_char c tail) =
  match parse_chars tail with
  | Some (str, r') => Some (String c str, r')
  | None => None
  end.
Proof.
  destruct c as [[] [] [] [] [] [] [] []]; reflexivity.
Qed.

Lemma parse_emit_chars s rest :
  parse_chars (emit_chars s (String quote rest)) = Some (s, rest).
Proof.
  induction s as [| c s IH]; [reflexivity |].
  cbn [emit_chars]. rewrite parse_emit_char, IH. reflexivity.
Qed.

(** *** Values *)

Lemma size_positive j : 1 <= size j.
Proof. destruct j; simpl; lia. Qed.

Lemma digit_starts_value c r :
  (48 <= N_of_ascii c <= 57)%N -> starts_value (String c r).
Proof.
  intros H. exists c, r. split; [reflexivity |]. unfold is_ws.
  split; [| split; lia].
  repeat (apply orb_false_iff; split); apply N.eqb_neq; lia.
Qed.

Lemma emit_starts_value j rest : starts_value (emit j rest).
Proof.
  destruct j as [| [] | z | s | l | m]; cbn [emit emit_string].
  1-3, 5-7: (eexists _, _; split; [reflexivity |];
             split; [reflexivity | split; intros H; vm_compute in H; discriminate H]).
  destruct z as [| p | p]; cbn [emit_Z].
  - destruct (emit_N_head (Z.to_N 0) rest) as (c & r & -> & Hc).
    apply digit_starts_value. exact Hc.
  - destruct (emit_N_head (Z.to_N (Zpos p)) rest) as (c & r & -> & Hc).
    apply digit_starts_value. exact Hc.
  - eexists _, _. split; [reflexivity |].
    split; [reflexivity | split; intros H; vm_compute in H; discriminate H].
Qed.

Lemma skip_ws_starts_value s : starts_value s -> skip_ws s = s.
Proof.
  intros (c & r & -> & Hws & _). simpl. rewrite Hws. reflexivity.
Qed.

(** What follows an element: the comma or the closing bracket. *)
Lemma emit_more_not_digit {A} (emit_one : A -> string -> string) close xs rest :
  digit_value close = None ->
  not_digit_first (emit_more emit_one close xs rest).
Proof.
  intros Hc. destruct xs; simpl; [exact Hc | reflexivity].
Qed.

Lemma elements_size_cons x xs :
  elements_size (x :: xs) = S (size x) + elements_size xs.
Proof. reflexivity. Qed.

Lemma members_size_cons kv kvs :
  members_size (kv :: kvs) = S (size (snd kv)) + members_size kvs.
Proof. reflexivity. Qed.

Lemma size_array x xs :
  size (JArr (x :: xs)) = S (S (size x) + elements_size xs).
Proof. reflexivity. Qed.

Lemma size_object kv kvs :
  size (JObj (kv :: kvs)) = S (S (size (snd kv)) + members_size kvs).
Proof. reflexivity. Qed.

Lemma parse_value_minus fuel t :
  parse_value (S fuel) (String "-" t) =
  match parse_N t with
  | Some (v, r') => Some (JNum (- Z.of_N v), r')
  | None => None
  end.
Proof. reflexivity. Qed.

Lemma parse_emit_number z rest fuel :
  not_digit_first rest ->
  parse_value (S fuel) (emit (JNum z) rest) = Some (JNum z, rest).
Proof.
  intros Hrest. cbn [emit].
  destruct z as [| p | p]; cbn [emit_Z].
  - pose proof (parse_emit_N (Z.to_N 0) rest Hrest) as HN.
    destruct (emit_N_head (Z.to_N 0) rest) as (c & r & E & Hc).
    cbn [parse_value]. rewrite skip_ws_starts_value
      by (rewrite E; apply digit_starts_value; exact Hc).
    rewrite E in *.
    replace (N_of_ascii c =? 34)%N with false by (symmetry; apply N.eqb_neq; lia).
    replace (N_of_ascii c =? 91)%N with false by (symmetry; apply N.eqb_neq; lia).
    replace (N_of_ascii c =? 123)%N with false by (symmetry; apply N.eqb_neq; lia).
    replace (N_of_ascii c =? 45)%N with false by (symmetry; apply N.eqb_neq; lia).
    rewrite HN. reflexivity.
  - pose proof (parse_emit_N (Z.to_N (Zpos p)) rest Hrest) as HN.
    destruct (emit_N_head (Z.to_N (Zpos p)) rest) as (c & r & E & Hc).
    cbn [parse_value]. rewrite skip_ws_starts_value
      by (rewrite E; apply digit_starts_value; exact Hc).
    rewrite E in *.
    replace (N_of_ascii c =? 34)%N with false by (symmetry; apply N.eqb_neq; lia).
    replace (N_of_ascii c =? 91)%N with false by (symmetry; apply N.eqb_neq; lia).
    replace (N_of_ascii c =? 123)%N with false by (symmetry; apply N.eqb_neq; lia).
    replace (N_of_ascii c =? 45)%N with false by (symmetry; apply N.eqb_neq; lia).
    rewrite HN. reflexivity.
  - rewrite parse_value_minus.
    rewrite (parse_emit_N (Npos p) rest Hrest). reflexivity.
Qed.

Lemma parse_value_quote fuel t :
  parse_value (S fuel) (String quote t) =
  match parse_chars t with
  | Some (str, r') => Some (JStr str, r')
  | None => None
  end.
Proof. reflexivity. Qed.

Lemma parse_value_bracket fuel t :
  parse_value (S fuel) (String "[" t) =
  match skip_ws t with
  | String c' r' =>
      if (N_of_ascii c' =? 93)%N then Some (JArr [], r')
      else
        match parse_elements fuel t with
        | Some (l, r'') => Some (JArr l, r'')
        | None => None
        end
  | EmptyString => None
  end.
Proof. reflexivity. Qed.

Lemma parse_value_brace fuel t :
  parse_value (S fuel) (String "{" t) =
  match skip_ws t with
  | String c' r' =>
      if (N_of_ascii c' =? 125)%N then Some (JObj [], r')
      else
        match parse_members fuel t with
        | Some (m, r'') => Some (JObj m, r'')
        | None => None
        end
  | EmptyString => None
  end.
Proof. reflexivity. Qed.

Lemma parse_elements_step fuel s :
  parse_elements (S fuel) s =
  match parse_value fuel s with
  | Some (v, r) =>
      match skip_ws r with
      | String c r' =>
          if (N_of_ascii c =? 44)%N then
            match parse_elements fuel r' with
            | Some (vs, r'') => Some (v :: vs, r'')
            | None => None
            end
          else if (N_of_ascii c =? 93)%N then Some ([v], r')
          else None
      | EmptyString => None
      end
  | None => None
  end.
Proof. reflexivity. Qed.

Lemma parse_members_step fuel t :
  parse_members (S fuel) (String quote t) =
  match parse_chars t with
  | Some (k, r1) =>
      match skip_ws r1 with
      | String colon r2 =>
          if (N_of_ascii colon =? 58)%N then
            match parse_value fuel r2 with
            | Some (v, r3) =>
                match skip_ws r3 with
                | String c r4 =>
                    if (N_of_ascii c =? 44)%N then
                      match parse_members fuel r4 with
                      | Some (kvs, r5) => Some ((k, v) :: kvs, r5)
                      | None => None
                      end
                    else if (N_of_ascii c =? 125)%N then Some ([(k, v)], r4)
                    else None
                | EmptyString => None
                end
            | None => None
            end
          else None
      | EmptyString => None
      end
  | None => None
  end.
Proof. reflexivity. Qed.

Lemma starts_value_not_close s c r :
  starts_value s -> s = String c r ->
  (N_of_ascii c =? 93)%N = false /\ (N_of_ascii c =? 125)%N = false.
Proof.
  intros (c' & r' & -> & _ & H1 & H2) E. injection E as -> ->.
  split; apply N.eqb_neq; assumption.
Qed.

Lemma parse_emit_all fuel :
  (forall j rest,
      size j <= fuel -> not_digit_first rest ->
      parse_value fuel (emit j rest) = Some (j, rest)) /\
  (forall x xs rest,
      S (size x) + elements_size xs <= fuel ->
      parse_elements fuel (emit x (emit_more emit "]" xs rest))
      = Some (x :: xs, rest)) /\
  (forall kv kvs rest,
      S (size (snd kv)) + members_size kvs <= fuel ->
      parse_members fuel (emit_member kv (emit_more emit_member "}" kvs rest))
      = Some (kv :: kvs, rest)).
Proof.
  induction fuel as [| fuel (IHv & IHe & IHm)].
  - split; [| split].
    + intros j rest H. pose proof (size_positive j). lia.
    + intros x xs rest H. lia.
    + intros kv kvs rest H. lia.
  - split; [| split].
    + intros j rest Hsize Hrest.
      destruct j as [| [] | z | s | l | m].
      * reflexivity.
      * reflexivity.
      * reflexivity.
      * apply parse_emit_number. exact Hrest.
      * cbn [emit]. unfold emit_string. rewrite parse_value_quote, parse_emit_chars.
        reflexivity.
      * cbn [emit]. rewrite parse_value_bracket.
        destruct l as [| x xs]; [reflexivity |].
        cbn [emit_seq].
        rewrite skip_ws_starts_value by apply emit_starts_value.
        destruct (emit x (emit_more emit "]" xs rest)) as [| c r] eqn:E.
        { destruct (emit_starts_value x (emit_more emit "]" xs rest))
            as (c & r & E' & _). congruence. }
        destruct (starts_value_not_close _ c r
                    (emit_starts_value x (emit_more emit "]" xs rest)) E)
          as [-> _].
        rewrite <- E, IHe; [reflexivity |].
        rewrite size_array in Hsize. lia.
      * cbn [emit]. rewrite parse_value_brace.
        destruct m as [| kv kvs]; [reflexivity |].
        cbn [emit_seq].
        change (skip_ws (emit_string (fst kv)
                  (String ":" (emit (snd kv)
                     (emit_more (fun kv0 r => emit_string (fst kv0)
                        (String ":" (emit (snd kv0) r))) "}" kvs rest)))))
          with (String quote (emit_chars (fst kv) (String quote
                  (String ":" (emit (snd kv)
                     (emit_more emit_member "}" kvs rest)))))).
        change (N_of_ascii quote =? 125)%N with false. cbv iota.
        change (parse_members fuel (emit_string (fst kv)
                  (String ":" (emit (snd kv)
                     (emit_more (fun kv0 r => emit_string (fst kv0)
                        (String ":" (emit (snd kv0) r))) "}" kvs rest)))))
          with (parse_members fuel
                  (emit_member kv (emit_more emit_member "}" kvs rest))).
        rewrite IHm; [reflexivity |].
        rewrite size_object in Hsize. lia.
    + intros x xs rest Hsize.
      rewrite parse_elements_step.
      rewrite IHv; [| lia | apply emit_more_not_digit; reflexivity].
      destruct xs as [| y ys]; [reflexivity |].
      cbn [emit_more].
      change (skip_ws (String "," (emit y (emit_more emit "]" ys rest))))
        with (String "," (emit y (emit_more emit "]" ys rest))).
      change (N_of_ascii "," =? 44)%N with true. cbv iota.
      rewrite IHe; [reflexivity |].
      rewrite elements_size_cons in Hsize. lia.
    + intros [k v] kvs rest Hsize. cbn [snd] in Hsize.
      unfold emit_member at 1. unfold emit_string. cbn [fst snd].
      rewrite parse_members_step, parse_emit_chars.
      change (skip_ws (String ":" (emit v (emit_more emit_member "}" kvs rest))))
        with (String ":" (emit v (emit_more emit_member "}" kvs rest))).
      change (N_of_ascii ":" =? 58)%N with true. cbv iota.
      rewrite IHv; [| lia | apply emit_more_not_digit; reflexivity].
      destruct kvs as [| kv' kvs']; [reflexivity |].
      cbn [emit_more].
      change (skip_ws (String "," (emit_member kv' (emit_more emit_member "}" kvs' rest))))
        with (String "," (emit_member kv' (emit_more emit_member "}" kvs' rest))).
      change (N_of_ascii "," =? 44)%N with true. cbv iota.
      rewrite IHm; [reflexivity |].
      rewrite members_size_cons in Hsize. cbn [snd] in Hsize. lia.
Qed.

(** *** The text is long enough to serve as fuel *)

Lemma emit_digits_length f n rest :
  String.length rest <= String.length (emit_digits f n rest).
Proof.
  revert n rest. induction f as [| f IH]; intros n rest; [simpl; lia |].
  rewrite emit_digits_step. destruct (n <? 10)%N.
  - simpl. lia.
  - etransitivity; [| apply IH]. simpl. lia.
Qed.

Lemma emit_N_length n rest :
  1 + String.length rest <= String.length (emit_N n rest).
Proof.
  unfold emit_N. rewrite emit_digits_step. destruct (n <? 10)%N.
  - simpl. lia.
  - etransitivity; [| apply emit_digits_length]. simpl. lia.
Qed.

Lemma emit_char_length c rest :
  String.length rest <= String.length (emit_char c rest).
Proof.
  destruct c as [[] [] [] [] [] [] [] []]; simpl; lia.
Qed.

Lemma emit_chars_length s rest :
  String.length rest <= String.length (emit_chars s rest).
Proof.
  induction s as [| c s IH]; simpl; [lia |].
  etransitivity; [exact IH | apply emit_char_length].
Qed.

Lemma emit_string_length s rest :
  1 + String.length rest <= String.length (emit_string s rest).
Proof.
  unfold emit_string. simpl.
  pose proof (emit_chars_length s (String quote rest)) as H. simpl in H. lia.
Qed.

Lemma emit_length j :
  forall rest, size j + String.length rest <= String.length (emit j rest).
Proof.
  induction j as [| b | z | s | l IH | m IH] using json_induction; intros rest.
  - simpl. lia.
  - destruct b; simpl; lia.
  - cbn [emit size]. destruct z as [| p | p]; cbn [emit_Z].
    + apply emit_N_length.
    + apply emit_N_length.
    + cbn [String.length]. pose proof (emit_N_length (Npos p) rest). lia.
  - cbn [emit size]. apply emit_string_length.
  - cbn [emit]. cbn [String.length].
    destruct IH as [| x xs Hx Hxs]; [simpl; lia |].
    rewrite size_array. cbn [emit_seq].
    specialize (Hx (emit_more emit "]" xs rest)).
    assert (Hmore : elements_size xs + 1 + String.length rest
                    <= String.length (emit_more emit "]" xs rest)).
    { clear Hx. induction Hxs as [| y ys Hy _ IHys]; [simpl; lia |].
      rewrite elements_size_cons. cbn [emit_more]. cbn [String.length].
      specialize (Hy (emit_more emit "]" ys rest)). lia. }
    lia.
  - cbn [emit]. cbn [String.length].
    destruct IH as [| kv kvs Hkv Hkvs]; [simpl; lia |].
    rewrite size_object. cbn [emit_seq].
    fold emit_member.
    change (fun (kv0 : string * json) (r : string) =>
              emit_string (fst kv0) (String ":" (emit (snd kv0) r)))
      with emit_member.
    assert (Hone : forall kv' r, (forall rest', size (snd kv') + String.length rest'
                                   <= String.length (emit (snd kv') rest')) ->
                     S (size (snd kv')) + String.length r
                     <= String.length (emit_member kv' r)).
    { intros kv' r H. unfold emit_member.
      pose proof (emit_string_length (fst kv') (String ":" (emit (snd kv') r))) as H1.
      change (String.length (String ":" (emit (snd kv') r)))
        with (S (String.length (emit (snd kv') r))) in H1.
      specialize (H r). lia. }
    assert (Hmore : members_size kvs + 1 + String.length rest
                    <= String.length (emit_more emit_member "}" kvs rest)).
    { clear Hkv. induction Hkvs as [| y ys Hy _ IHys]; [simpl; lia |].
      rewrite members_size_cons. cbn [emit_more]. cbn [String.length].
      pose proof (Hone y (emit_more emit_member "}" ys rest) Hy) as H.
      clear - H IHys. lia. }
    pose proof (Hone kv (emit_more emit_member "}" kvs rest) Hkv) as H.
    change (emit_string (fst kv)
              (String ":" (emit (snd kv) (emit_more emit_member "}" kvs rest))))
      with (emit_member kv (emit_more emit_member "}" kvs rest)).
    clear - H Hmore. lia.
Qed.

(** Reading what was written gives the value back. *)
Lemma parse_stringify j : parse (stringify j) = Some j.
Proof.
  unfold parse, stringify.
  destruct (parse_emit_all (S (String.length (emit j "")))) as (Hv & _ & _).
  rewrite Hv.
  - reflexivity.
  - pose proof (emit_length j "") as H. lia.
  - exact I.
Qed.

End JSONFacts.


(** ** The cart store *)

Module CartStoreFacts.
Import Supabase Eff JSON CartStore.
Local Open Scope Z_scope.
Import CartStoreProps.

(** *** The snapshot encoding of line items *)

Lemma optional_value {A} (as_one : json -> option A) (f : A -> json)
    (o : option A) k m :
  lookup k m = Some (opt_to_json f o) ->
  (forall a, as_one (f a) = Some a) ->
  (forall a, f a <> JNull) ->
  optional as_one k m = Some o.
Proof.
  intros Hk Has Hf. unfold optional. rewrite Hk.
  destruct o as [a |]; [| reflexivity].
  cbn [opt_to_json]. rewrite Has.
  destruct (f a) eqn:E; try reflexivity. exfalso. exact (Hf a E).
Qed.

Lemma as_array_strings l : as_array as_string (JArr (map JStr l)) = Some l.
Proof.
  cbn [as_array]. induction l as [| x l IH]; [reflexivity |].
  cbn [map as_all as_string]. rewrite IH. reflexivity.
Qed.

Ltac optional_field f o :=
  rewrite (optional_value _ f o);
  [ cbv iota beta
  | reflexivity
  | first [ intros ?; reflexivity | assumption ]
  | intros ? ?; discriminate ].

Lemma category_json_roundtrip c : category_of_json (category_to_json c) = Some c.
Proof.
  destruct c as [id name description slug image_url created_at updated_at].
  unfold category_of_json, category_to_json.
  cbn -[optional opt_to_json].
  optional_field JStr description.
  optional_field JStr image_url.
  reflexivity.
Qed.

Lemma product_json_roundtrip p : product_of_json (product_to_json p) = Some p.
Proof.
  pose proof category_json_roundtrip as Hcat.
  pose proof as_array_strings as Himg.
  destruct p as [id name description price compare_at_price category_id
                 image_url images inventory_count sku is_active created_at
                 updated_at categories].
  unfold product_of_json, product_to_json.
  cbn -[optional opt_to_json as_array category_of_json category_to_json].
  optional_field JStr description.
  optional_field JNum compare_at_price.
  optional_field JStr category_id.
  optional_field JStr image_url.
  optional_field (fun l : list string => JArr (map JStr l)) images.
  optional_field JStr sku.
  optional_field category_to_json categories.
  reflexivity.
Qed.

Lemma item_json_roundtrip i : item_of_json (item_to_json i) = Some i.
Proof.
  destruct i as [p q]. unfold item_of_json, item_to_json, required.
  cbn -[product_of_json product_to_json].
  rewrite product_json_roundtrip. reflexivity.
Qed.

Lemma items_json_roundtrip l :
  as_array item_of_json (JArr (map item_to_json l)) = Some l.
Proof.
  cbn [as_array]. induction l as [| i l IH]; [reflexivity |].
  cbn [map as_all]. rewrite item_json_roundtrip, IH. reflexivity.
Qed.

(** *** Initialization and the persisted snapshot *)

Lemma getItem_setItem k v st : getItem k (setItem k v st) = Some v.
Proof. unfold getItem, setItem. rewrite String.eqb_refl. reflexivity. Qed.

Lemma deserialize_serialize {W} l (w : W) :
  deserialize (serialize l) w = (Returned l, w).
Proof.
  unfold deserialize, serialize.
  rewrite JSONFacts.parse_stringify, items_json_roundtrip. reflexivity.
Qed.

Lemma loadCart_snapshot l st :
  loadCart (setItem CART_KEY (serialize l) st)
  = (Returned l, setItem CART_KEY (serialize l) st).
Proof.
  unfold loadCart, try_catch, bind, get.
  rewrite getItem_setItem, deserialize_serialize. reflexivity.
Qed.

(** C5.  Initialization of the cart store returns a store for every
    content of local storage and never throws: with no payload under the
    cart key the cart is empty, with a payload that cannot be read back
    (reading it throws) the cart is empty, and otherwise the cart is the
    line-item sequence read. *)
Theorem initStore_never_throws :
  forall st : Storage,
    exists s,
      initStore st = Returned s /\
      localStorage s = st /\
      match getItem CART_KEY st with
      | None => items s = []
      | Some payload =>
          match fst (deserialize payload st) with
          | Returned l => items s = l
          | Thrown _ => items s = []
          end
      end.
Proof.
  intros st. unfold initStore, loadCart, try_catch, bind, get.
  destruct (getItem CART_KEY st) as [payload |].
  - unfold deserialize. destruct (parse payload) as [j |].
    + destruct (as_array item_of_json j) as [l |];
        (eexists; split; [reflexivity | split; reflexivity]).
    + eexists; split; [reflexivity | split; reflexivity].
  - eexists; split; [reflexivity | split; reflexivity].
Qed.

(** A payload cut short is corrupt, and yields the empty cart. *)
Example initStore_corrupt_payload :
  initStore (setItem CART_KEY "[{" (fun _ => None))
  = Returned {| items := [];
                localStorage := setItem CART_KEY "[{" (fun _ => None) |}.
Proof. reflexivity. Qed.

(** C6.  Reinitializing the store from the snapshot that was written
    for a cart gives the line items of that cart back, products and
    quantities alike; this holds for the snapshot written by every
    mutating operation. *)
Theorem snapshot_roundtrip :
  (forall l st,
      initStore (setItem CART_KEY (serialize l) st)
      = Returned {| items := l;
                    localStorage := setItem CART_KEY (serialize l) st |}) /\
  (forall s, initStore (localStorage (persist s)) = Returned (persist s)) /\
  (forall p q s, initStore (localStorage (addItem p q s)) = Returned (addItem p q s)) /\
  (forall pid q s,
      initStore (localStorage (updateQuantity pid q s))
      = Returned (updateQuantity pid q s)) /\
  (forall pid s,
      initStore (localStorage (removeItem pid s)) = Returned (removeItem pid s)) /\
  (forall s, initStore (localStorage (clearCart s)) = Returned (clearCart s)).
Proof.
  assert (H1 : forall l st,
             initStore (setItem CART_KEY (serialize l) st)
             = Returned {| items := l;
                           localStorage := setItem CART_KEY (serialize l) st |}).
  { intros l st. unfold initStore. rewrite loadCart_snapshot. reflexivity. }
  assert (H2 : forall s, initStore (localStorage (persist s)) = Returned (persist s)).
  { intros s. unfold persist. cbn [localStorage items]. apply H1. }
  split; [exact H1 |]. split; [exact H2 |].
  split; [| split; [| split]].
  - intros p q s. unfold addItem, set_items. apply H2.
  - intros pid q s. unfold updateQuantity.
    destruct (q <=? 0); [unfold removeItem |]; unfold set_items; apply H2.
  - intros pid s. unfold removeItem, set_items. apply H2.
  - intros s. unfold clearCart, set_items. apply H2.
Qed.

(** *** Adding line items *)

Lemma existsb_find_none pid l :
  existsb (has_id pid) l = false <-> quantity_of pid l = None.
Proof.
  unfold quantity_of. induction l as [| i l IH]; simpl; [tauto |].
  destruct (has_id pid i); simpl; [split; discriminate | exact IH].
Qed.

Lemma addItem_absent p q s :
  existsb (has_id (Product.id p)) (items s) = false ->
  items (addItem p q s) = items s ++ [{| product := p; quantity := q |}].
Proof. intros H. unfold addItem. rewrite H. reflexivity. Qed.

Lemma addItem_present p q s :
  existsb (has_id (Product.id p)) (items s) = true ->
  items (addItem p q s)
  = map (fun i => if has_id (Product.id p) i
                  then {| product := product i; quantity := quantity i + q |}
                  else i) (items s).
Proof. intros H. unfold addItem. rewrite H. reflexivity. Qed.

Lemma add_all_distinct calls :
  forall s,
    NoDup (map (fun c => Product.id (fst c)) calls) ->
    (forall c, In c calls -> existsb (has_id (Product.id (fst c))) (items s) = false) ->
    items (add_all calls s) = items s ++ map line calls.
Proof.
  induction calls as [| c cs IH]; intros s Hnd Hnew.
  - simpl. rewrite app_nil_r. reflexivity.
  - cbn [add_all fold_left]. fold (add_all cs (addItem (fst c) (snd c) s)).
    cbn [map] in Hnd. inversion Hnd as [| x xs Hnotin Hnd']; subst.
    assert (Hc : items (addItem (fst c) (snd c) s) = items s ++ [line c]).
    { apply addItem_absent. apply Hnew. left. reflexivity. }
    rewrite IH.
    + rewrite Hc, <- app_assoc. reflexivity.
    + exact Hnd'.
    + intros c' Hin. rewrite Hc, existsb_app, (Hnew c' (or_intror Hin)).
      cbn [existsb orb]. rewrite orb_false_r.
      unfold has_id, line. cbn [product].
      apply String.eqb_neq. intros E. apply Hnotin.
      rewrite E. apply in_map with (f := fun c => Product.id (fst c)). exact Hin.
Qed.

Lemma fold_left_total (f : CartItem -> Z) l a :
  fold_left (fun total i => total + f i) l a = a + sum (map f l).
Proof.
  revert a. induction l as [| i l IH]; intros a; simpl; [lia |].
  rewrite IH. unfold sum. lia.
Qed.

(** After calls on pairwise distinct product ids, from the empty cart,
    the line items are those of the calls, in order; so a reduction over
    the line items is the same reduction over the calls, whatever its
    arithmetic. *)
Lemma items_after_distinct_adds calls st :
  NoDup (map (fun c => Product.id (fst c)) calls) ->
  items (add_all calls (empty_store st)) = map line calls.
Proof.
  intros Hnd. rewrite add_all_distinct; [reflexivity | exact Hnd |].
  intros c _. reflexivity.
Qed.

Lemma reduce_after_distinct_adds {A} (f : A -> CartItem -> A) (a0 : A) calls st :
  NoDup (map (fun c => Product.id (fst c)) calls) ->
  fold_left f (items (add_all calls (empty_store st))) a0
  = fold_left (fun a c => f a (line c)) calls a0.
Proof.
  intros Hnd. rewrite (items_after_distinct_adds calls st Hnd).
  revert a0. induction calls as [| c cs IH]; intros a0; [reflexivity |].
  cbn [map fold_left]. apply IH. inversion Hnd; assumption.
Qed.

(** C1.  After a sequence of [addItem] calls on pairwise distinct
    product ids, starting from the empty cart, [getTotalItems()] is the
    sum of the quantities passed and [getTotalPrice()] is the sum over
    the calls of price times quantity, with the price each product had
    when it was added. *)
Theorem totals_after_distinct_adds :
  forall (calls : list (Product.t * Z)) (st : Storage),
    NoDup (map (fun c => Product.id (fst c)) calls) ->
    let s := add_all calls (empty_store st) in
    getTotalItems s = sum (map snd calls) /\
    getTotalPrice s = sum (map (fun c => Product.price (fst c) * snd c) calls).
Proof.
  intros calls st Hnd s.
  assert (Hitems : items s = map line calls)
    by (subst s; apply items_after_distinct_adds; exact Hnd).
  unfold getTotalItems, getTotalPrice. rewrite Hitems.
  rewrite !fold_left_total, !map_map. split; reflexivity.
Qed.

Lemma totals_after_distinct_adds_witness :
  let s := add_all [(ProductA, 1); (ProductB, 3)] (empty_store (fun _ => None)) in
  getTotalItems s = 4 /\ getTotalPrice s = 2500.
Proof.
  refine (totals_after_distinct_adds [(ProductA, 1); (ProductB, 3)] (fun _ => None) _).
  repeat constructor; simpl; intuition discriminate.
Defined.

Lemma has_id_bump pid0 pid q i :
  has_id pid (if has_id pid0 i
              then {| product := product i; quantity := quantity i + q |}
              else i)
  = has_id pid i.
Proof. destruct (has_id pid0 i); reflexivity. Qed.

Lemma has_id_new p q :
  has_id (Product.id p) {| product := p; quantity := q |} = true.
Proof. apply String.eqb_refl. Qed.

Lemma filter_bump_absent pid q l :
  existsb (has_id pid) l = false ->
  filter (has_id pid)
    (map (fun i => if has_id pid i
                   then {| product := product i; quantity := quantity i + q |}
                   else i) l) = [].
Proof.
  induction l as [| i l IH]; intros H; [reflexivity |].
  cbn [existsb] in H. apply orb_false_iff in H. destruct H as [Hi Hl].
  cbn [map filter]. rewrite Hi, Hi. exact (IH Hl).
Qed.

Lemma find_map_bump pid (g : CartItem -> CartItem) l :
  (forall i, has_id pid (g i) = has_id pid i) ->
  find (has_id pid) (map g l) = option_map g (find (has_id pid) l).
Proof.
  intros Hg. induction l as [| i l IH]; [reflexivity |].
  cbn [map find]. rewrite Hg. destruct (has_id pid i); [reflexivity | exact IH].
Qed.

(** C2.  [addItem(p, q)] on a cart that holds a line item for [p.id]
    adds [q] to the quantity of that line item and leaves the sequence
    of products, and every other quantity, as they were; on a cart that
    holds none it appends the line item [(p, q)].  So [addItem(p, 2)]
    then [addItem(p, 3)], on a cart without [p], leave exactly one line
    item for [p], of quantity 5. *)
Theorem addItem_increments_or_appends :
  forall (s : Store) (p : Product.t) (q : Z),
    (forall k,
        quantity_of (Product.id p) (items s) = Some k ->
        quantity_of (Product.id p) (items (addItem p q s)) = Some (k + q) /\
        map product (items (addItem p q s)) = map product (items s) /\
        (forall pid, pid <> Product.id p ->
           quantity_of pid (items (addItem p q s)) = quantity_of pid (items s))) /\
    (quantity_of (Product.id p) (items s) = None ->
     items (addItem p q s) = items s ++ [{| product := p; quantity := q |}]) /\
    (quantity_of (Product.id p) (items s) = None ->
     filter (has_id (Product.id p)) (items (addItem p 3 (addItem p 2 s)))
     = [{| product := p; quantity := 5 |}]).
Proof.
  intros s p q. split; [| split].
  - intros k Hk.
    assert (Hex : existsb (has_id (Product.id p)) (items s) = true).
    { destruct (existsb (has_id (Product.id p)) (items s)) eqn:E; [reflexivity |].
      apply existsb_find_none in E. congruence. }
    rewrite (addItem_present p q s Hex). split; [| split].
    + unfold quantity_of in *.
      rewrite find_map_bump by (intros i; apply has_id_bump).
      destruct (find (has_id (Product.id p)) (items s)) as [i |] eqn:Ef;
        [| discriminate Hk].
      cbn [option_map] in Hk |- *. injection Hk as Hk.
      apply find_some in Ef. destruct Ef as [_ Hi].
      rewrite Hi. cbn [quantity]. rewrite Hk. reflexivity.
    + rewrite map_map. apply map_ext. intros i.
      destruct (has_id (Product.id p) i); reflexivity.
    + intros pid Hpid. unfold quantity_of.
      rewrite find_map_bump by (intros i; apply has_id_bump).
      destruct (find (has_id pid) (items s)) as [i |] eqn:Ef; [| reflexivity].
      cbn [option_map]. apply find_some in Ef. destruct Ef as [_ Hi].
      unfold has_id in *. apply String.eqb_eq in Hi.
      destruct (String.eqb (Product.id (product i)) (Product.id p)) eqn:E;
        [| reflexivity].
      apply String.eqb_eq in E. congruence.
  - intros Hnone. apply addItem_absent. apply existsb_find_none. exact Hnone.
  - intros Hnone. apply existsb_find_none in Hnone.
    assert (H2 : items (addItem p 2 s) = items s ++ [{| product := p; quantity := 2 |}])
      by (apply addItem_absent; exact Hnone).
    assert (Hex : existsb (has_id (Product.id p)) (items (addItem p 2 s)) = true).
    { rewrite H2, existsb_app. cbn [existsb].
      rewrite has_id_new. apply orb_true_r. }
    rewrite (addItem_present p 3 _ Hex), H2, map_app, filter_app.
    rewrite (filter_bump_absent _ 3 _ Hnone).
    cbn [map app]. rewrite (has_id_new p 2).
    cbn [filter product quantity]. rewrite (has_id_new p (2 + 3)).
    reflexivity.
Qed.

Lemma addItem_increments_or_appends_witness :
  filter (has_id (Product.id ProductA))
    (items (addItem ProductA 3 (addItem ProductA 2
              (add_all [(ProductB, 1)] (empty_store (fun _ => None))))))
  = [{| product := ProductA; quantity := 5 |}] /\
  quantity_of (Product.id ProductB)
    (items (addItem ProductB 4 (add_all [(ProductB, 1)] (empty_store (fun _ => None)))))
  = Some 5.
Proof.
  split.
  - exact (proj2 (proj2 (addItem_increments_or_appends
                           (add_all [(ProductB, 1)] (empty_store (fun _ => None)))
                           ProductA 0)) eq_refl).
  - exact (proj1 (proj1 (addItem_increments_or_appends
                           (add_all [(ProductB, 1)] (empty_store (fun _ => None)))
                           ProductB 4) 1 eq_refl)).
Defined.

End CartStoreFacts.

(** ** The checkout page *)

Module CheckoutPageFacts.
Import Supabase Eff CartStore CheckoutPage.
Import CheckoutPageProps.

Ltac run_handler :=
  unfold handleSubmit, try_finally, try_catch, bind, setLoading, setError,
    clearCart, navigate, record, modify, get, throw_on_error, ret, throw;
  cbn.

Lemma submit_both_succeed backend u formData w order :
  insert_order backend (order_request formData w u) = Success order ->
  insert_order_items backend (orderItems order (items (cart w))) = Success tt ->
  handleSubmit backend (Some u) formData w
  = (Returned tt,
     {| cart := CartStore.clearCart (cart w);
        loading := false;
        error := "";
        trace := trace w ++
                 [OrdersInsert (order_request formData w u);
                  OrderItemsInsert (orderItems order (items (cart w)));
                  ClearCart;
                  Navigate "/order-success" (Order.order_number order)] |}).
Proof.
  unfold order_request. intros H1 H2. run_handler.
  rewrite H1. cbn. rewrite H2. cbn. rewrite <- !app_assoc. reflexivity.
Qed.

Lemma submit_order_fails backend u formData w e :
  insert_order backend (order_request formData w u) = Failure e ->
  handleSubmit backend (Some u) formData w
  = (Returned tt,
     {| cart := cart w;
        loading := false;
        error := JS.or_else (message e) "Failed to place order";
        trace := trace w ++ [OrdersInsert (order_request formData w u)] |}).
Proof.
  unfold order_request. intros H1. run_handler.
  rewrite H1. reflexivity.
Qed.

Lemma submit_items_fail backend u formData w order e :
  insert_order backend (order_request formData w u) = Success order ->
  insert_order_items backend (orderItems order (items (cart w))) = Failure e ->
  handleSubmit backend (Some u) formData w
  = (Returned tt,
     {| cart := cart w;
        loading := false;
        error := JS.or_else (message e) "Failed to place order";
        trace := trace w ++
                 [OrdersInsert (order_request formData w u);
                  OrderItemsInsert (orderItems order (items (cart w)))] |}).
Proof.
  unfold order_request. intros H1 H2. run_handler.
  rewrite H1. cbn. rewrite H2. cbn. rewrite <- !app_assoc. reflexivity.
Qed.

(** C3.  A checkout submission returns normally, and the cart is cleared
    in it exactly when the order insert and the order-items insert both
    succeed: then the store is the cleared one.  When either external
    call fails with [e], the cart store is left as it was and the inline
    message, which is never empty, is the message of [e], or 'Failed to
    place order' when [e] has none. *)
Theorem checkout_clears_cart_iff_inserts_succeed :
  forall backend user formData w,
    let r := handleSubmit backend user formData w in
    fst r = Returned tt /\
    exists events,
      trace (snd r) = trace w ++ events /\
      (In ClearCart events <-> both_succeed backend user formData w) /\
      (both_succeed backend user formData w ->
       cart (snd r) = CartStore.clearCart (cart w)) /\
      (forall e,
          fails_with backend user formData w e ->
          cart (snd r) = cart w /\
          error (snd r) = JS.or_else (message e) "Failed to place order" /\
          error (snd r) <> "").
Proof.
  intros backend user formData w r. subst r.
  destruct user as [u |].
  - (* signed in *)
    unfold both_succeed, fails_with.
    destruct (insert_order backend (order_request formData w u))
      as [order | e1] eqn:Eorder.
    + destruct (insert_order_items backend (orderItems order (items (cart w))))
        as [[] | e2] eqn:Eitems.
      * (* both inserts succeed *)
        rewrite (submit_both_succeed _ _ _ _ _ Eorder Eitems).
        cbn [fst snd cart loading error trace].
        split; [reflexivity |]. eexists. split; [reflexivity |].
        split; [| split].
        -- split.
           ++ intros _. exists u, order. auto.
           ++ intros _. cbn. tauto.
        -- intros _. reflexivity.
        -- intros e (u' & Hu & [H | (order' & H1 & H2)]);
             injection Hu as <-; congruence.
      * (* the order-items insert fails *)
        rewrite (submit_items_fail _ _ _ _ _ _ Eorder Eitems).
        cbn [fst snd cart loading error trace].
        split; [reflexivity |]. eexists. split; [reflexivity |].
        split; [| split].
        -- split.
           ++ cbn. intros [H | [H | []]]; discriminate H.
           ++ intros (u' & order' & Hu & H1 & H2). injection Hu as <-. congruence.
        -- intros (u' & order' & Hu & H1 & H2). injection Hu as <-. congruence.
        -- intros e (u' & Hu & [H | (order' & H1 & H2)]); injection Hu as <-;
             [congruence |].
           assert (e = e2) by congruence. subst e.
           repeat split. apply JSFacts.or_else_nonempty. discriminate.
    + (* the order insert fails *)
      rewrite (submit_order_fails _ _ _ _ _ Eorder).
      cbn [fst snd cart loading error trace].
      split; [reflexivity |]. eexists. split; [reflexivity |].
      split; [| split].
      * split.
        -- cbn. intros [H | []]; discriminate H.
        -- intros (u' & order' & Hu & H1 & H2). injection Hu as <-. congruence.
      * intros (u' & order' & Hu & H1 & H2). injection Hu as <-. congruence.
      * intros e (u' & Hu & [H | (order' & H1 & H2)]); injection Hu as <-;
          [| congruence].
        assert (e = e1) by congruence. subst e.
        repeat split. apply JSFacts.or_else_nonempty. discriminate.
  - (* nobody signed in: the handler returns at once *)
    cbn. split; [reflexivity |]. exists []. split; [symmetry; apply app_nil_r |].
    split; [| split].
    + split; [intros [] | intros (u & order & Hu & _); discriminate Hu].
    + intros (u & order & Hu & _). discriminate Hu.
    + intros e (u & Hu & _). discriminate Hu.
Qed.

Lemma checkout_clears_cart_iff_inserts_succeed_witness :
  (cart (snd (handleSubmit items_refused (Some customer) checkout_form checkout_world))
   = cart checkout_world /\
   error (snd (handleSubmit items_refused (Some customer) checkout_form checkout_world))
   = "new row violates row-level security policy") /\
  cart (snd (handleSubmit accepting (Some customer) checkout_form checkout_world))
  = CartStore.clearCart (cart checkout_world).
Proof.
  split.
  - destruct (checkout_clears_cart_iff_inserts_succeed
                items_refused (Some customer) checkout_form checkout_world)
      as (_ & events & _ & _ & _ & Hfail).
    destruct (Hfail policy_violation) as (Hcart & Herror & _).
    + exists customer. split; [reflexivity |]. right.
      eexists. split; reflexivity.
    + split; [exact Hcart | exact Herror].
  - destruct (checkout_clears_cart_iff_inserts_succeed
                accepting (Some customer) checkout_form checkout_world)
      as (_ & events & _ & _ & Hok & _).
    apply Hok. exists customer. eexists. split; [reflexivity |].
    split; reflexivity.
Defined.

End CheckoutPageFacts.

(** ** The address form *)

Module AddressFormFacts.
Import Supabase Eff AddressForm.
Import AddressFormProps.

Ltac run_handler :=
  unfold handleSubmit, try_finally, try_catch, bind, await, setLoading, setError,
    onSave, modify, get, throw_on_error, ret, throw;
  cbn.

(** Saving an existing address as the default, when the platform lets
    both requests through: the address row is written first, the flags
    of the owner's other rows are cleared by a second request, and the
    form reports the save. *)
Lemma edit_default_two_requests backend u a formData w :
  is_default formData = true ->
  Address.id a <> "" ->
  refuses backend (write_request u a formData w) = None ->
  refuses backend (clear_request u a) = None ->
  let t1 := apply backend (User.id u) (write_request u a formData w) (addresses w) in
  let t2 := apply backend (User.id u) (clear_request u a) t1 in
  handleSubmit backend (Some u) (Some a) formData w
  = (Returned tt,
     {| addresses := t2;
        loading := false;
        error := "";
        saved := S (saved w);
        now := now w;
        history := history w ++
                   [(write_request u a formData w, t1); (clear_request u a, t2)] |}).
Proof.
  intros Hdef Hid Hw Hc t1 t2. subst t1 t2.
  unfold write_request, clear_request in *.
  assert (Hne : String.eqb (Address.id a) "" = false) by (apply String.eqb_neq; exact Hid).
  run_handler. unfold answer. cbn. rewrite Hw. cbn.
  rewrite Hne, andb_false_r, String.eqb_refl. cbn. rewrite Hdef. cbn.
  unfold answer. cbn. rewrite Hne. rewrite Hc. cbn.
  rewrite andb_false_r. cbn. rewrite <- app_assoc. reflexivity.
Qed.

Lemma selected_clear_request u a row :
  selected [eq_user_id (User.id u); neq_id (Address.id a)] row
  = String.eqb (Address.user_id row) (User.id u) &&
    negb (String.eqb (Address.id row) (Address.id a)).
Proof. cbn. rewrite andb_true_r. reflexivity. Qed.

(** After the second request of such a save, every address of the owner
    that carries the default flag has the id of the saved address. *)
Lemma edit_default_clears_others backend u a table row :
  In row (apply backend (User.id u) (clear_request u a) table) ->
  Address.user_id row = User.id u ->
  Address.is_default row = true ->
  Address.id row = Address.id a.
Proof.
  unfold clear_request. cbn [apply]. intros Hin Hu Hd.
  apply in_map_iff in Hin. destruct Hin as (row0 & Hrow & _).
  unfold target, own in Hrow. rewrite selected_clear_request in Hrow.
  rewrite (String.eqb_sym (User.id u)) in Hrow.
  destruct (String.eqb (Address.user_id row0) (User.id u)) eqn:Eu; cbn in Hrow.
  - destruct (String.eqb (Address.id row0) (Address.id a)) eqn:Ea; cbn in Hrow.
    + subst row0. apply String.eqb_eq. exact Ea.
    + subst row. cbn in Hd. discriminate Hd.
  - subst row0. rewrite Hu, String.eqb_refl in Eu. discriminate Eu.
Qed.

(** Making the work address the default one: between the two requests
    both addresses of the customer carry the flag, and after the second
    only the work address does. *)
Example edit_default_between_requests :
  forall rejects,
    map (fun step => flags (snd step))
      (history (snd (handleSubmit (platform rejects) (Some alice) (Some work)
                       (form_for "8 quai Perrache" true) (world_with [home; work]))))
    = [ [(home_id, true); (work_id, true)];
        [(home_id, false); (work_id, true)] ].
Proof. intros []; reflexivity. Qed.

(** *** Saving a new address as the default *)

(** The requests of a save of a new address as the default, when the
    platform lets the insert through: the second request compares [id]
    with the empty text, so that its filters do not set the inserted
    row apart; and the form reports the save whatever the answer to the
    second request. *)
Lemma create_default_two_requests backend u formData w :
  is_default formData = true ->
  refuses backend (insert (addressData u formData (now w))) = None ->
  let req1 := insert (addressData u formData (now w)) in
  let req2 := update_is_default false [eq_user_id (User.id u); neq_id ""] in
  let t1 := apply backend (User.id u) req1 (addresses w) in
  let t2 := snd (answer backend (User.id u) req2 t1) in
  handleSubmit backend (Some u) None formData w
  = (Returned tt,
     {| addresses := t2;
        loading := false;
        error := "";
        saved := S (saved w);
        now := now w;
        history := history w ++ [(req1, t1); (req2, t2)] |}).
Proof.
  intros Hdef Hins req1 req2 t1 t2. subst req1 req2 t1 t2.
  run_handler. unfold answer at 1. cbn. rewrite Hins. cbn.
  rewrite andb_false_r, String.eqb_refl. cbn. rewrite Hdef. cbn.
  destruct (answer backend (User.id u)
              (update_is_default false [eq_user_id (User.id u); neq_id ""])
              (addresses w ++ _)) as [resp t2] eqn:E.
  cbn. rewrite <- app_assoc. reflexivity.
Qed.

(** The filters of that second request select the row just inserted
    along with the owner's other rows. *)
Lemma create_default_selects_inserted backend u formData now :
  gen_random_uuid backend <> "" ->
  selected [eq_user_id (User.id u); neq_id ""]
    (inserted_row backend (addressData u formData now)) = true.
Proof.
  intros Hid. cbn. rewrite String.eqb_refl.
  apply String.eqb_neq in Hid. rewrite Hid. reflexivity.
Qed.

(** C7, at the failing input.  The customer has one address, the
    default one, and saves a new address with the default flag set.  The
    form reports the save, and the flags that result are wrong either
    way: when the platform refuses the comparison of [id] with the empty
    text, the second request changes nothing and both addresses carry
    the flag; when it compares the texts, the second request clears the
    flag of the new address as well and no address carries it.  In
    neither case are the flags those of the new address as the only
    default. *)
Theorem create_default_wrong_flags :
  forall rejects,
    let r := handleSubmit (platform rejects) (Some alice) None
               (form_for "8 quai Perrache" true) (world_with [home]) in
    fst r = Returned tt /\
    saved (snd r) = 1 /\
    error (snd r) = "" /\
    flags (addresses (snd r))
    = (if rejects
       then [(home_id, true); (new_id, true)]
       else [(home_id, false); (new_id, false)]) /\
    flags (addresses (snd r)) <> [(home_id, false); (new_id, true)].
Proof.
  intros []; cbv zeta; repeat split; try reflexivity; vm_compute; discriminate.
Qed.

End AddressFormFacts.

(** ** Order numbers *)

Module OrderNumberFacts.
Import OrderNumber OrderNumberProps.

(** *** Strings *)

Lemma length_append (a b : string) :
  String.length (a ++ b)%string = String.length a + String.length b.
Proof. induction a as [| c a IH]; simpl; [reflexivity | rewrite IH; reflexivity]. Qed.

Lemma length_repeat_char c n : String.length (repeat_char c n) = n.
Proof. induction n as [| n IH]; simpl; [reflexivity | rewrite IH; reflexivity]. Qed.

Lemma substring_all (s : string) : String.substring 0 (String.length s) s = s.
Proof. induction s as [| c s IH]; simpl; [reflexivity | rewrite IH; reflexivity]. Qed.

Lemma substring_append_left (a b : string) :
  String.substring 0 (String.length a) (a ++ b)%string = a.
Proof.
  induction a as [| c a IH]; simpl.
  - destruct b; reflexivity.
  - rewrite IH. reflexivity.
Qed.

Lemma substring_append_right (a b : string) :
  String.substring (String.length a) (String.length b) (a ++ b)%string = b.
Proof.
  induction a as [| c a IH]; simpl; [apply substring_all | exact IH].
Qed.

Lemma append_inj_right (a1 a2 b1 b2 : string) :
  (a1 ++ b1)%string = (a2 ++ b2)%string ->
  String.length b1 = String.length b2 ->
  a1 = a2 /\ b1 = b2.
Proof.
  revert a2. induction a1 as [| c a1 IH]; intros a2 E L.
  - destruct a2 as [| d a2]; [split; [reflexivity | exact E] |].
    exfalso. simpl in E. apply (f_equal String.length) in E.
    simpl in E. rewrite length_append in E. lia.
  - destruct a2 as [| d a2].
    + exfalso. simpl in E. apply (f_equal String.length) in E.
      simpl in E. rewrite length_append in E. lia.
    + simpl in E. injection E as -> E. destruct (IH a2 E L) as [-> ->].
      split; reflexivity.
Qed.

(** *** The digits of a sequence value *)

Lemma emit_digits_append f n (r1 r2 : string) :
  JSON.emit_digits f n (r1 ++ r2)%string = (JSON.emit_digits f n r1 ++ r2)%string.
Proof.
  revert n r1. induction f as [| f IH]; intros n r1; [reflexivity |].
  rewrite !JSONFacts.emit_digits_step. destruct (n <? 10)%N; [reflexivity |].
  rewrite <- IH. reflexivity.
Qed.

Lemma emit_digits_fuel f1 :
  forall f2 n rest,
    (n < 2 ^ N.of_nat f1)%N -> (n < 2 ^ N.of_nat f2)%N ->
    JSON.emit_digits (S f1) n rest = JSON.emit_digits (S f2) n rest.
Proof.
  induction f1 as [| f1 IH]; intros f2 n rest H1 H2.
  - assert (n = 0%N) by (simpl in H1; lia). subst n.
    rewrite !JSONFacts.emit_digits_step. reflexivity.
  - rewrite (JSONFacts.emit_digits_step (S f1)), (JSONFacts.emit_digits_step f2).
    destruct (n <? 10)%N eqn:E; [reflexivity |].
    apply N.ltb_ge in E.
    destruct f2 as [| f2].
    { simpl in H2. lia. }
    rewrite Nat2N.inj_succ, N.pow_succ_r' in H1, H2.
    apply IH; apply N.Div0.div_lt_upper_bound; lia.
Qed.

Lemma bigint_text_step v :
  (10 <= v)%N ->
  bigint_text v
  = (bigint_text (v / 10) ++ String (JSON.digit_char (v mod 10)) "")%string.
Proof.
  intros Hv. unfold bigint_text, JSON.emit_N.
  rewrite JSONFacts.emit_digits_step.
  replace (v <? 10)%N with false by (symmetry; apply N.ltb_ge; exact Hv).
  rewrite <- emit_digits_append. cbn [String.append].
  pose proof (N.size_gt v) as Hs.
  destruct (N.to_nat (N.size v)) as [| f] eqn:Ef.
  { exfalso. assert (N.size v = 0%N) by lia.
    rewrite H in Hs. simpl in Hs. lia. }
  apply emit_digits_fuel.
  - assert (Hf : N.of_nat (S f) = N.size v) by (rewrite <- Ef; apply N2Nat.id).
    rewrite <- Hf, Nat2N.inj_succ, N.pow_succ_r' in Hs.
    apply N.Div0.div_lt_upper_bound. lia.
  - rewrite N2Nat.id.
    apply N.le_lt_trans with (m := (v / 10)%N); [reflexivity |].
    apply N.size_gt.
Qed.

Lemma bigint_text_small v :
  (v < 10)%N -> bigint_text v = String (JSON.digit_char v) "".
Proof.
  intros Hv. unfold bigint_text, JSON.emit_N.
  rewrite JSONFacts.emit_digits_step.
  replace (v <? 10)%N with true by (symmetry; apply N.ltb_lt; exact Hv).
  rewrite N.mod_small by exact Hv. reflexivity.
Qed.

(** A value of [k] digits is written with [k] characters. *)
Lemma bigint_text_length k :
  forall v,
    (v < 10 ^ N.of_nat (S k))%N ->
    k = 0%nat \/ (10 ^ N.of_nat k <= v)%N ->
    String.length (bigint_text v) = S k.
Proof.
  induction k as [| k IH]; intros v Hlt Hge.
  - rewrite bigint_text_small by (simpl in Hlt; lia). reflexivity.
  - destruct Hge as [Hk | Hge]; [discriminate Hk |].
    rewrite Nat2N.inj_succ, N.pow_succ_r' in Hlt, Hge.
    assert (H10 : (10 <= v)%N).
    { assert (1 <= 10 ^ N.of_nat k)%N by (apply N.lt_pred_le; apply N.neq_0_lt_0;
        apply N.pow_nonzero; discriminate). lia. }
    rewrite bigint_text_step by exact H10.
    rewrite length_append, IH.
    + simpl. lia.
    + apply N.Div0.div_lt_upper_bound. lia.
    + right. apply N.div_le_lower_bound; [discriminate | lia].
Qed.

Lemma bigint_text_length_le k :
  forall v, (v < 10 ^ N.of_nat (S k))%N -> String.length (bigint_text v) <= S k.
Proof.
  induction k as [| k IH]; intros v Hlt.
  - rewrite (bigint_text_length 0 v Hlt); [lia | left; reflexivity].
  - destruct (v <? 10 ^ N.of_nat (S k))%N eqn:E.
    + apply N.ltb_lt in E. specialize (IH v E). lia.
    + apply N.ltb_ge in E.
      rewrite (bigint_text_length (S k) v Hlt); [lia | right; exact E].
Qed.

Lemma parse_digits_zeros m s :
  JSON.parse_digits 0 (repeat_char "0" m ++ s)%string = JSON.parse_digits 0 s.
Proof. induction m as [| m IH]; [reflexivity | exact IH]. Qed.

Lemma parse_digits_bigint_text v :
  JSON.parse_digits 0 (bigint_text v) = (v, EmptyString).
Proof.
  unfold bigint_text, JSON.emit_N. rewrite JSONFacts.parse_emit_digits.
  - reflexivity.
  - rewrite N2Nat.id. apply N.size_gt.
Qed.

Lemma append_assoc (a b c : string) :
  ((a ++ b) ++ c)%string = (a ++ (b ++ c))%string.
Proof. induction a as [| x a IH]; simpl; [reflexivity | rewrite IH; reflexivity]. Qed.

(** Below one million the text of the value is padded, never cut. *)
Lemma lpad_padded v :
  (v < 1000000)%N ->
  lpad (bigint_text v) 6 "0"
  = (repeat_char "0" (6 - String.length (bigint_text v)) ++ bigint_text v)%string /\
  String.length (lpad (bigint_text v) 6 "0") = 6.
Proof.
  intros Hv. pose proof (bigint_text_length_le 5 v Hv) as Hlen.
  unfold lpad. destruct (Nat.leb 6 (String.length (bigint_text v))) eqn:E.
  - apply Nat.leb_le in E.
    assert (H6 : String.length (bigint_text v) = 6) by lia.
    assert (Hs : String.substring 0 6 (bigint_text v) = bigint_text v)
      by (rewrite <- H6 at 1; apply substring_all).
    rewrite Hs, H6. split; reflexivity.
  - split; [reflexivity |]. apply Nat.leb_gt in E.
    rewrite length_append, length_repeat_char. lia.
Qed.

Lemma nextval_small v :
  (v < 10000000)%N -> nextval v = Some (v, (v + 1)%N).
Proof.
  intros Hv. unfold nextval.
  replace (v <=? bigint_max)%N with true; [reflexivity |].
  symmetry. apply N.leb_le. unfold bigint_max. lia.
Qed.

(** The text of an order number, for a value the sequence gave. *)
Lemma generate_order_number_text today v :
  (v < 10000000)%N ->
  generate_order_number today v
  = Some ((("ORD-" ++ today) ++ "-") ++ lpad (bigint_text v) 6 "0", (v + 1)%N)%string.
Proof.
  intros Hv. unfold generate_order_number. rewrite (nextval_small v Hv).
  rewrite !append_assoc. reflexivity.
Qed.

(** Below one million, an order number is the text 'ORD-', the day, a
    hyphen and six decimal digits that write the value the sequence
    gave, with zeros in front: the digits read back as the value, the
    number is 11 characters longer than the day, and the sequence moves
    on by one. *)
Theorem order_number_reads_back :
  forall today v,
    (v < 1000000)%N ->
    exists digits,
      generate_order_number today v
      = Some (("ORD-" ++ today ++ "-" ++ digits)%string, (v + 1)%N) /\
      String.length digits = 6 /\
      JSON.parse_digits 0 digits = (v, EmptyString) /\
      String.length ("ORD-" ++ today ++ "-" ++ digits)%string
      = String.length today + 11 /\
      trailing_number ("ORD-" ++ today ++ "-" ++ digits)%string = v.
Proof.
  intros today v Hv.
  destruct (lpad_padded v Hv) as [Hpad Hlen].
  exists (lpad (bigint_text v) 6 "0").
  split; [| split; [exact Hlen | split; [| split]]].
  - rewrite generate_order_number_text by lia. rewrite !append_assoc. reflexivity.
  - rewrite Hpad, parse_digits_zeros. apply parse_digits_bigint_text.
  - rewrite !length_append, Hlen. simpl. lia.
  - unfold trailing_number. rewrite <- !append_assoc.
    set (front := (("ORD-" ++ today) ++ "-")%string).
    replace (String.length (front ++ lpad (bigint_text v) 6 "0") - 6)
      with (String.length front) by (rewrite length_append, Hlen; lia).
    rewrite <- Hlen at 1. rewrite substring_append_right.
    rewrite Hpad, parse_digits_zeros, parse_digits_bigint_text. reflexivity.
Qed.

Lemma order_number_reads_back_witness :
  exists digits,
    generate_order_number "20250705" 42
    = Some (("ORD-" ++ "20250705" ++ "-" ++ digits)%string, (42 + 1)%N) /\
    String.length digits = 6 /\
    JSON.parse_digits 0 digits = (42%N, EmptyString) /\
    String.length ("ORD-" ++ "20250705" ++ "-" ++ digits)%string
    = String.length "20250705" + 11 /\
    trailing_number ("ORD-" ++ "20250705" ++ "-" ++ digits)%string = 42%N.
Proof.
  apply (order_number_reads_back "20250705" 42). reflexivity.
Defined.

Lemma same_order_number today1 today2 v1 v2 number seq1 seq2 :
  (v1 < 1000000)%N -> (v2 < 1000000)%N ->
  generate_order_number today1 v1 = Some (number, seq1) ->
  generate_order_number today2 v2 = Some (number, seq2) ->
  today1 = today2 /\ v1 = v2.
Proof.
  intros H1 H2 E1 E2.
  rewrite generate_order_number_text in E1, E2 by lia.
  injection E1 as E1 _. injection E2 as E2 _. rewrite <- E2 in E1. clear E2.
  destruct (lpad_padded v1 H1) as [Hp1 L1].
  destruct (lpad_padded v2 H2) as [Hp2 L2].
  cbn [String.append] in E1. injection E1 as E1.
  apply append_inj_right in E1; [| congruence].
  destruct E1 as [Ef Ep].
  apply append_inj_right in Ef; [| reflexivity].
  destruct Ef as [Ef _].
  split; [exact Ef |].
  apply (f_equal (JSON.parse_digits 0)) in Ep.
  rewrite Hp1, Hp2, !parse_digits_zeros, !parse_digits_bigint_text in Ep.
  injection Ep as Ep. exact Ep.
Qed.

(** From one million on the text of the value has seven digits and
    [lpad] cuts the last one: the order number is the one of the value
    divided by ten. *)
Theorem order_number_truncated :
  forall today v,
    (1000000 <= v < 10000000)%N ->
    exists number,
      generate_order_number today v = Some (number, (v + 1)%N) /\
      generate_order_number today (v / 10) = Some (number, (v / 10 + 1)%N).
Proof.
  intros today v [Hlo Hhi].
  assert (Hq : (v / 10 < 1000000)%N) by (apply N.Div0.div_lt_upper_bound; lia).
  assert (Hq' : (100000 <= v / 10)%N) by (apply N.div_le_lower_bound; [discriminate | lia]).
  assert (L : String.length (bigint_text (v / 10)) = 6).
  { apply (bigint_text_length 5); [exact Hq | right; exact Hq']. }
  assert (Hcut : lpad (bigint_text v) 6 "0" = lpad (bigint_text (v / 10)) 6 "0").
  { rewrite (bigint_text_step v) by lia.
    unfold lpad. rewrite length_append, L. cbn [String.length Nat.add Nat.leb].
    rewrite <- L. rewrite substring_append_left, substring_all. reflexivity. }
  eexists. split; [apply generate_order_number_text; lia |].
  rewrite generate_order_number_text by lia. rewrite Hcut. reflexivity.
Qed.

Lemma order_number_truncated_witness :
  exists number,
    generate_order_number "20250705" 1000000 = Some (number, 1000001%N) /\
    generate_order_number "20250705" 100000 = Some (number, 100001%N).
Proof.
  refine (order_number_truncated "20250705" 1000000 _). lia.
Defined.

(** The numbers given to successive inserts are those of successive
    values of the sequence. *)
Lemma assigned_numbers days :
  forall seq,
    (seq + N.of_nat (List.length days) <= 1000000)%N ->
    List.length (assigned days seq) = List.length days /\
    forall number,
      In number (assigned days seq) ->
      exists today v seq',
        (seq <= v < seq + N.of_nat (List.length days))%N /\
        generate_order_number today v = Some (number, seq').
Proof.
  induction days as [| today days IH]; intros seq Hseq.
  - split; [reflexivity | intros number []].
  - cbn [List.length] in Hseq. rewrite Nat2N.inj_succ in Hseq.
    cbn [assigned set_order_number].
    rewrite generate_order_number_text by lia.
    destruct (IH (seq + 1)%N) as [Hlen Hin]; [lia |].
    split; [cbn [List.length]; rewrite Hlen; reflexivity |].
    intros number [<- | H].
    + exists today, seq, (seq + 1)%N. split.
      * cbn [List.length]. lia.
      * apply generate_order_number_text. lia.
    + destruct (Hin number H) as (today' & v & seq' & Hv & Hg).
      exists today', v, seq'. split; [cbn [List.length]; lia | exact Hg].
Qed.

(** While the sequence stays below one million, the trigger never gives
    the same order number to two inserts. *)
Theorem assigned_numbers_distinct :
  forall days seq,
    (seq + N.of_nat (List.length days) <= 1000000)%N ->
    List.length (assigned days seq) = List.length days /\
    NoDup (assigned days seq).
Proof.
  induction days as [| today days IH]; intros seq Hseq.
  - split; [reflexivity | constructor].
  - pose proof (assigned_numbers (today :: days) seq Hseq) as [Hlen _].
    split; [exact Hlen |].
    cbn [List.length] in Hseq. rewrite Nat2N.inj_succ in Hseq.
    cbn [assigned set_order_number].
    rewrite generate_order_number_text by lia.
    destruct (IH (seq + 1)%N) as [_ Hnd]; [lia |].
    constructor; [| exact Hnd].
    intros Hin.
    destruct (assigned_numbers days (seq + 1)%N) as [_ Hall]; [lia |].
    destruct (Hall _ Hin) as (today' & v & seq' & Hv & Hg).
    assert (Hs : generate_order_number today seq
                 = Some ((("ORD-" ++ today) ++ "-") ++ lpad (bigint_text seq) 6 "0",
                         (seq + 1)%N)%string)
      by (apply generate_order_number_text; lia).
    destruct (same_order_number today' today v seq _ _ _
                ltac:(lia) ltac:(lia) Hg Hs) as [_ E].
    lia.
Qed.

Lemma assigned_numbers_distinct_witness :
  List.length (assigned ["20250705"; "20250705"; "20250706"] 1)
  = 3 /\
  NoDup (assigned ["20250705"; "20250705"; "20250706"] 1).
Proof.
  refine (assigned_numbers_distinct ["20250705"; "20250705"; "20250706"] 1 _).
  simpl. lia.
Defined.

End OrderNumberFacts.

(** ** The images and the quantity of a product *)

Module ProductDetailPageFacts.
Import Eff ProductDetailPage ProductDetailPageProps.
Local Open Scope Z_scope.

Lemma truthy_true s : ProductCard.truthy s = true <-> s <> "".
Proof. unfold ProductCard.truthy. rewrite negb_true_iff. apply String.eqb_neq. Qed.

Lemma existsb_eqb_In (x : string) l : existsb (String.eqb x) l = true <-> In x l.
Proof.
  rewrite existsb_exists. split.
  - intros (y & Hin & E). apply String.eqb_eq in E. subst y. exact Hin.
  - intros Hin. exists x. split; [exact Hin | apply String.eqb_refl].
Qed.

Lemma getProductImages_length trim product :
  (0 < List.length (getProductImages trim product))%nat.
Proof.
  unfold getProductImages.
  match goal with |- context [match ?l with [] => _ | _ :: _ => _ end] =>
    destruct l; cbn [List.length]; lia end.
Qed.

Lemma nextImage_eq n i :
  0 < n -> 0 <= i < n -> nextImage n i = if i + 1 =? n then 0 else i + 1.
Proof.
  intros Hn Hi. unfold nextImage. rewrite Z.rem_mod_nonneg by lia.
  destruct (i + 1 =? n) eqn:E.
  - apply Z.eqb_eq in E. rewrite E. apply Z.mod_same. lia.
  - apply Z.eqb_neq in E. apply Z.mod_small. lia.
Qed.

Lemma prevImage_eq n i :
  0 < n -> 0 <= i < n -> prevImage n i = if i =? 0 then n - 1 else i - 1.
Proof.
  intros Hn Hi. unfold prevImage. rewrite Z.rem_mod_nonneg by lia.
  destruct (i =? 0) eqn:E.
  - apply Z.eqb_eq in E. subst i. replace (0 - 1 + n) with (n - 1) by lia.
    apply Z.mod_small. lia.
  - apply Z.eqb_neq in E. replace (i - 1 + n) with (i - 1 + 1 * n) by lia.
    rewrite Z.mod_add by lia. apply Z.mod_small. lia.
Qed.

Lemma nextImage_range n i : 1 < n -> 0 <= i < n -> 0 <= nextImage n i < n.
Proof. intros Hn Hi. unfold nextImage. apply Z.rem_bound_pos; lia. Qed.

Lemma prevImage_range n i : 1 < n -> 0 <= i < n -> 0 <= prevImage n i < n.
Proof. intros Hn Hi. unfold prevImage. apply Z.rem_bound_pos; lia. Qed.

Lemma carousel_event_range images e c :
  (0 < List.length images)%nat ->
  0 <= selectedImage c < Z.of_nat (List.length images) ->
  0 <= selectedImage (carousel_event images e c) < Z.of_nat (List.length images).
Proof.
  intros Hlen Hc. destruct e; cbn [carousel_event].
  - destruct (1 <? _) eqn:E1; cbn [andb]; [| exact Hc].
    destruct (imageError c); cbn [negb selectedImage]; [exact Hc |].
    apply Z.ltb_lt in E1. apply nextImage_range; assumption.
  - destruct (1 <? _) eqn:E1; cbn [andb]; [| exact Hc].
    destruct (imageError c); cbn [negb selectedImage]; [exact Hc |].
    apply Z.ltb_lt in E1. apply prevImage_range; assumption.
  - destruct (1 <? _) eqn:E1; cbn [andb]; [| exact Hc].
    destruct (Nat.ltb index _) eqn:E2; [| exact Hc].
    apply Nat.ltb_lt in E2. cbn [selectedImage]. lia.
  - exact Hc.
  - exact Hc.
Qed.

Lemma carousel_fold_range images events c :
  (0 < List.length images)%nat ->
  0 <= selectedImage c < Z.of_nat (List.length images) ->
  0 <= selectedImage (fold_left (fun c e => carousel_event images e c) events c)
    < Z.of_nat (List.length images).
Proof.
  intros Hlen. revert c. induction events as [| e events IH]; intros c Hc.
  - exact Hc.
  - cbn [fold_left]. apply IH. apply carousel_event_range; assumption.
Qed.

(** The image shown by the product page exists: for every product, and
    whatever is clicked while it is the product shown, [selectedImage]
    is an index of the list of [getProductImages], so that
    [images[selectedImage]] is one of its entries. *)
Theorem selected_image_exists :
  forall (trim : string -> string) (product : option Product.t)
         (events : list CarouselEvent),
    let images := getProductImages trim product in
    let c := carousel_after images events in
    0 <= selectedImage c < Z.of_nat (List.length images) /\
    exists image, nth_error images (Z.to_nat (selectedImage c)) = Some image.
Proof.
  intros trim product events images c.
  assert (Hr : 0 <= selectedImage c < Z.of_nat (List.length images)).
  { apply carousel_fold_range.
    - apply getProductImages_length.
    - cbn [carousel_initial selectedImage].
      pose proof (getProductImages_length trim product). fold images in H. lia. }
  split; [exact Hr |].
  destruct (nth_error images (Z.to_nat (selectedImage c))) as [image |] eqn:E.
  - exists image. reflexivity.
  - apply nth_error_None in E. lia.
Qed.

(** The two arrows of the carousel undo each other: on a valid index,
    [prevImage] after [nextImage] and [nextImage] after [prevImage] both
    give the index back, and [nextImage] from the last image wraps to the
    first. *)
Theorem next_prev_inverse :
  forall n i : Z,
    0 < n -> 0 <= i < n ->
    prevImage n (nextImage n i) = i /\
    nextImage n (prevImage n i) = i /\
    nextImage n (n - 1) = 0.
Proof.
  intros n i Hn Hi.
  rewrite (nextImage_eq n i), (prevImage_eq n i), (nextImage_eq n (n - 1)) by lia.
  destruct (Z.eqb_spec (i + 1) n) as [E1 | E1];
    destruct (Z.eqb_spec i 0) as [E2 | E2];
    destruct (Z.eqb_spec (n - 1 + 1) n) as [E3 | E3]; try lia;
    rewrite prevImage_eq by lia; rewrite nextImage_eq by lia;
    repeat match goal with
           | |- context [?a =? ?b] => destruct (Z.eqb_spec a b)
           end; lia.
Qed.

Lemma next_prev_inverse_witness :
  prevImage 3 (nextImage 3 2) = 2 /\
  nextImage 3 (prevImage 3 2) = 2 /\
  nextImage 3 (3 - 1) = 0.
Proof. apply (next_prev_inverse 3 2); lia. Defined.

(** The image of a product card is one the product page shows too, or
    the placeholder: with and without a load error, [getProductImage]
    returns an entry of [getProductImages] or the placeholder address. *)
Theorem card_image_on_product_page :
  forall (trim : string -> string) (product : Product.t) (imageError : bool),
    let image := ProductCard.getProductImage trim product imageError in
    In image (getProductImages trim (Some product)) \/
    image = ProductCard.placeholder.
Proof.
  intros trim product imageError image. subst image.
  assert (Hfrom :
    forall l,
      let images :=
        match Product.image_url product with
        | Some image_url =>
            if ProductCard.truthy image_url
               && negb (existsb (String.eqb image_url) l)
            then image_url :: l else l
        | None => l
        end in
      incl l match images with [] => [placeholder] | _ => images end \/ l = []).
  { intros l images. subst images. destruct l as [| a l]; [right; reflexivity | left].
    destruct (Product.image_url product) as [u |].
    - destruct (_ && _); intros x Hx; [right; exact Hx | exact Hx].
    - intros x Hx; exact Hx. }
  assert (Hfirst :
    In match Product.images product with
       | Some (firstImage :: _) =>
           if ProductCard.non_blank trim firstImage then firstImage
           else ProductCard.placeholder
       | _ => ProductCard.placeholder
       end (getProductImages trim (Some product)) \/
    match Product.images product with
    | Some (firstImage :: _) =>
        if ProductCard.non_blank trim firstImage then firstImage
        else ProductCard.placeholder
    | _ => ProductCard.placeholder
    end = ProductCard.placeholder).
  { unfold getProductImages.
    destruct (Product.images product) as [[| firstImage rest] |];
      [right; reflexivity | | right; reflexivity].
    destruct (ProductCard.non_blank trim firstImage) eqn:E; [| right; reflexivity].
    left. cbn [filter]. rewrite E.
    destruct (Hfrom (firstImage :: filter (ProductCard.non_blank trim) rest)) as [H | H];
      [| discriminate H].
    apply H. left. reflexivity. }
  unfold ProductCard.getProductImage.
  destruct (Product.image_url product) as [u |] eqn:Eu; [| exact Hfirst].
  destruct (ProductCard.truthy u) eqn:Et; cbn [andb]; [| exact Hfirst].
  destruct imageError; cbn [negb]; [exact Hfirst |].
  left. unfold getProductImages. rewrite Eu, Et. cbn [andb].
  match goal with |- context [existsb (String.eqb u) ?l] =>
    destruct (existsb (String.eqb u) l) eqn:Ex; cbn [negb] end.
  - apply existsb_eqb_In in Ex.
    match type of Ex with In _ ?l => destruct l; [destruct Ex | exact Ex] end.
  - left. reflexivity.
Qed.

(** No image of a product has an empty address: when [trim] leaves the
    empty string empty, every entry of [getProductImages], and the image
    of [getProductImage], is a non-empty string. *)
Theorem image_sources_not_empty :
  forall (trim : string -> string) (product : Product.t) (imageError : bool),
    trim "" = "" ->
    Forall (fun image => image <> "") (getProductImages trim (Some product)) /\
    ProductCard.getProductImage trim product imageError <> "".
Proof.
  intros trim product imageError Htrim.
  assert (Hnb : forall s, ProductCard.non_blank trim s = true -> s <> "").
  { intros s H E. subst s. unfold ProductCard.non_blank in H.
    rewrite Htrim in H. discriminate H. }
  split.
  - unfold getProductImages.
    assert (Hf : forall l, Forall (fun image => image <> "")
                             (filter (ProductCard.non_blank trim) l)).
    { intros l. apply Forall_forall. intros x Hx.
      apply filter_In in Hx. apply Hnb, Hx. }
    assert (Hl : Forall (fun image => image <> "")
                   match Product.images product with
                   | Some l => filter (ProductCard.non_blank trim) l
                   | None => []
                   end).
    { destruct (Product.images product); [apply Hf | constructor]. }
    revert Hl. generalize (match Product.images product with
                           | Some l => filter (ProductCard.non_blank trim) l
                           | None => []
                           end).
    intros l Hl.
    destruct (Product.image_url product) as [u |].
    + destruct (ProductCard.truthy u) eqn:Et; cbn [andb].
      * destruct (existsb (String.eqb u) l); cbn [negb].
        -- destruct l; [repeat constructor; discriminate | exact Hl].
        -- constructor; [apply truthy_true, Et | exact Hl].
      * destruct l; [repeat constructor; discriminate | exact Hl].
    + destruct l; [repeat constructor; discriminate | exact Hl].
  - unfold ProductCard.getProductImage.
    assert (Hfrom :
      match Product.images product with
      | Some (firstImage :: _) =>
          if ProductCard.non_blank trim firstImage then firstImage
          else ProductCard.placeholder
      | _ => ProductCard.placeholder
      end <> "").
    { destruct (Product.images product) as [[| f r] |]; try discriminate.
      destruct (ProductCard.non_blank trim f) eqn:E; [apply Hnb, E | discriminate]. }
    destruct (Product.image_url product) as [u |]; [| exact Hfrom].
    destruct (ProductCard.truthy u) eqn:Et; cbn [andb]; [| exact Hfrom].
    destruct imageError; cbn [negb]; [exact Hfrom | apply truthy_true, Et].
Qed.

Lemma image_sources_not_empty_witness :
  Forall (fun image => image <> "")
    (getProductImages ascii_trim
       (Some (product_with_images (Some "") (Some ["  "; "a.jpg"])))) /\
  ProductCard.getProductImage ascii_trim
    (product_with_images (Some "") (Some ["  "; "a.jpg"])) false <> "".
Proof.
  apply (image_sources_not_empty ascii_trim
           (product_with_images (Some "") (Some ["  "; "a.jpg"])) false).
  reflexivity.
Defined.

Lemma quantity_click_range inventory_count c q :
  1 <= q <= Z.max 1 inventory_count ->
  1 <= quantity_click inventory_count c q <= Z.max 1 inventory_count.
Proof.
  intros Hq. destruct c; cbn [quantity_click].
  - unfold minus_disabled, minus. destruct (q <=? 1) eqn:E; [exact Hq |].
    apply Z.leb_gt in E. lia.
  - unfold plus_disabled, plus. destruct (inventory_count <=? q) eqn:E; [exact Hq |].
    apply Z.leb_gt in E. lia.
Qed.

Lemma quantity_fold_range inventory_count clicks q :
  1 <= q <= Z.max 1 inventory_count ->
  1 <= fold_left (fun q c => quantity_click inventory_count c q) clicks q
    <= Z.max 1 inventory_count.
Proof.
  revert q. induction clicks as [| c clicks IH]; intros q Hq.
  - exact Hq.
  - cbn [fold_left]. apply IH. apply quantity_click_range. exact Hq.
Qed.

(** The quantity of the product page stays between one and the stock:
    whatever is clicked, the quantity is at least 1, and at most
    [inventory_count] (at most 1 for a product without stock). *)
Theorem quantity_within_stock :
  forall (inventory_count : Z) (clicks : list QuantityClick),
    1 <= quantity_after inventory_count clicks <= Z.max 1 inventory_count.
Proof.
  intros inventory_count clicks. unfold quantity_after.
  apply quantity_fold_range. lia.
Qed.

End ProductDetailPageFacts.

(** ** Signing in, and coming back to the page that asked for it *)

Module LoginFlowFacts.
Import Supabase Eff.

(** The run of the login handler when [signIn] resolves. *)
Lemma handleSubmit_signed_in signIn from_pathname w :
  signIn (LoginPage.email w) (LoginPage.password w) = Returned tt ->
  LoginPage.handleSubmit signIn from_pathname w
  = (Returned tt,
     {| LoginPage.email := LoginPage.email w;
        LoginPage.password := LoginPage.password w;
        LoginPage.loading := false;
        LoginPage.error := "";
        LoginPage.navigated :=
          LoginPage.navigated w ++ [LoginPage.from from_pathname];
        LoginPage.console :=
          LoginPage.console w ++ [(LoginPage.email w, LoginPage.password w)] |}).
Proof.
  intros Hsign.
  unfold LoginPage.handleSubmit, try_finally, try_catch, bind,
    LoginPage.setLoading, LoginPage.setError, LoginPage.navigate,
    LoginPage.console_log, LoginPage.await_signIn, modify, get, ret, throw.
  cbn. rewrite Hsign. reflexivity.
Qed.

(** The run of the login handler when [signIn] throws. *)
Lemma handleSubmit_refused signIn from_pathname w e :
  signIn (LoginPage.email w) (LoginPage.password w) = Thrown e ->
  LoginPage.handleSubmit signIn from_pathname w
  = (Returned tt,
     {| LoginPage.email := LoginPage.email w;
        LoginPage.password := LoginPage.password w;
        LoginPage.loading := false;
        LoginPage.error :=
          if JS.opt_includes "Invalid login credentials" (message e)
          then LoginPage.credentials_message
          else if JS.opt_includes "Email not confirmed" (message e)
          then LoginPage.confirmation_message
          else JS.or_else (message e) "Failed to sign in";
        LoginPage.navigated := LoginPage.navigated w;
        LoginPage.console :=
          LoginPage.console w ++ [(LoginPage.email w, LoginPage.password w)] |}).
Proof.
  intros Hsign.
  unfold LoginPage.handleSubmit, try_finally, try_catch, bind,
    LoginPage.setLoading, LoginPage.setError, LoginPage.navigate,
    LoginPage.console_log, LoginPage.await_signIn, modify, get, ret, throw.
  cbn. rewrite Hsign.
  destruct (JS.opt_includes "Invalid login credentials" (message e));
    [reflexivity |].
  destruct (JS.opt_includes "Email not confirmed" (message e)); reflexivity.
Qed.

(** The login view navigates exactly when [signIn] resolves, and shows a
    message exactly when it does not: after a successful sign-in there is
    one more navigation, to the page the visitor came from or to
    [/dashboard], never to an empty path, and the message is empty; after
    a refused one there is no navigation and the message is not empty.
    Both times the handler returns, [loading] is off again, and the
    address and the password typed were written to the console. *)
Theorem login_navigates_iff_signed_in :
  forall (signIn : string -> string -> outcome unit)
         (from_pathname : option string) (w : LoginPage.World),
    let r := LoginPage.handleSubmit signIn from_pathname w in
    fst r = Returned tt /\
    LoginPage.loading (snd r) = false /\
    LoginPage.console (snd r)
    = LoginPage.console w ++ [(LoginPage.email w, LoginPage.password w)] /\
    match signIn (LoginPage.email w) (LoginPage.password w) with
    | Returned _ =>
        LoginPage.navigated (snd r)
        = LoginPage.navigated w ++ [LoginPage.from from_pathname] /\
        LoginPage.from from_pathname <> "" /\
        LoginPage.error (snd r) = ""
    | Thrown _ =>
        LoginPage.navigated (snd r) = LoginPage.navigated w /\
        LoginPage.error (snd r) <> ""
    end.
Proof.
  intros signIn from_pathname w r. subst r.
  destruct (signIn (LoginPage.email w) (LoginPage.password w)) as [[] | e] eqn:Hsign.
  - rewrite (handleSubmit_signed_in _ _ _ Hsign). cbn.
    split; [reflexivity |]. split; [reflexivity |]. split; [reflexivity |].
    split; [reflexivity |]. split; [| reflexivity].
    apply JSFacts.or_else_nonempty. discriminate.
  - rewrite (handleSubmit_refused _ _ _ _ Hsign). cbn.
    split; [reflexivity |]. split; [reflexivity |]. split; [reflexivity |].
    split; [reflexivity |].
    destruct (JS.opt_includes "Invalid login credentials" (message e));
      [discriminate |].
    destruct (JS.opt_includes "Email not confirmed" (message e));
      [discriminate |].
    apply JSFacts.or_else_nonempty. discriminate.
Qed.

(** Buying now without a session leads back to the product: the product
    page adds nothing to the cart and navigates once, to [/login], and a
    successful sign-in there navigates to the path of the product. *)
Theorem buy_now_signed_out_comes_back :
  forall (product : Product.t) (id : option string) (quantity : Z)
         (trace : ProductDetailPage.World)
         (signIn : string -> string -> outcome unit) (w : LoginPage.World),
    signIn (LoginPage.email w) (LoginPage.password w) = Returned tt ->
    ProductDetailPage.handleBuyNow (Some product) None id quantity trace
    = (Returned tt,
       trace ++ [ProductDetailPage.Navigate "/login"
                   (Some (ProductDetailPage.product_path id))]) /\
    LoginPage.navigated
      (snd (LoginPage.handleSubmit signIn
              (Some (ProductDetailPage.product_path id)) w))
    = LoginPage.navigated w ++ [ProductDetailPage.product_path id].
Proof.
  intros product id quantity trace signIn w Hsign.
  split; [reflexivity |].
  rewrite (handleSubmit_signed_in _ _ _ Hsign).
  cbn [snd LoginPage.navigated]. reflexivity.
Qed.

Lemma buy_now_signed_out_comes_back_witness :
  ProductDetailPage.handleBuyNow
    (Some (ProductDetailPageProps.product_with_images None None)) None
    (Some "p1") 2 []
  = (Returned tt, [ProductDetailPage.Navigate "/login" (Some "/products/p1")]) /\
  LoginPage.navigated
    (snd (LoginPage.handleSubmit (fun _ _ => Returned tt) (Some "/products/p1")
            LoginPageProps.login_attempt))
  = ["/products/p1"].
Proof.
  exact (buy_now_signed_out_comes_back
           (ProductDetailPageProps.product_with_images None None)
           (Some "p1") 2 [] (fun _ _ => Returned tt)
           LoginPageProps.login_attempt eq_refl).
Defined.

End LoginFlowFacts.

(** ** Row-level policies *)

Module PoliciesFacts.
Import Policies PoliciesProps.

Lemma uid_is_refl uid : uid_is (Some uid) uid = true.
Proof. apply String.eqb_refl. Qed.

(** The four migrations go through on [profiles], and leave these
    policies. *)
Lemma profiles_security_policies :
  run (long_frost_profiles ++ misty_recipe ++ gentle_shore ++ royal_darkness)
    created
  = Some profiles_security /\
  row_level_security profiles_security = true /\
  map policy_name (policies profiles_security)
  = [ "Enable insert for authenticated users during registration";
      "Users can view own profile";
      "Users can update own profile";
      "Users can delete own profile" ].
Proof. split; [reflexivity |]. split; reflexivity. Qed.

Lemma select_visible_profile s db p :
  select_visible profiles_security s db p
  = signed_in s && uid_is s (Profile.id p).
Proof.
  unfold select_visible, passes_using. cbn.
  destruct s; cbn; rewrite ?orb_false_r; reflexivity.
Qed.

Lemma update_target_profile s db reads p :
  update_target profiles_security s db reads p
  = signed_in s && uid_is s (Profile.id p).
Proof.
  unfold update_target, passes_using. cbn.
  destruct s, reads; cbn; rewrite ?orb_false_r, ?andb_true_r, ?andb_diag;
    reflexivity.
Qed.

Lemma update_check_profile s db reads p :
  update_check profiles_security s db reads p
  = signed_in s && uid_is s (Profile.id p).
Proof.
  unfold update_check, passes_check, passes_using. cbn.
  destruct s, reads; cbn; rewrite ?orb_false_r, ?andb_true_r, ?andb_diag;
    reflexivity.
Qed.

(** The last migration widens what may be inserted in [profiles]: up to
    it a signed-in user may insert the row of their own id only; after
    it, an insert that reads nothing back may bring any row, under any
    id and with any role, and one that reads the row back is still held
    to the own id.  A request without a session inserts nothing. *)
Theorem profile_insert_widened :
  forall (uid : string) (db : Database) (reads : bool) (row : Profile.t),
    run (long_frost_profiles ++ misty_recipe ++ gentle_shore ++ royal_darkness)
      created <> None /\
    insert_allowed profiles_before_royal_darkness (Some uid) db reads row
    = String.eqb uid (Profile.id row) /\
    insert_allowed profiles_security (Some uid) db reads row
    = (negb reads || String.eqb uid (Profile.id row)) /\
    insert_allowed profiles_before_royal_darkness None db reads row = false /\
    insert_allowed profiles_security None db reads row = false.
Proof.
  intros uid db reads row.
  split; [discriminate |].
  unfold insert_allowed, passes_check, passes_using. cbn.
  destruct reads; cbn;
    rewrite ?orb_false_r, ?andb_true_r, ?andb_diag;
    repeat split; reflexivity.
Qed.

Lemma is_admin_spec uid db :
  is_admin (Some uid) db = true <->
  exists p, In p (profiles db) /\ Profile.id p = uid /\ Profile.role p = Some "admin".
Proof.
  unfold is_admin. rewrite existsb_exists. split.
  - intros (p & Hin & H). exists p.
    apply andb_true_iff in H. destruct H as [H Hr].
    apply andb_true_iff in H. destruct H as [_ Hu].
    cbn in Hu. apply String.eqb_eq in Hu.
    destruct (Profile.role p) as [r |]; [| discriminate Hr].
    apply String.eqb_eq in Hr. subst r. auto.
  - intros (p & Hin & Hu & Hr). exists p. split; [exact Hin |].
    rewrite select_visible_profile, Hr. cbn. subst uid.
    rewrite String.eqb_refl. reflexivity.
Qed.

(** Who is an administrator may do everything on [products] and
    [categories]. *)
Lemma admin_manages_catalog s db (c : Command) reads
    (product : Product.t) (category : Category.t) :
  is_admin s db = true ->
  passes_using products_security s db c product = true /\
  passes_check products_security s db c product = true /\
  passes_using categories_security s db c category = true /\
  passes_check categories_security s db c category = true /\
  insert_allowed products_security s db reads product = true /\
  update_target products_security s db reads product = true /\
  update_check products_security s db reads product = true /\
  delete_target products_security s db reads product = true.
Proof.
  intros Hadmin.
  assert (Hs : signed_in s = true).
  { destruct s; [reflexivity |]. unfold is_admin in Hadmin.
    apply existsb_exists in Hadmin. destruct Hadmin as (p & _ & H).
    rewrite select_visible_profile in H. discriminate H. }
  unfold insert_allowed, update_target, update_check, delete_target,
    passes_using, passes_check. cbn.
  rewrite Hadmin, Hs. cbn. rewrite !orb_true_r.
  destruct c, reads; cbn; rewrite ?orb_true_r; repeat split; reflexivity.
Qed.

(** The policies of [profiles] let a signed-in user write the role of
    their own row: the update of the own row to the role [admin] passes
    the policies and the [CHECK] of the column, and with the row it
    leaves the user passes the administrator policies of [products] and
    [categories], for every command and every row. *)
Theorem own_profile_update_gives_admin :
  forall (db : Database) (uid : string) (p : Profile.t),
    In p (profiles db) ->
    Profile.id p = uid ->
    Schema.value_accepted Tables.profiles_role (Schema.TextV "admin") = true /\
    exists db',
      update_role (Some uid) db uid "admin" = Some db' /\
      In (with_role "admin" p) (profiles db') /\
      is_admin (Some uid) db' = true /\
      forall (c : Command) (product : Product.t) (category : Category.t),
        passes_using products_security (Some uid) db' c product = true /\
        passes_check products_security (Some uid) db' c product = true /\
        passes_using categories_security (Some uid) db' c category = true /\
        passes_check categories_security (Some uid) db' c category = true.
Proof.
  intros db uid p Hin Hid.
  split; [reflexivity |].
  assert (Hall :
    forallb
      (fun q =>
         negb (String.eqb (Profile.id q) uid &&
               update_target profiles_security (Some uid) db true q) ||
         update_check profiles_security (Some uid) db true (with_role "admin" q))
      (profiles db) = true).
  { apply forallb_forall. intros q _.
    rewrite update_target_profile, update_check_profile. cbn.
    rewrite (String.eqb_sym uid).
    destruct (String.eqb (Profile.id q) uid); reflexivity. }
  unfold update_role. rewrite Hall.
  eexists. split; [reflexivity |].
  assert (Hin' :
    In (with_role "admin" p)
      (map (fun q =>
              if String.eqb (Profile.id q) uid &&
                 update_target profiles_security (Some uid) db true q
              then with_role "admin" q else q)
         (profiles db))).
  { apply in_map_iff. exists p. split; [| exact Hin].
    rewrite update_target_profile. cbn. rewrite Hid, String.eqb_refl.
    reflexivity. }
  split; [exact Hin' |].
  assert (Hadmin :
    is_admin (Some uid)
      {| profiles :=
           map (fun q =>
                  if String.eqb (Profile.id q) uid &&
                     update_target profiles_security (Some uid) db true q
                  then with_role "admin" q else q)
             (profiles db);
         orders := orders db |} = true).
  { apply is_admin_spec. exists (with_role "admin" p).
    split; [exact Hin' |]. split; [exact Hid | reflexivity]. }
  split; [exact Hadmin |].
  intros c product category.
  destruct (admin_manages_catalog _ _ c true product category Hadmin)
    as (H1 & H2 & H3 & H4 & _).
  repeat split; assumption.
Qed.

Lemma own_profile_update_gives_admin_witness :
  Schema.value_accepted Tables.profiles_role (Schema.TextV "admin") = true /\
  exists db',
    update_role (Some "u1")
      {| profiles := [customer_profile "u1"; customer_profile "u2"]; orders := [] |}
      "u1" "admin" = Some db' /\
    In (with_role "admin" (customer_profile "u1")) (profiles db') /\
    is_admin (Some "u1") db' = true /\
    forall (c : Command) (product : Product.t) (category : Category.t),
      passes_using products_security (Some "u1") db' c product = true /\
      passes_check products_security (Some "u1") db' c product = true /\
      passes_using categories_security (Some "u1") db' c category = true /\
      passes_check categories_security (Some "u1") db' c category = true.
Proof.
  apply (own_profile_update_gives_admin
           {| profiles := [customer_profile "u1"; customer_profile "u2"];
              orders := [] |}
           "u1" (customer_profile "u1")).
  - left. reflexivity.
  - reflexivity.
Defined.

Lemma is_admin_signed_in s db : is_admin s db = true -> signed_in s = true.
Proof.
  intros Hadmin. destruct s; [reflexivity |]. unfold is_admin in Hadmin.
  apply existsb_exists in Hadmin. destruct Hadmin as (p & _ & H).
  rewrite select_visible_profile in H. discriminate H.
Qed.

Lemma delete_target_product s db (p : Product.t) :
  delete_target products_security s db true p = is_admin s db.
Proof.
  unfold delete_target, passes_using. cbn.
  destruct (is_admin s db) eqn:Hadmin.
  - rewrite (is_admin_signed_in _ _ Hadmin). cbn. rewrite !orb_true_r. reflexivity.
  - rewrite !andb_false_r. reflexivity.
Qed.

Lemma cascade_one_product productId (products : list Product.t)
    (items : list CheckoutPage.OrderItemInsert) :
  cascade_products
    (filter (fun p => String.eqb (Product.id p) productId) products) items
  = if existsb (fun p => String.eqb (Product.id p) productId) products
    then filter (fun i => negb (String.eqb (CheckoutPage.product_id i) productId))
           items
    else items.
Proof.
  unfold cascade_products.
  assert (H : forall i,
    existsb (fun p => String.eqb (Product.id p) (CheckoutPage.product_id i))
      (filter (fun p => String.eqb (Product.id p) productId) products)
    = String.eqb (CheckoutPage.product_id i) productId
      && existsb (fun p => String.eqb (Product.id p) productId) products).
  { intros i. induction products as [| p products IH]; cbn.
    - rewrite andb_false_r. reflexivity.
    - destruct (String.eqb (Product.id p) productId) eqn:E; cbn.
      + rewrite IH. apply String.eqb_eq in E. rewrite E.
        rewrite (String.eqb_sym productId).
        destruct (String.eqb (CheckoutPage.product_id i) productId); reflexivity.
      + exact IH. }
  destruct (existsb (fun p => String.eqb (Product.id p) productId) products).
  - apply filter_ext. intros i. rewrite H, andb_true_r. reflexivity.
  - transitivity (filter (fun _ => true) items).
    + apply filter_ext. intros i. rewrite H, andb_false_r. reflexivity.
    + induction items as [| i items IH]; [reflexivity |]. cbn. rewrite IH.
      reflexivity.
Qed.

(** No statement addressed to [orders] or [order_items] changes or
    removes a row: whoever asks, an administrator included, an [UPDATE]
    or a [DELETE] on one of the two tables works on no row.  Order items
    go with their product all the same: the delete of a product in the
    session of an administrator removes, by the reference of
    [order_items.product_id], exactly the order items of that product,
    and in any other session it removes none. *)
Theorem orders_changed_by_cascade_not_statements :
  forall (s : Session) (db : Database) (reads : bool)
         (order : Order.t) (item : CheckoutPage.OrderItemInsert)
         (productId : string) (products : list Product.t)
         (items : list CheckoutPage.OrderItemInsert),
    update_target orders_security s db reads order = false /\
    delete_target orders_security s db reads order = false /\
    update_target order_items_security s db reads item = false /\
    delete_target order_items_security s db reads item = false /\
    snd (delete_product s db productId products items)
    = if is_admin s db
         && existsb (fun p => String.eqb (Product.id p) productId) products
      then filter
             (fun i => negb (String.eqb (CheckoutPage.product_id i) productId))
             items
      else items.
Proof.
  intros s db reads order item productId products items.
  split; [| split; [| split; [| split]]];
    try (unfold update_target, delete_target, passes_using; cbn; reflexivity).
  unfold delete_product. cbn [snd].
  rewrite (filter_ext
             (fun p => String.eqb (Product.id p) productId
                       && delete_target products_security s db true p)
             (fun p => String.eqb (Product.id p) productId && is_admin s db))
    by (intros p; rewrite delete_target_product; reflexivity).
  destruct (is_admin s db); cbn [andb].
  - rewrite (filter_ext _ (fun p => String.eqb (Product.id p) productId))
      by (intros p; apply andb_true_r).
    apply cascade_one_product.
  - rewrite (filter_ext _ (fun _ : Product.t => false))
      by (intros p; apply andb_false_r).
    replace (filter (fun _ : Product.t => false) products) with (@nil Product.t)
      by (induction products as [| p l IH]; [reflexivity | exact IH]).
    unfold cascade_products. cbn [existsb negb].
    induction items as [| i items IH]; [reflexivity |]. cbn. rewrite IH.
    reflexivity.
Qed.

Lemma select_visible_own_order uid db order :
  Order.user_id order = uid ->
  select_visible orders_security (Some uid) db order = true.
Proof.
  intros H. unfold select_visible, passes_using. cbn.
  rewrite H, String.eqb_refl. reflexivity.
Qed.

(** The two inserts of a checkout pass the policies: the order carries
    the id of the user of the session, so that its insert, which reads
    the row back, is accepted, while the same row sent in the session of
    another user is refused; and once the order is stored, each of its
    items is accepted. *)
Theorem checkout_inserts_pass_policies :
  forall (u : User.t) (formData : CheckoutPage.FormData) (total : Z)
         (db : Database) (order : Order.t) (l : list CartStore.CartItem),
    Order.user_id order
    = CheckoutPage.user_id (CheckoutPage.order_row u formData total) ->
    In order (orders db) ->
    insert_allowed orders_security (Some (User.id u)) db true order = true /\
    (forall other,
       other <> User.id u ->
       insert_allowed orders_security (Some other) db true order = false) /\
    Forall
      (fun i => insert_allowed order_items_security (Some (User.id u)) db false i
                = true)
      (CheckoutPage.orderItems order l).
Proof.
  intros u formData total db order l Huser Hin.
  cbn in Huser.
  split; [| split].
  - unfold insert_allowed, passes_check, passes_using. cbn.
    rewrite Huser, String.eqb_refl. reflexivity.
  - intros other Hother.
    unfold insert_allowed, passes_check. cbn.
    rewrite Huser.
    apply String.eqb_neq in Hother. rewrite Hother. reflexivity.
  - apply Forall_forall. intros i Hi.
    unfold CheckoutPage.orderItems in Hi. apply in_map_iff in Hi.
    destruct Hi as (item & <- & _).
    unfold insert_allowed, passes_check. cbn.
    rewrite orb_false_r, andb_true_r.
    unfold item_of_own_order. apply existsb_exists.
    exists order. split; [exact Hin |].
    rewrite (select_visible_own_order _ _ _ Huser). cbn.
    rewrite Huser, !String.eqb_refl. reflexivity.
Qed.

Lemma checkout_inserts_pass_policies_witness :
  insert_allowed orders_security (Some (User.id CheckoutPageProps.customer))
    {| profiles := [];
       orders := [sample_order "o1" (User.id CheckoutPageProps.customer)] |}
    true (sample_order "o1" (User.id CheckoutPageProps.customer)) = true /\
  (forall other,
     other <> User.id CheckoutPageProps.customer ->
     insert_allowed orders_security (Some other)
       {| profiles := [];
          orders := [sample_order "o1" (User.id CheckoutPageProps.customer)] |}
       true (sample_order "o1" (User.id CheckoutPageProps.customer)) = false) /\
  Forall
    (fun i =>
       insert_allowed order_items_security (Some (User.id CheckoutPageProps.customer))
         {| profiles := [];
            orders := [sample_order "o1" (User.id CheckoutPageProps.customer)] |}
         false i = true)
    (CheckoutPage.orderItems (sample_order "o1" (User.id CheckoutPageProps.customer))
       [{| CartStore.product := CartStoreProps.ProductA; CartStore.quantity := 2%Z |}]).
Proof.
  apply (checkout_inserts_pass_policies CheckoutPageProps.customer
           CheckoutPageProps.checkout_form 0%Z).
  - reflexivity.
  - left. reflexivity.
Defined.

(** Without the role of administrator the catalog can only be read: a
    request of someone who is no administrator, signed in or not, sees
    every category and the active products only, and inserts, updates
    and deletes nothing in [products] and [categories]. *)
Theorem catalog_writes_need_admin :
  forall (s : Session) (db : Database) (reads : bool)
         (product : Product.t) (category : Category.t),
    is_admin s db = false ->
    select_visible products_security s db product = Product.is_active product /\
    select_visible categories_security s db category = true /\
    insert_allowed products_security s db reads product = false /\
    update_target products_security s db reads product = false /\
    delete_target products_security s db reads product = false /\
    insert_allowed categories_security s db reads category = false /\
    update_target categories_security s db reads category = false /\
    delete_target categories_security s db reads category = false.
Proof.
  intros s db reads product category Hadmin.
  unfold select_visible, insert_allowed, update_target, delete_target,
    passes_using, passes_check. cbn.
  rewrite Hadmin.
  destruct (signed_in s), reads, (Product.is_active product); cbn;
    repeat split; reflexivity.
Qed.

Lemma catalog_writes_need_admin_witness :
  let db := {| profiles := [customer_profile "u1"]; orders := [] |} in
  select_visible products_security (Some "u1") db CartStoreProps.ProductA
  = Product.is_active CartStoreProps.ProductA /\
  select_visible categories_security (Some "u1") db sample_category
  = true /\
  insert_allowed products_security (Some "u1") db true CartStoreProps.ProductA
  = false /\
  update_target products_security (Some "u1") db true CartStoreProps.ProductA
  = false /\
  delete_target products_security (Some "u1") db true CartStoreProps.ProductA
  = false /\
  insert_allowed categories_security (Some "u1") db true sample_category
  = false /\
  update_target categories_security (Some "u1") db true sample_category
  = false /\
  delete_target categories_security (Some "u1") db true sample_category
  = false.
Proof.
  apply (catalog_writes_need_admin (Some "u1")
           {| profiles := [customer_profile "u1"]; orders := [] |} true
           CartStoreProps.ProductA sample_category).
  reflexivity.
Defined.

End PoliciesFacts.

(** ** The pages of the administrator *)

Module AdminFacts.
Import Supabase Eff Policies AdminProps.
Local Open Scope Z_scope.

(** *** The stable sort *)

Lemma insert_by_perm {A} (compare : A -> A -> Z) x l :
  Permutation (x :: l) (AdminProfilePage.insert_by compare x l).
Proof.
  induction l as [| y l IH]; cbn [AdminProfilePage.insert_by].
  - apply Permutation_refl.
  - destruct (compare x y <=? 0); [apply Permutation_refl |].
    eapply perm_trans; [apply perm_swap |]. apply perm_skip. exact IH.
Qed.

Lemma sort_perm {A} (compare : A -> A -> Z) l :
  Permutation l (AdminProfilePage.sort compare l).
Proof.
  induction l as [| x l IH]; cbn.
  - apply Permutation_refl.
  - eapply perm_trans; [apply perm_skip, IH |]. apply insert_by_perm.
Qed.

Section ByTime.

Context {A : Type}.
Variable time : A -> Z.

Lemma insert_by_descending x l :
  descending time l ->
  descending time (AdminProfilePage.insert_by (newest_first time) x l).
Proof.
  induction l as [| y l IH]; intros Hl; cbn [AdminProfilePage.insert_by].
  - exact I.
  - destruct (newest_first time x y <=? 0) eqn:E.
    + apply Z.leb_le in E. unfold newest_first in E.
      split; [lia | exact Hl].
    + apply Z.leb_gt in E. unfold newest_first in E.
      destruct l as [| z l].
      * cbn. split; [lia | exact I].
      * destruct Hl as [Hzy Hl]. specialize (IH Hl).
        cbn [AdminProfilePage.insert_by] in *.
        destruct (newest_first time x z <=? 0).
        -- split; [lia | exact IH].
        -- split; [exact Hzy | exact IH].
Qed.

Lemma sort_descending l :
  descending time (AdminProfilePage.sort (newest_first time) l).
Proof.
  induction l as [| x l IH]; cbn; [exact I |].
  apply insert_by_descending. exact IH.
Qed.

Lemma descending_head x l :
  descending time (x :: l) -> forall y, In y l -> time y <= time x.
Proof.
  revert x. induction l as [| z l IH]; intros x H y Hy; [destruct Hy |].
  destruct H as [Hzx Hl]. destruct Hy as [<- | Hy]; [exact Hzx |].
  specialize (IH z Hl y Hy). lia.
Qed.

Lemma descending_tail x l : descending time (x :: l) -> descending time l.
Proof. destruct l; [intros _; exact I | intros [_ H]; exact H]. Qed.

Lemma in_skipn n (l : list A) y : In y (skipn n l) -> In y l.
Proof.
  revert l. induction n as [| n IH]; intros l H; [exact H |].
  destruct l as [| a l]; [exact H |]. right. apply IH. exact H.
Qed.

Lemma descending_split n l :
  descending time l ->
  descending time (firstn n l) /\
  forall x y, In x (firstn n l) -> In y (skipn n l) -> time y <= time x.
Proof.
  revert l. induction n as [| n IH]; intros l Hl.
  - split; [exact I | intros x y []].
  - destruct l as [| a l]; [split; [exact I | intros x y []] |].
    destruct (IH l (descending_tail _ _ Hl)) as [Hd Hle].
    cbn [firstn skipn]. split.
    + destruct l as [| b l]; [destruct n; exact I |].
      destruct n; [exact I |]. cbn [firstn] in *.
      split; [apply Hl | exact Hd].
    + intros x y [<- | Hx] Hy.
      * apply (descending_head _ _ Hl). apply (in_skipn n). exact Hy.
      * apply Hle; assumption.
Qed.

End ByTime.

(** The five orders of the recent activity are the newest ones, newest
    first: the list holds five orders, or all of them when there are
    fewer, in descending order of their creation time, and every order
    it leaves out is no newer than each one it shows. *)
Theorem recent_activity_newest_five :
  forall (getTime : string -> Z)
         (number : Type) (plus : number -> number -> number) (zero : number)
         (to_number : Z -> number)
         (productsResponse : Response (list Product.t))
         (ordersResponse : Response (list Order.t))
         (customersResponse : Response (list Profile.t)),
    let time := fun o => getTime (Order.created_at o) in
    let orders := AdminProfilePage.data_or_empty ordersResponse in
    let recent :=
      AdminProfilePage.recentActivity
        (AdminProfilePage.fetchAdminStats getTime plus zero to_number
           productsResponse ordersResponse customersResponse) in
    List.length recent = Nat.min 5 (List.length orders) /\
    descending time recent /\
    exists rest,
      Permutation (recent ++ rest) orders /\
      forall x y, In x recent -> In y rest -> time y <= time x.
Proof.
  intros getTime number plus zero to_number
    productsResponse ordersResponse customersResponse time orders recent.
  set (sorted := AdminProfilePage.sort (newest_first time) orders).
  assert (Hrecent : recent = firstn 5 sorted) by reflexivity.
  assert (Hperm : Permutation orders sorted) by apply sort_perm.
  assert (Hdesc : descending time sorted) by apply sort_descending.
  destruct (descending_split time 5 sorted Hdesc) as [Hd Hle].
  rewrite Hrecent. split; [| split].
  - rewrite length_firstn. rewrite <- (Permutation_length Hperm). reflexivity.
  - exact Hd.
  - exists (skipn 5 sorted). split; [| exact Hle].
    rewrite firstn_skipn. apply Permutation_sym. exact Hperm.
Qed.

(** *** The counts under the policies *)

Lemma filter_all {A} (f : A -> bool) l :
  (forall x, In x l -> f x = true) -> filter f l = l.
Proof.
  induction l as [| a l IH]; intros H; [reflexivity |].
  cbn. rewrite (H a) by (left; reflexivity).
  rewrite IH; [reflexivity |]. intros x Hx. apply H. right. exact Hx.
Qed.

Lemma filter_none {A} (f : A -> bool) l :
  (forall x, In x l -> f x = false) -> filter f l = [].
Proof.
  induction l as [| a l IH]; intros H; [reflexivity |].
  cbn. rewrite (H a) by (left; reflexivity).
  apply IH. intros x Hx. apply H. right. exact Hx.
Qed.

Lemma same_id_same_profile (l : list Profile.t) p q :
  NoDup (map Profile.id l) -> In p l -> In q l ->
  Profile.id p = Profile.id q -> p = q.
Proof.
  induction l as [| a l IH]; intros Hnd Hp Hq E; [destruct Hp |].
  cbn in Hnd. inversion Hnd as [| ? ? Hnotin Hnd']; subst.
  destruct Hp as [-> | Hp], Hq as [-> | Hq].
  - reflexivity.
  - exfalso. apply Hnotin. rewrite E. apply in_map. exact Hq.
  - exfalso. apply Hnotin. rewrite <- E. apply in_map. exact Hp.
  - apply IH; assumption.
Qed.

(** What the profile page of an administrator counts, when the platform
    answers by the policies: every product and every order is counted,
    the revenue is the sum the host makes, from zero and from left to
    right, of the amounts of all orders in the order of the table,
    whatever their status, and the number of customers is zero, since
    the only row of [profiles] an administrator may read is their own. *)
Theorem admin_stats_count_no_customers :
  forall (getTime : string -> Z)
         (number : Type) (plus : number -> number -> number) (zero : number)
         (to_number : Z -> number)
         (uid : string) (db : Database) (products : list Product.t),
    NoDup (map Profile.id (profiles db)) ->
    is_admin (Some uid) db = true ->
    let stats :=
      AdminProfilePage.fetchAdminStats getTime plus zero to_number
        (select_rows products_security (Some uid) db products)
        (select_rows orders_security (Some uid) db (orders db))
        (select_customers (Some uid) db) in
    AdminProfilePage.totalCustomers stats = 0%nat /\
    AdminProfilePage.totalProducts stats = List.length products /\
    AdminProfilePage.totalOrders stats = List.length (orders db) /\
    AdminProfilePage.totalRevenue stats
    = fold_left
        (fun sum order => plus sum (to_number (Order.total_amount order)))
        (orders db) zero.
Proof.
  intros getTime number plus zero to_number uid db products Hkey Hadmin stats.
  subst stats.
  assert (Hproducts :
    filter (select_visible products_security (Some uid) db) products = products).
  { apply filter_all. intros x _.
    unfold select_visible, passes_using. cbn. rewrite Hadmin.
    rewrite !orb_true_r. reflexivity. }
  assert (Horders :
    filter (select_visible orders_security (Some uid) db) (orders db) = orders db).
  { apply filter_all. intros x _.
    unfold select_visible, passes_using. cbn. rewrite Hadmin.
    rewrite !orb_true_r. reflexivity. }
  assert (Hcustomers :
    filter is_customer
      (filter (select_visible profiles_security (Some uid) db) (profiles db)) = []).
  { apply filter_none. intros q Hq. apply filter_In in Hq.
    destruct Hq as [Hq Hvis].
    rewrite PoliciesFacts.select_visible_profile in Hvis. cbn in Hvis.
    apply String.eqb_eq in Hvis.
    apply PoliciesFacts.is_admin_spec in Hadmin.
    destruct Hadmin as (p & Hp & Hid & Hrole).
    assert (E : p = q).
    { apply (same_id_same_profile (profiles db)); try assumption. congruence. }
    subst q. unfold is_customer. rewrite Hrole. reflexivity. }
  unfold AdminProfilePage.fetchAdminStats, select_rows, select_customers.
  cbn [AdminProfilePage.data_or_empty AdminProfilePage.totalCustomers
       AdminProfilePage.totalProducts AdminProfilePage.totalOrders
       AdminProfilePage.totalRevenue].
  rewrite Hproducts, Horders, Hcustomers.
  repeat split; reflexivity.
Qed.

Lemma admin_stats_count_no_customers_witness :
  let db :=
    {| profiles := [PoliciesProps.with_role "admin" (PoliciesProps.customer_profile "u1");
                    PoliciesProps.customer_profile "u2"];
       orders := [order_at "o1" "2025-07-05T10:42:31Z" 1999;
                  order_at "o2" "2025-07-06T08:00:00Z" 500] |} in
  let stats :=
    AdminProfilePage.fetchAdminStats day_of Z.add 0 (fun u => u)
      (select_rows products_security (Some "u1") db [CartStoreProps.ProductA])
      (select_rows orders_security (Some "u1") db (orders db))
      (select_customers (Some "u1") db) in
  AdminProfilePage.totalCustomers stats = 0%nat /\
  AdminProfilePage.totalProducts stats = List.length [CartStoreProps.ProductA] /\
  AdminProfilePage.totalOrders stats = List.length (orders db) /\
  AdminProfilePage.totalRevenue stats
  = fold_left (fun sum order => sum + Order.total_amount order) (orders db) 0.
Proof.
  apply (admin_stats_count_no_customers day_of Z Z.add 0 (fun u => u) "u1"
           {| profiles := [PoliciesProps.with_role "admin"
                             (PoliciesProps.customer_profile "u1");
                           PoliciesProps.customer_profile "u2"];
              orders := [order_at "o1" "2025-07-05T10:42:31Z" 1999;
                         order_at "o2" "2025-07-06T08:00:00Z" 500] |}
           [CartStoreProps.ProductA]).
  - cbn. repeat constructor; cbn; intuition discriminate.
  - reflexivity.
Defined.

(** *** The administration page *)





(** What the column [status] of [orders] accepts, and the colour each
    gets on the profile pages: the column accepts no status at all
    ([NULL]) and the five statuses of its [CHECK], nothing else; the
    five have each a colour of their own, and the row without a status
    is the only one shown in the gray of the default case.  The status a
    checkout writes is one of the five. *)
Theorem order_status_colours :
  forall (v1 v2 : Schema.SqlValue) (u : User.t)
         (formData : CheckoutPage.FormData) (total : Z),
    Schema.value_accepted Tables.orders_status v1 = true ->
    Schema.value_accepted Tables.orders_status v2 = true ->
    (v1 = Schema.Null \/ exists s, v1 = Schema.TextV s /\ In s statuses) /\
    (AdminProfilePage.getStatusColor (status_of v1) = "bg-gray-100 text-gray-800"
     <-> v1 = Schema.Null) /\
    (AdminProfilePage.getStatusColor (status_of v1)
     = AdminProfilePage.getStatusColor (status_of v2) -> v1 = v2) /\
    Schema.value_accepted Tables.orders_status Schema.Null = true /\
    In (CheckoutPage.status (CheckoutPage.order_row u formData total)) statuses /\
    Schema.value_accepted Tables.orders_status
      (Schema.TextV (CheckoutPage.status (CheckoutPage.order_row u formData total)))
    = true.
Proof.
  intros v1 v2 u formData total H1 H2.
  assert (Hin : forall v,
    Schema.value_accepted Tables.orders_status v = true ->
    v = Schema.Null \/ exists s, v = Schema.TextV s /\ In s statuses).
  { intros v H. destruct v as [| | t | | | | | |]; try discriminate H.
    - left. reflexivity.
    - right. exists t. split; [reflexivity |].
      unfold Schema.value_accepted in H.
      cbn [Schema.has_type Schema.column_type Tables.orders_status Schema.check
           andb Tables.one_of] in H.
      apply existsb_exists in H.
      destruct H as (x & Hx & E). apply String.eqb_eq in E. subst x. exact Hx. }
  apply Hin in H1. apply Hin in H2.
  split; [exact H1 |].
  split; [| split; [| split; [reflexivity | split; [| reflexivity]]]].
  - destruct H1 as [-> | (s1 & -> & H1)].
    + split; reflexivity.
    + unfold statuses in H1. cbn [In] in H1.
      split; [| discriminate].
      intros Hc. exfalso.
      repeat (destruct H1 as [<- | H1]; [cbn in Hc; discriminate Hc |]).
      destruct H1.
  - destruct H1 as [-> | (s1 & -> & H1)]; destruct H2 as [-> | (s2 & -> & H2)];
      unfold statuses in *; cbn [In] in *.
    + reflexivity.
    + intros Hc. exfalso.
      repeat (destruct H2 as [<- | H2]; [cbn in Hc; discriminate Hc |]).
      destruct H2.
    + intros Hc. exfalso.
      repeat (destruct H1 as [<- | H1]; [cbn in Hc; discriminate Hc |]).
      destruct H1.
    + repeat (destruct H1 as [<- | H1];
              [repeat (destruct H2 as [<- | H2];
                       [cbn; first [reflexivity | discriminate] |]);
               destruct H2 |]).
      destruct H1.
  - cbn. left. reflexivity.
Qed.

Lemma order_status_colours_witness :
  (Schema.TextV "shipped" = Schema.Null \/
   exists s, Schema.TextV "shipped" = Schema.TextV s /\ In s statuses) /\
  (AdminProfilePage.getStatusColor (status_of (Schema.TextV "shipped"))
   = "bg-gray-100 text-gray-800"
   <-> Schema.TextV "shipped" = Schema.Null) /\
  (AdminProfilePage.getStatusColor (status_of (Schema.TextV "shipped"))
   = AdminProfilePage.getStatusColor (status_of Schema.Null) ->
   Schema.TextV "shipped" = Schema.Null) /\
  Schema.value_accepted Tables.orders_status Schema.Null = true /\
  In (CheckoutPage.status
        (CheckoutPage.order_row CheckoutPageProps.customer
           CheckoutPageProps.checkout_form 0)) statuses /\
  Schema.value_accepted Tables.orders_status
    (Schema.TextV
       (CheckoutPage.status
          (CheckoutPage.order_row CheckoutPageProps.customer
             CheckoutPageProps.checkout_form 0)))
  = true.
Proof.
  apply (order_status_colours (Schema.TextV "shipped") Schema.Null); reflexivity.
Defined.

End AdminFacts.

(** ** Saving an address *)

Module AddressSaveFacts.
Import Supabase Eff AddressForm AddressFormFields.
Import AddressFormProps AddressSaveProps.

Ltac run_handler :=
  unfold handleSubmit, try_finally, try_catch, bind, await, setLoading, setError,
    onSave, modify, get, throw_on_error, ret, throw;
  cbn.

(** The run of a save, by the answers to its requests. *)
Lemma handleSubmit_run backend u address formData w :
  handleSubmit backend (Some u) address formData w
  = let r1 := first_request u address formData w in
    let r2 := second_request u address in
    let a1 := answer backend (User.id u) r1 (addresses w) in
    match fst a1 with
    | Failure e =>
        (Returned tt,
         {| addresses := snd a1; loading := false;
            error := JS.or_else (message e) "Failed to save address";
            saved := saved w; now := now w;
            history := history w ++ [(r1, snd a1)] |})
    | Success _ =>
        if is_default formData
        then
          let a2 := answer backend (User.id u) r2 (snd a1) in
          (Returned tt,
           {| addresses := snd a2; loading := false; error := "";
              saved := S (saved w); now := now w;
              history := history w ++ [(r1, snd a1); (r2, snd a2)] |})
        else
          (Returned tt,
           {| addresses := snd a1; loading := false; error := "";
              saved := S (saved w); now := now w;
              history := history w ++ [(r1, snd a1)] |})
    end.
Proof.
  cbv zeta. unfold first_request, second_request.
  destruct address as [a |].
  - run_handler.
    destruct (answer backend (User.id u)
                (update (addressData u formData (now w))
                   [eq_id (Address.id a)]) (addresses w))
      as [[[] | e] t1] eqn:E1; cbn.
    + destruct (is_default formData); cbn.
      * destruct (answer backend (User.id u) _ t1) as [resp2 t2]; cbn.
        rewrite <- app_assoc. reflexivity.
      * reflexivity.
    + reflexivity.
  - run_handler.
    destruct (answer backend (User.id u)
                (insert (addressData u formData (now w))) (addresses w))
      as [[[] | e] t1] eqn:E1; cbn.
    + destruct (is_default formData); cbn.
      * destruct (answer backend (User.id u) _ t1) as [resp2 t2]; cbn.
        rewrite <- app_assoc. reflexivity.
      * reflexivity.
    + reflexivity.
Qed.

Lemma answer_refused backend uid r table e :
  refuses backend r = Some e -> answer backend uid r table = (Failure e, table).
Proof. intros H. unfold answer. rewrite H. reflexivity. Qed.

(** When the platform refuses the write of a save, nothing is saved and
    the form says so: the collection is as before, [onSave] is not
    called, the request for the default flags is not sent, and a
    message is shown, the one of the error when it has one. *)
Theorem address_write_refused :
  forall backend u address formData w e,
    refuses backend (first_request u address formData w) = Some e ->
    let r := handleSubmit backend (Some u) address formData w in
    fst r = Returned tt /\
    addresses (snd r) = addresses w /\
    saved (snd r) = saved w /\
    loading (snd r) = false /\
    error (snd r) = JS.or_else (message e) "Failed to save address" /\
    error (snd r) <> "" /\
    history (snd r)
    = history w ++ [(first_request u address formData w, addresses w)].
Proof.
  intros backend u address formData w e Href r. subst r.
  rewrite handleSubmit_run. cbv zeta.
  rewrite (answer_refused _ _ _ _ _ Href). cbn.
  repeat split. apply JSFacts.or_else_nonempty. discriminate.
Qed.

Lemma address_write_refused_witness :
  let backend := refusing (fun _ => true) network_error in
  let formData := form_for "9 quai Perrache" true in
  let w := world_with [home; work] in
  let r := handleSubmit backend (Some alice) (Some work) formData w in
  fst r = Returned tt /\
  addresses (snd r) = addresses w /\
  saved (snd r) = saved w /\
  loading (snd r) = false /\
  error (snd r) = JS.or_else (message network_error) "Failed to save address" /\
  error (snd r) <> "" /\
  history (snd r)
  = history w ++ [(first_request alice (Some work) formData w, addresses w)].
Proof.
  exact (address_write_refused (refusing (fun _ => true) network_error)
           alice (Some work) (form_for "9 quai Perrache" true)
           (world_with [home; work]) network_error eq_refl).
Defined.

(** The requests of the form write the id of the user of the session. *)
Lemma first_request_own u address formData w table :
  violates_check (User.id u) (first_request u address formData w) table = false.
Proof.
  unfold first_request. destruct address as [a |]; cbn;
    rewrite String.eqb_refl; reflexivity.
Qed.

Lemma answer_accepted backend uid r table :
  refuses backend r = None ->
  existsb compares_id_with_empty (filters_of r) = false ->
  violates_check uid r table = false ->
  answer backend uid r table = (Success tt, apply backend uid r table).
Proof.
  intros H1 H2 H3. unfold answer. rewrite H1, H2, H3, andb_false_r. reflexivity.
Qed.

(** The answer to the request for the default flags is not looked at:
    when the write of an address saved as the default goes through and
    the second request is refused, the form reports the save and shows
    no message, while the collection is as the write alone left it. *)
Theorem clearing_refused_still_saved :
  forall backend u a formData w e,
    is_default formData = true ->
    Address.id a <> "" ->
    refuses backend (first_request u (Some a) formData w) = None ->
    refuses backend (second_request u (Some a)) = Some e ->
    let r := handleSubmit backend (Some u) (Some a) formData w in
    fst r = Returned tt /\
    saved (snd r) = S (saved w) /\
    error (snd r) = "" /\
    addresses (snd r)
    = apply backend (User.id u) (first_request u (Some a) formData w)
        (addresses w) /\
    List.length (history (snd r)) = List.length (history w) + 2.
Proof.
  intros backend u a formData w e Hdef Hid H1 H2 r. subst r.
  rewrite handleSubmit_run. cbv zeta.
  rewrite (answer_accepted _ _ _ _ H1).
  2:{ cbn. apply String.eqb_neq in Hid. rewrite Hid. reflexivity. }
  2:{ apply first_request_own. }
  cbn [fst snd]. rewrite Hdef.
  rewrite (answer_refused _ _ _ _ _ H2). cbn.
  rewrite length_app. cbn. repeat split.
Qed.

Lemma clearing_refused_still_saved_witness :
  let backend := refusing is_clearing network_error in
  let formData := form_for "8 quai Perrache" true in
  let w := world_with [home; work] in
  let r := handleSubmit backend (Some alice) (Some work) formData w in
  fst r = Returned tt /\
  saved (snd r) = S (saved w) /\
  error (snd r) = "" /\
  addresses (snd r)
  = apply backend (User.id alice) (first_request alice (Some work) formData w)
      (addresses w) /\
  List.length (history (snd r)) = List.length (history w) + 2.
Proof.
  apply (clearing_refused_still_saved (refusing is_clearing network_error)
           alice work (form_for "8 quai Perrache" true)
           (world_with [home; work]) network_error).
  - reflexivity.
  - discriminate.
  - reflexivity.
  - reflexivity.
Defined.

(** *** Opening an address and saving it *)

Lemma or_default_same s : or_default s "" = s.
Proof.
  unfold or_default. destruct (String.eqb s "") eqn:E; [| reflexivity].
  apply String.eqb_eq in E. symmetry. exact E.
Qed.

Lemma or_null_or_else (o : option string) :
  o <> Some "" -> or_null (JS.or_else o "") = o.
Proof.
  intros H. unfold or_null, JS.or_else. destruct o as [s |]; [| reflexivity].
  destruct (String.eqb s "") eqn:E.
  - apply String.eqb_eq in E. subst s. contradiction H. reflexivity.
  - rewrite E. reflexivity.
Qed.

(** What the form writes for an address it was given and that was not
    edited. *)
Lemma with_data_loaded u a now0 row :
  Address.user_id a = User.id u ->
  Address.country a <> "" ->
  Address.address_line_2 a <> Some "" ->
  Address.phone a <> Some "" ->
  Address.id row = Address.id a ->
  Address.created_at row = Address.created_at a ->
  with_data (addressData u (load (Some a) initial) now0) row = touch now0 a.
Proof.
  intros Hu Hc H2 Hp Hid Hcr.
  unfold with_data, addressData, load, touch. cbn.
  rewrite !or_default_same, !or_null_or_else by assumption.
  rewrite orb_false_r, Hid, Hcr, Hu.
  unfold or_default. apply String.eqb_neq in Hc. rewrite Hc. reflexivity.
Qed.

(** Opening an address in the form and saving it unchanged changes
    nothing but its time of update: for an address of the user that is
    not the default one, whose country is filled and whose optional
    fields are not empty texts, the save that the platform lets through
    leaves every other row as it was and the row of the address as it
    was but for [updated_at], with one request. *)
Theorem unchanged_address_saved_as_is :
  forall backend u a w,
    Address.user_id a = User.id u ->
    Address.id a <> "" ->
    Address.is_default a = false ->
    Address.country a <> "" ->
    Address.address_line_2 a <> Some "" ->
    Address.phone a <> Some "" ->
    (forall row, In row (addresses w) -> Address.id row = Address.id a -> row = a) ->
    refuses backend (first_request u (Some a) (load (Some a) initial) w) = None ->
    let r := handleSubmit backend (Some u) (Some a) (load (Some a) initial) w in
    addresses (snd r)
    = map (fun row => if String.eqb (Address.id row) (Address.id a)
                      then touch (now w) a else row)
        (addresses w) /\
    saved (snd r) = S (saved w) /\
    error (snd r) = "" /\
    List.length (history (snd r)) = List.length (history w) + 1.
Proof.
  intros backend u a w Hu Hid Hdef Hc H2 Hp Hkey Href r. subst r.
  rewrite handleSubmit_run. cbv zeta.
  rewrite (answer_accepted _ _ _ _ Href).
  2:{ cbn. apply String.eqb_neq in Hid. rewrite Hid. reflexivity. }
  2:{ apply first_request_own. }
  cbn [fst snd].
  replace (is_default (load (Some a) initial)) with false
    by (cbn; rewrite Hdef; reflexivity).
  cbn [snd addresses saved error history].
  rewrite length_app. cbn [List.length].
  split; [| repeat split].
  unfold first_request. cbn [apply].
  apply map_ext_in. intros row Hrow. unfold target, own.
  cbn [selected forallb matches]. rewrite andb_true_r.
  destruct (String.eqb (Address.id row) (Address.id a)) eqn:E; [| reflexivity].
  apply String.eqb_eq in E.
  rewrite (Hkey row Hrow E), Hu, String.eqb_refl. cbn [andb].
  apply with_data_loaded; auto.
Qed.

Lemma unchanged_address_saved_as_is_witness :
  let backend := platform false in
  let w := world_with [home; work] in
  let r := handleSubmit backend (Some alice) (Some work)
             (load (Some work) initial) w in
  addresses (snd r)
  = map (fun row => if String.eqb (Address.id row) (Address.id work)
                    then touch (now w) work else row)
      (addresses w) /\
  saved (snd r) = S (saved w) /\
  error (snd r) = "" /\
  List.length (history (snd r)) = List.length (history w) + 1.
Proof.
  apply (unchanged_address_saved_as_is (platform false) alice work
           (world_with [home; work])); try reflexivity; try discriminate.
  intros row [<- | [<- | []]]; [discriminate | reflexivity].
Defined.

(** *** The default flag after a save *)

(** After an address of the user was saved as the default and the
    platform let both requests through, it is the only default address
    of the user: the rows under its id carry the flag and belong to the
    user, and no other row of the user carries it. *)
Theorem edit_default_leaves_one_default :
  forall backend u a formData w,
    is_default formData = true ->
    Address.id a <> "" ->
    (forall row,
       In row (addresses w) ->
       Address.id row = Address.id a -> Address.user_id row = User.id u) ->
    refuses backend (first_request u (Some a) formData w) = None ->
    refuses backend (second_request u (Some a)) = None ->
    let table := addresses (snd (handleSubmit backend (Some u) (Some a) formData w)) in
    map Address.id table = map Address.id (addresses w) /\
    forall row,
      In row table ->
      (Address.id row = Address.id a ->
       Address.is_default row = true /\ Address.user_id row = User.id u) /\
      (Address.user_id row = User.id u ->
       Address.is_default row = true ->
       Address.id row = Address.id a).
Proof.
  intros backend u a formData w Hdef Hid Hown H1 H2 table. subst table.
  assert (Hne : String.eqb (Address.id a) "" = false) by (apply String.eqb_neq, Hid).
  rewrite handleSubmit_run. cbv zeta.
  rewrite (answer_accepted _ _ _ _ H1)
    by (first [apply first_request_own | cbn; rewrite Hne; reflexivity]).
  cbn [fst snd]. rewrite Hdef.
  rewrite (answer_accepted _ _ _ _ H2)
    by (first [reflexivity | cbn; rewrite Hne; cbn; rewrite Hne; reflexivity]).
  cbn [snd addresses].
  unfold first_request, second_request.
  cbn [option_map JS.or_else]. rewrite Hne. cbn [apply].
  split.
  - rewrite !map_map. apply map_ext. intros row.
    destruct (target (User.id u) [eq_id (Address.id a)] row); cbn;
      match goal with |- context [if ?c then _ else _] => destruct c end;
      reflexivity.
  - intros row Hin.
    apply in_map_iff in Hin. destruct Hin as (row1 & Hrow & Hin1).
    apply in_map_iff in Hin1. destruct Hin1 as (row0 & Hrow1 & Hin0).
    unfold target, own in Hrow, Hrow1.
    cbn [selected forallb matches] in Hrow, Hrow1.
    rewrite andb_true_r in Hrow, Hrow1.
    destruct (String.eqb (Address.id row0) (Address.id a)) eqn:E0.
    + (* the row of the address *)
      apply String.eqb_eq in E0.
      rewrite (Hown row0 Hin0 E0), String.eqb_refl in Hrow1. cbn [andb] in Hrow1.
      subst row1. cbn in Hrow. rewrite E0, !String.eqb_refl in Hrow.
      cbn in Hrow. subst row. cbn. rewrite Hdef. auto.
    + cbn [andb] in Hrow1. subst row1.
      rewrite E0 in Hrow. rewrite (String.eqb_sym (User.id u)) in Hrow.
      destruct (String.eqb (Address.user_id row0) (User.id u)) eqn:Eu;
        cbn [negb andb] in Hrow; subst row.
      * cbn. split.
        -- intros E. apply String.eqb_neq in E0. contradiction.
        -- intros _ H. discriminate H.
      * split.
        -- intros E. apply String.eqb_neq in E0. contradiction.
        -- intros E. apply String.eqb_neq in Eu. contradiction.
Qed.

Lemma edit_default_leaves_one_default_witness :
  let table :=
    addresses (snd (handleSubmit (platform true) (Some alice) (Some work)
                      (form_for "8 quai Perrache" true)
                      (world_with [home; work]))) in
  map Address.id table = map Address.id (addresses (world_with [home; work])) /\
  forall row,
    In row table ->
    (Address.id row = Address.id work ->
     Address.is_default row = true /\ Address.user_id row = User.id alice) /\
    (Address.user_id row = User.id alice ->
     Address.is_default row = true ->
     Address.id row = Address.id work).
Proof.
  apply (edit_default_leaves_one_default (platform true) alice work
           (form_for "8 quai Perrache" true) (world_with [home; work]));
    try reflexivity.
  - discriminate.
  - intros row [<- | [<- | []]] _; reflexivity.
Defined.

(** *** What a save leaves alone *)

(** The rows the collection lets a session work on are those the policy
    of [addresses] lets through. *)
Lemma own_is_the_policy uid db row :
  Policies.update_target Policies.addresses_security (Some uid) db true row
  = own uid row /\
  Policies.update_check Policies.addresses_security (Some uid) db true row
  = own uid row /\
  Policies.delete_target Policies.addresses_security (Some uid) db true row
  = own uid row /\
  Policies.insert_allowed Policies.addresses_security (Some uid) db false row
  = own uid row.
Proof.
  unfold Policies.update_target, Policies.update_check, Policies.delete_target,
    Policies.insert_allowed, Policies.passes_using, Policies.passes_check, own.
  cbn. rewrite !orb_false_r, ?andb_true_r, ?andb_diag. repeat split; reflexivity.
Qed.

Lemma answer_keeps backend uid r table row :
  In row table ->
  match r with
  | insert _ => True
  | _ => selected (filters_of r) row = false
  end ->
  In row (snd (answer backend uid r table)).
Proof.
  intros Hin Hsel. unfold answer.
  destruct (refuses backend r); [exact Hin |].
  destruct (_ && _); [exact Hin |].
  destruct (violates_check uid r table); [exact Hin |]. cbn [snd].
  destruct r as [d | d fs | v fs]; cbn [apply filters_of] in *.
  - apply in_or_app. left. exact Hin.
  - apply in_map_iff. exists row. unfold target. rewrite Hsel. auto.
  - apply in_map_iff. exists row. unfold target. rewrite Hsel. auto.
Qed.

(** A save never touches the address of another user, unless it is the
    address being edited: whatever the platform answers, a row of
    another owner under another id is in the collection after the save
    as it was before. *)
Theorem other_addresses_untouched :
  forall backend u address formData w row,
    In row (addresses w) ->
    Address.user_id row <> User.id u ->
    (forall a, address = Some a -> Address.id row <> Address.id a) ->
    In row (addresses (snd (handleSubmit backend (Some u) address formData w))).
Proof.
  intros backend u address formData w row Hin Hu Hid.
  rewrite handleSubmit_run. cbv zeta.
  assert (H1 : In row (snd (answer backend (User.id u)
                              (first_request u address formData w)
                              (addresses w)))).
  { apply answer_keeps; [exact Hin |].
    unfold first_request. destruct address as [a |].
    - cbn. rewrite andb_true_r. apply String.eqb_neq. apply Hid. reflexivity.
    - exact I. }
  assert (H2 : In row (snd (answer backend (User.id u)
                              (second_request u address)
                              (snd (answer backend (User.id u)
                                      (first_request u address formData w)
                                      (addresses w)))))).
  { apply answer_keeps; [exact H1 |].
    unfold second_request. cbn.
    apply String.eqb_neq in Hu. rewrite Hu. reflexivity. }
  destruct (fst (answer backend (User.id u)
                   (first_request u address formData w) (addresses w))).
  - destruct (is_default formData); [exact H2 | exact H1].
  - exact H1.
Qed.

Lemma other_addresses_untouched_witness :
  In home
    (addresses (snd (handleSubmit (platform false) (Some bob) None
                       (form_for "1 place Bellecour" true)
                       (world_with [home; work])))).
Proof.
  apply (other_addresses_untouched (platform false) bob None
           (form_for "1 place Bellecour" true) (world_with [home; work]) home).
  - left. reflexivity.
  - discriminate.
  - intros a H. discriminate H.
Defined.

End AddressSaveFacts.

(** ** The forms of the administrator *)

Module AdminFormsFacts.
Import AdminFormsProps.

Section Images.

Variable trim : string -> string.

Lemma remove_at_incl {A} index (l : list A) x :
  In x (ProductForm.remove_at index l) -> In x l.
Proof.
  revert index. induction l as [| a l IH]; intros index H; [destruct index; exact H |].
  destruct index as [| i]; cbn in H.
  - right. exact H.
  - destruct H as [<- | H]; [left; reflexivity | right; apply (IH i), H].
Qed.

Lemma remove_at_tidy index l : tidy l -> tidy (ProductForm.remove_at index l).
Proof.
  intros [Hnd Hne]. revert index.
  induction l as [| a l IH]; intros index; [destruct index; split; constructor |].
  inversion Hnd as [| ? ? Hnotin Hnd']; subst.
  inversion Hne as [| ? ? Ha Hne']; subst.
  destruct index as [| i]; cbn.
  - split; assumption.
  - destruct (IH Hnd' Hne' i) as [H1 H2]. split.
    + constructor; [| exact H1]. intros H. apply Hnotin.
      apply (remove_at_incl i). exact H.
    + constructor; assumption.
Qed.

Lemma images_event_tidy e st :
  tidy (ProductForm.additionalImages st) ->
  tidy (ProductForm.additionalImages (images_event trim e st)).
Proof.
  intros H. destruct e; cbn; try exact H.
  - unfold ProductForm.addImage.
    destruct (ProductCard.truthy (trim (ProductForm.newImageUrl st))) eqn:Et;
      cbn [andb]; [| exact H].
    destruct (existsb _ _) eqn:Ex; cbn [negb]; [exact H |].
    cbn. destruct H as [Hnd Hne]. split.
    + apply NoDup_app;
        [exact Hnd | constructor; [intros [] | constructor] |].
      intros x Hx [E | []]. subst x.
      assert (existsb (String.eqb (trim (ProductForm.newImageUrl st)))
                (ProductForm.additionalImages st) = true).
      { apply existsb_exists. exists (trim (ProductForm.newImageUrl st)).
        split; [exact Hx | apply String.eqb_refl]. }
      congruence.
    + apply Forall_app. split; [exact Hne |]. constructor; [| constructor].
      unfold ProductCard.truthy in Et. apply negb_true_iff in Et.
      apply String.eqb_neq. exact Et.
  - apply remove_at_tidy. exact H.
Qed.

Lemma images_after_tidy events st :
  tidy (ProductForm.additionalImages st) ->
  tidy (ProductForm.additionalImages (images_after trim events st)).
Proof.
  revert st. induction events as [| e events IH]; intros st H; [exact H |].
  unfold images_after. cbn [fold_left]. apply IH. apply images_event_tidy. exact H.
Qed.

Lemma filter_keeps_all {A} (f : A -> bool) l :
  Forall (fun x => f x = true) l -> filter f l = l.
Proof.
  induction 1 as [| x l Hx _ IH]; [reflexivity |].
  cbn. rewrite Hx, IH. reflexivity.
Qed.

End Images.

(** The additional images of a new product never hold an image twice
    nor an image without an address, whatever is typed, added and
    removed in the form. *)
Theorem additional_images_stay_tidy :
  forall (trim : string -> string) (events : list ImagesEvent),
    let images :=
      ProductForm.additionalImages
        (images_after trim events ProductForm.initial) in
    NoDup images /\ Forall (fun img => img <> "") images.
Proof.
  intros trim events images. subst images.
  apply images_after_tidy. split; constructor.
Qed.

(** The product page shows the images as the form holds them: for a
    product saved with additional images that are not blank, the images
    of the product page are the main image, when there is one, followed
    by the additional images in their order, and the placeholder alone
    when the form has no image at all. *)
Theorem product_page_shows_form_images :
  forall (trim : string -> string) (st : ProductForm.Images) (p : Product.t),
    Product.image_url p = ProductForm.data_image_url st ->
    Product.images p = ProductForm.data_images st ->
    Forall (fun img => ProductCard.non_blank trim img = true)
      (ProductForm.additionalImages st) ->
    ProductDetailPage.getProductImages trim (Some p)
    = match ProductForm.allImages st with
      | [] => [ProductDetailPage.placeholder]
      | images => images
      end.
Proof.
  intros trim st p Hu Hi Hall.
  unfold ProductDetailPage.getProductImages. rewrite Hu, Hi.
  unfold ProductForm.data_image_url, ProductForm.data_images,
    ProductForm.allImages, ProductCard.truthy.
  destruct (String.eqb (ProductForm.image_url st) "") eqn:E; cbn [negb app].
  - destruct (ProductForm.additionalImages st) as [| a l] eqn:El; [reflexivity |].
    rewrite (filter_keeps_all _ _ Hall). reflexivity.
  - cbn [filter]. rewrite (filter_keeps_all _ _ Hall).
    unfold ProductCard.truthy. rewrite E. cbn [negb andb].
    destruct (ProductCard.non_blank trim (ProductForm.image_url st)) eqn:Enb.
    + cbn [existsb]. rewrite String.eqb_refl. reflexivity.
    + destruct (existsb (String.eqb (ProductForm.image_url st))
                  (ProductForm.additionalImages st)) eqn:Ex; [| reflexivity].
      apply existsb_exists in Ex. destruct Ex as (x & Hx & Ex).
      apply String.eqb_eq in Ex. subst x.
      rewrite Forall_forall in Hall. rewrite (Hall _ Hx) in Enb. discriminate Enb.
Qed.

Lemma product_page_shows_form_images_witness :
  ProductDetailPage.getProductImages ProductDetailPageProps.ascii_trim
    (Some (ProductDetailPageProps.product_with_images (Some "m.jpg")
             (Some ["m.jpg"; "a.jpg"; "b.jpg"])))
  = match ProductForm.allImages
            {| ProductForm.image_url := "m.jpg";
               ProductForm.additionalImages := ["a.jpg"; "b.jpg"];
               ProductForm.newImageUrl := "" |} with
    | [] => [ProductDetailPage.placeholder]
    | images => images
    end.
Proof.
  apply (product_page_shows_form_images ProductDetailPageProps.ascii_trim
           {| ProductForm.image_url := "m.jpg";
              ProductForm.additionalImages := ["a.jpg"; "b.jpg"];
              ProductForm.newImageUrl := "" |}).
  - reflexivity.
  - reflexivity.
  - repeat constructor.
Defined.

(** Opening a saved product in the form brings its images back: the
    main image, and the additional images as they were saved, provided
    none of them is blank or the main image itself. *)
Theorem saved_images_load_back :
  forall (trim : string -> string) (st : ProductForm.Images) (p : Product.t),
    Product.image_url p = ProductForm.data_image_url st ->
    Product.images p = ProductForm.data_images st ->
    Forall (fun img => ProductCard.non_blank trim img = true /\
                       img <> ProductForm.image_url st)
      (ProductForm.additionalImages st) ->
    ProductForm.load trim (Some p) ProductForm.initial
    = {| ProductForm.image_url := ProductForm.image_url st;
         ProductForm.additionalImages := ProductForm.additionalImages st;
         ProductForm.newImageUrl := "" |}.
Proof.
  intros trim st p Hu Hi Hall.
  unfold ProductForm.load. rewrite Hu, Hi.
  unfold ProductForm.data_image_url, ProductForm.data_images,
    ProductForm.allImages, ProductCard.truthy.
  destruct (String.eqb (ProductForm.image_url st) "") eqn:E; cbn [negb app].
  - apply String.eqb_eq in E. cbn [JS.or_else]. rewrite E.
    destruct (ProductForm.additionalImages st) as [| a l] eqn:El; [reflexivity |].
    cbn [ProductForm.newImageUrl ProductForm.initial].
    f_equal. apply filter_keeps_all.
    eapply Forall_impl; [| exact Hall]. cbn. intros x [Hx _].
    rewrite Hx. reflexivity.
  - cbn [JS.or_else]. rewrite E.
    cbn [ProductForm.newImageUrl ProductForm.initial]. f_equal.
    cbn [filter ProductForm.is_not]. rewrite String.eqb_refl.
    rewrite andb_false_r. apply filter_keeps_all.
    eapply Forall_impl; [| exact Hall]. cbn. intros x [Hx Hne].
    rewrite Hx. apply String.eqb_neq in Hne. rewrite Hne. reflexivity.
Qed.

Lemma saved_images_load_back_witness :
  ProductForm.load ProductDetailPageProps.ascii_trim
    (Some (ProductDetailPageProps.product_with_images (Some "m.jpg")
             (Some ["m.jpg"; "a.jpg"; "b.jpg"])))
    ProductForm.initial
  = {| ProductForm.image_url := "m.jpg";
       ProductForm.additionalImages := ["a.jpg"; "b.jpg"];
       ProductForm.newImageUrl := "" |}.
Proof.
  apply (saved_images_load_back ProductDetailPageProps.ascii_trim
           {| ProductForm.image_url := "m.jpg";
              ProductForm.additionalImages := ["a.jpg"; "b.jpg"];
              ProductForm.newImageUrl := "" |}).
  - reflexivity.
  - reflexivity.
  - repeat constructor; discriminate.
Defined.

(** *** The slug of the category form *)

Section Slug.

Variable generateSlug : string -> string.

Lemma change_keeps_slug category field value prev :
  field <> "slug" ->
  category <> None ->
  CategoryForm.slug
    (CategoryFormFields.handleInputChange generateSlug category field value prev)
  = CategoryForm.slug prev.
Proof.
  intros Hf Hc. unfold CategoryFormFields.handleInputChange.
  destruct category as [c |]; [| contradiction Hc; reflexivity].
  rewrite andb_false_r. unfold CategoryFormFields.set_field.
  apply String.eqb_neq in Hf. rewrite Hf.
  destruct (String.eqb field "name"); [reflexivity |].
  destruct (String.eqb field "description"); [reflexivity |].
  destruct (String.eqb field "image_url"); reflexivity.
Qed.

Lemma change_keeps_slug_of_name field value prev :
  field <> "slug" ->
  CategoryForm.slug prev = generateSlug (CategoryForm.name prev) ->
  let updated :=
    CategoryFormFields.handleInputChange generateSlug None field value prev in
  CategoryForm.slug updated = generateSlug (CategoryForm.name updated).
Proof.
  intros Hf H. cbv zeta. unfold CategoryFormFields.handleInputChange.
  rewrite andb_true_r. unfold CategoryFormFields.set_field.
  apply String.eqb_neq in Hf. rewrite Hf.
  destruct (String.eqb field "name"); [reflexivity |].
  destruct (String.eqb field "description"); [exact H |].
  destruct (String.eqb field "image_url"); exact H.
Qed.

End Slug.

(** While a category is created its slug follows its name: as long as
    the slug field itself is not typed in, the slug is the one generated
    from the name shown, whatever else changes; and while a category is
    edited, no change of another field changes its slug. *)
Theorem slug_follows_name :
  forall (generateSlug : string -> string) (category : option Category.t)
         (changes : list (string * string)) (formData : CategoryForm.FormData),
    Forall (fun change => fst change <> "slug") changes ->
    let after := fields_after generateSlug category changes formData in
    (category <> None ->
     CategoryForm.slug after = CategoryForm.slug formData) /\
    (category = None ->
     CategoryForm.slug formData = generateSlug (CategoryForm.name formData) ->
     CategoryForm.slug after = generateSlug (CategoryForm.name after)).
Proof.
  intros generateSlug category changes formData Hall after. subst after.
  revert formData.
  induction Hall as [| [field value] changes Hf _ IH]; intros formData.
  - split; [reflexivity | intros _ H; exact H].
  - unfold fields_after in *. cbn [fold_left fst snd] in *.
    destruct (IH (CategoryFormFields.handleInputChange generateSlug category
                    field value formData)) as [IH1 IH2].
    split.
    + intros Hc. rewrite (IH1 Hc). apply change_keeps_slug; assumption.
    + intros Hc H. subst category. apply (IH2 eq_refl).
      apply change_keeps_slug_of_name; assumption.
Qed.

Lemma slug_follows_name_witness :
  let formData :=
    {| CategoryForm.name := ""; CategoryForm.description := "";
       CategoryForm.slug := ""; CategoryForm.image_url := "" |} in
  let after :=
    fields_after sample_slug None
      [("name", "Garden"); ("description", "Plants and tools");
       ("name", "Garden 2")]
      formData in
  (@None Category.t <> None ->
   CategoryForm.slug after = CategoryForm.slug formData) /\
  (@None Category.t = None ->
   CategoryForm.slug formData = sample_slug (CategoryForm.name formData) ->
   CategoryForm.slug after = sample_slug (CategoryForm.name after)).
Proof.
  apply (slug_follows_name sample_slug None
           [("name", "Garden"); ("description", "Plants and tools");
            ("name", "Garden 2")]).
  repeat constructor; discriminate.
Defined.

End AdminFormsFacts.
